(* ===== verification/_CoqProject ===== *)
-Q . S2P
Prelude.v
Hoare.v
Chars.v
Cursor.v
Token.v
Lexer.v
Invariants.v
Sim.v
Run.v
Total.v
Lines.v
Numbers.v
Skip.v
Idents.v
Driver.v
Main.v
Wellformed.v
Counting.v
Unterminated.v
Examples.v
