(* ===== verification/Prelude.v ===== *)
(** * Verification of the CSE340 lexical analyser (lexer.cc)

    ** The program

    [src/Assignment 1/CSE340_Project1/lexer.cc] is a hand-written lexical
    analyser.  [main] creates a [LexicalAnalyzer], calls [GetToken] until
    it returns [END_OF_FILE] and prints every token.  [GetToken] pops the
    token stack filled by [UngetToken] if it is not empty; otherwise it
    calls [SkipSpace], fetches a character and dispatches on it: a
    character of the [switch] is a token of its own, [<] and [>] look one
    character further, a digit goes to [ScanNumber], a letter to
    [ScanIdOrKeyword].  [ScanNumber] tries the formats of [numberTypes]
    in order with [matchToBase] (real number, base 8, base 16), each of
    which pushes back what it consumed when it fails, and falls back on
    [checkAndReturnNum].  All of them read the input through the
    character cursor [InputBuffer] (inputbuf.h, not part of the sources),
    which supports pushing characters back.

    ** The files

    - [Prelude] (this file): strings as lists of characters; the monad
      [Comp] of computations on a state that may run out of fuel, with
      the combinator [while] for the loops of the source; simulations
      between computations on two state types; [span], the longest prefix
      of a list that passes a test.
    - [Hoare]: partial-correctness triples for [Comp], with the rule for
      [while] and the tactic [keeps_auto].
    - [Chars]: a [char] promoted to [int], the classes of <cctype>, and
      [isDigitInBase], [isPositiveDigitInBase] of lexer.cc.
    - [Cursor]: the character cursor as an interface (class [Cursor]),
      its reference model [Tape] (the characters still to come and
      whether a fetch has failed) and the push-back buffer over the
      standard input ([InputBuffer]), proved to implement the interface.
      Modelled from the specification.
    - [Token]: the token kinds, the tables [reserved], [keyword],
      [numberTypes], the struct [Token] with [Print], and [IsKeyword],
      [FindKeywordIndex].
    - [Lexer]: the class [LexicalAnalyzer] as a record ([tokens], [input],
      [line_no], [tmp]) and one definition for each member function and
      for [main], written in [Comp] over any implementation of the
      cursor, statement by statement as in lexer.cc.  A loop of the
      source is a [while] on its loop-carried locals; a [for] loop over a
      table is a recursion on the table.  Definitions only.
    - [Invariants]: what each member function may change (frames), what
      [GetToken] returns, and the states reachable by a client as a step
      relation.  Proved with the triples of [Hoare], for every state and
      every cursor.
    - [Sim]: every member function over any cursor is simulated by the
      same function over the reference tape (representation
      independence), so that the theorems below, proved on the tape, hold
      for the program's buffer.
    - [Run]: what each loop computes on the tape as a recursive function
      of the pending characters, and the rewriting rules with which
      [lex_run] executes a member function symbolically.
    - [Total]: termination of every member function.
    - [Lines]: the inputs on which no token meets the end of the stream
      ([line_pending], [terminated]) and the loops on them.
    - [Numbers]: the grammar of the number formats ([literal], [number])
      and the refinement theorems for [matchToBase] and [ScanNumber].
    - [Skip]: [SkipSpace] and the line counter.
    - [Idents]: the keyword table and [ScanIdOrKeyword].
    - [Driver]: the token stack, and [GetToken] against [next_token].
    - [Main]: the reference tokenizer [tokenize] and the theorem that
      [main] prints its tokens and stops.
    - [Wellformed]: the lexemes of each kind of token as an inductive
      grammar ([lexeme_of]) and the theorem that every token scanned is
      well formed.
    - [Counting]: the line numbers of the tokens: they never decrease
      and stay within the range of an [int].
    - [Unterminated]: an input that ends with a number or a word and no
      newline: what [ScanNumber], [GetToken] and [main] do when a scan
      meets the end of the stream.
    - [Examples]: the program run on the inputs the specification names
      and on inputs where it departs from the specification.

    ** What the theorems show

    - Refinement: on an input that is empty or ends with a newline, with
      its end not yet hit, [matchToBase], [ScanNumber], [ScanIdOrKeyword],
      [SkipSpace] and [GetToken] return what the reference functions
      [literal], [number], [identifier], [skip_result] and [next_token]
      give, and leave the cursor, the line counter and [tmp] as these
      say; [main] writes the tokens of [tokenize].  Each theorem is
      stated over any implementation of the cursor.
    - Shape of the results: a lexeme is a prefix of the input, a run is
      the longest one, a keyword is spelled exactly, every token is well
      formed for its kind.  Where the code loses input or miscounts
      lines, the theorems say so: a character after ["0."] and its zeros
      is dropped, a newline that ends the input is counted twice, a
      number that ends the input with no newline loses its last three
      digits (a word does not), and a local that was never assigned can
      keep [main] from stopping.
    - Termination: every member function returns from every state;
      [main] stops on a terminated input.
    - Invariants: the scanners change the cursor and [tmp] only;
      [SkipSpace] only raises the line counter; [GetToken] returns [tmp];
      the line counter of a reachable state is at least 1.
    - The token stack: [UngetToken] then [GetToken] is a round trip, and
      the stack is last in, first out.
    - The tables: the two keyword loops agree, a keyword prints its own
      name, every index is within its table, and the signedness of
      [char] does not matter to the digit tests.

    ** Fuel and bounds

    A loop that fetches a character on each turn is given one unit of
    fuel more than there are pending characters ([input_fuel]); the
    lemmas of [Run] show that it never uses it up, so [None] is never
    returned by a member function.  [main] takes the number of turns of
    its loop as a parameter; as many turns as the input has characters
    are enough on a terminated input, since every token but the last
    consumes a character.  Integers are unbounded in the model; the line
    counter of the source is an [int], and [Counting] shows that on a
    terminated input of fewer than 2^31 - 3 characters no line number
    leaves its range.

    ** Characters that were never assigned

    Each member function declares [char c] without a value, and a fetch
    that fails at the end of the input leaves [c] as it was.  The record
    [Uninit] gives the initial value of each such local; theorems hold
    for every value, or state what they need of it (the predicate
    [benign] for the local of [GetToken]).

    ** What is not modelled

    The header files and inputbuf.cc are not among the sources: the
    cursor, the enumeration and the fields of the classes are taken from
    the specification and from their use in lexer.cc.  Stream errors
    other than the end of the input and locales other than the C locale
    are not modelled. *)

From Stdlib Require Import Ascii String ZArith Lia List Bool.
From stdpp Require Import base tactics option list strings.
Import ListNotations.

(** ** Character strings

    A C++ [std::string] and the character stream are both lists of 8-bit
    characters; [chars] turns a literal into such a list. *)

Abbreviation cstring := (list ascii).

Definition chars (s : string) : cstring := list_ascii_of_string s.

(** ** The state-and-fuel monad

    Member functions of the analyser read and write the analyser's fields
    and loop on the input; a computation is a function from the state to
    an optional result and final state, [None] meaning that a loop ran
    out of the fuel it was given. *)

Definition Comp (S A : Type) : Type := S -> option (A * S).

Definition ret {S A : Type} (a : A) : Comp S A := fun s => Some (a, s).

Definition bind {S A B : Type} (m : Comp S A) (k : A -> Comp S B) : Comp S B :=
  fun s => match m s with
           | Some (a, s') => k a s'
           | None => None
           end.

Definition out_of_fuel {S A : Type} : Comp S A := fun _ => None.

Definition gets {S A : Type} (f : S -> A) : Comp S A := fun s => Some (f s, s).

Definition modify {S : Type} (f : S -> S) : Comp S unit := fun s => Some (tt, f s).

Definition when {S : Type} (b : bool) (m : Comp S unit) : Comp S unit :=
  if b then m else ret tt.

(** A [while] loop: [cond] is evaluated first; each run of [body] costs one
    unit of fuel.  [x] holds the local variables the loop changes. *)
Fixpoint while {S X : Type} (n : nat) (cond : X -> Comp S bool)
    (body : X -> Comp S X) (x : X) {struct n} : Comp S X :=
  bind (cond x) (fun b =>
    if b then
      match n with
      | O => out_of_fuel
      | S n' => bind (body x) (fun x' => while n' cond body x')
      end
    else ret x).

Declare Scope comp_scope.
Delimit Scope comp_scope with comp.
Bind Scope comp_scope with Comp.

Notation "x <- m ;; k" := (bind m (fun x => k))
  (at level 100, m at next level, right associativity) : comp_scope.
Notation "m ;; k" := (bind m (fun _ => k))
  (at level 100, right associativity) : comp_scope.

(** Simulation of a computation on a concrete state by one on an abstract
    state, through an abstraction function [v]: both run out of fuel
    together, return the same value, and the final states correspond. *)

Definition lift_view {S T A : Type} (v : S -> T) (r : option (A * S)) : option (A * T) :=
  match r with
  | Some (a, s) => Some (a, v s)
  | None => None
  end.

Definition sim {S T A : Type} (v : S -> T) (m : Comp S A) (m' : Comp T A) : Prop :=
  forall s, lift_view v (m s) = m' (v s).

(** ** Lists: the longest prefix satisfying a test *)

Fixpoint span {A : Type} (P : A -> bool) (l : list A) : list A * list A :=
  match l with
  | [] => ([], [])
  | x :: l' => if P x then let (xs, rest) := span P l' in (x :: xs, rest)
               else ([], l)
  end.

Definition starts_with_not {A : Type} (P : A -> bool) (l : list A) : Prop :=
  match l with
  | [] => True
  | x :: _ => P x = false
  end.

(** ** Tactics and hint databases *)

Create HintDb lexer discriminated.
Create Rewrite HintDb lexer.

(** Closes a decidable closed goal by evaluation. *)
Ltac by_decide := apply (bool_decide_unpack _); vm_compute; exact I.

(** ** Laws of the monad *)

Section CompLaws.
Context {S A B C : Type}.
Implicit Types (m : Comp S A) (k : A -> Comp S B) (h : B -> Comp S C).

Lemma bind_ret_l (a : A) k s : bind (ret a) k s = k a s.
Proof. reflexivity. Qed.

Lemma bind_ret_r m s : bind m ret s = m s.
Proof. unfold bind, ret. destruct (m s) as [[a s']|]; reflexivity. Qed.

Lemma bind_assoc m k h s :
  bind (bind m k) h s = bind m (fun a => bind (k a) h) s.
Proof. unfold bind. destruct (m s) as [[a s']|]; reflexivity. Qed.

Lemma bind_Some m k s a s' : m s = Some (a, s') -> bind m k s = k a s'.
Proof. unfold bind. intros ->. reflexivity. Qed.

Lemma bind_Some_pair m k s r : m s = Some r -> bind m k s = k (fst r) (snd r).
Proof. unfold bind. intros ->. by destruct r. Qed.

Lemma bind_None m k s : m s = None -> bind m k s = None.
Proof. unfold bind. intros ->. reflexivity. Qed.

Lemma bind_inv m k s r :
  bind m k s = Some r -> exists a s', m s = Some (a, s') /\ k a s' = Some r.
Proof.
  unfold bind. destruct (m s) as [[a s']|]; [eauto | discriminate].
Qed.

Lemma bind_gets (f : S -> A) k s : bind (gets f) k s = k (f s) s.
Proof. reflexivity. Qed.

Lemma bind_modify (f : S -> S) (k : unit -> Comp S B) s :
  bind (modify f) k s = k tt (f s).
Proof. reflexivity. Qed.

End CompLaws.

Section WhileLaws.
Context {St X : Type} (cond : X -> Comp St bool) (body : X -> Comp St X).

Lemma while_false n x s s' :
  cond x s = Some (false, s') -> while n cond body x s = Some (x, s').
Proof. intros H. destruct n; simpl; by rewrite (bind_Some _ _ _ _ _ H). Qed.

Lemma while_true n x s s' x' s'' :
  cond x s = Some (true, s') -> body x s' = Some (x', s'') ->
  while (S n) cond body x s = while n cond body x' s''.
Proof.
  intros Hc Hb. simpl. rewrite (bind_Some _ _ _ _ _ Hc).
  by rewrite (bind_Some _ _ _ _ _ Hb).
Qed.

Lemma while_out_of_fuel x s s' :
  cond x s = Some (true, s') -> while 0 cond body x s = None.
Proof. intros H. simpl. by rewrite (bind_Some _ _ _ _ _ H). Qed.

End WhileLaws.

#[export] Hint Rewrite @bind_ret_l @bind_gets @bind_modify : lexer.

(** ** Composition rules for simulations *)

Section SimRules.
Context {S T : Type} (v : S -> T).

Lemma sim_ret {A} (a : A) : sim v (ret a) (ret a).
Proof. intros s. reflexivity. Qed.

Lemma sim_out_of_fuel {A} : sim v (@out_of_fuel S A) out_of_fuel.
Proof. intros s. reflexivity. Qed.

Lemma sim_bind {A B} (m : Comp S A) m' (k : A -> Comp S B) k' :
  sim v m m' -> (forall a, sim v (k a) (k' a)) -> sim v (bind m k) (bind m' k').
Proof.
  intros Hm Hk s. unfold bind. rewrite <- Hm.
  destruct (m s) as [[a s']|]; simpl; [apply Hk | reflexivity].
Qed.

Lemma sim_gets {A} (f : S -> A) (f' : T -> A) :
  (forall s, f s = f' (v s)) -> sim v (gets f) (gets f').
Proof. intros Hf s. unfold gets. simpl. rewrite Hf. reflexivity. Qed.

Lemma sim_modify (f : S -> S) (f' : T -> T) :
  (forall s, v (f s) = f' (v s)) -> sim v (modify f) (modify f').
Proof. intros Hf s. unfold modify. simpl. rewrite Hf. reflexivity. Qed.

Lemma sim_when (b : bool) (m : Comp S unit) m' :
  sim v m m' -> sim v (when b m) (when b m').
Proof. destruct b; [auto | intros _; apply sim_ret]. Qed.

Lemma sim_if {A} (b : bool) (m1 m2 : Comp S A) m1' m2' :
  sim v m1 m1' -> sim v m2 m2' ->
  sim v (if b then m1 else m2) (if b then m1' else m2').
Proof. destruct b; auto. Qed.

Lemma sim_while {X} (cond : X -> Comp S bool) cond' (body : X -> Comp S X) body' n x :
  (forall x, sim v (cond x) (cond' x)) -> (forall x, sim v (body x) (body' x)) ->
  sim v (while n cond body x) (while n cond' body' x).
Proof.
  intros Hc Hb. revert x. induction n as [|n IH]; intros x; simpl;
    (apply sim_bind; [apply Hc|]); intros [|];
    auto using sim_ret, sim_out_of_fuel, sim_bind.
Qed.

Lemma sim_run {A} (m : Comp S A) m' s a t :
  sim v m m' -> m' (v s) = Some (a, t) ->
  exists s', m s = Some (a, s') /\ v s' = t.
Proof.
  intros Hm Hr. specialize (Hm s). rewrite Hr in Hm.
  destruct (m s) as [[a0 s']|]; simpl in Hm; [|discriminate].
  injection Hm as -> <-. eauto.
Qed.

End SimRules.

#[export] Hint Resolve sim_ret sim_out_of_fuel sim_bind sim_gets sim_modify
  sim_when sim_if sim_while : lexer.

(** ** Facts about [span] *)

Section Span.
Context {A : Type} (P : A -> bool).

Lemma span_app (l : list A) : fst (span P l) ++ snd (span P l) = l.
Proof.
  induction l as [|x l IH]; simpl; [reflexivity|].
  destruct (P x); [|reflexivity].
  destruct (span P l) as [xs rest]; simpl in *. congruence.
Qed.

Lemma span_Forall (l : list A) : Forall (fun x => P x = true) (fst (span P l)).
Proof.
  induction l as [|x l IH]; simpl; [constructor|].
  destruct (P x) eqn:E; [|constructor].
  destruct (span P l) as [xs rest]; simpl in *. constructor; assumption.
Qed.

Lemma span_rest (l : list A) : starts_with_not P (snd (span P l)).
Proof.
  induction l as [|x l IH]; simpl; [exact I|].
  destruct (P x) eqn:E; [|exact E].
  destruct (span P l) as [xs rest]; simpl in *. exact IH.
Qed.

Lemma span_intro (xs rest : list A) :
  Forall (fun x => P x = true) xs -> starts_with_not P rest ->
  span P (xs ++ rest) = (xs, rest).
Proof.
  intros Hxs Hrest. induction Hxs as [|x xs Hx _ IH]; simpl.
  - destruct rest as [|y rest]; simpl in *; [reflexivity|]. rewrite Hrest. reflexivity.
  - rewrite Hx, IH. reflexivity.
Qed.

Lemma span_nil : span P [] = ([], []).
Proof. reflexivity. Qed.

Lemma span_cons_true x l :
  P x = true -> span P (x :: l) = (x :: fst (span P l), snd (span P l)).
Proof. intros H. simpl. rewrite H. by destruct (span P l). Qed.

Lemma span_cons_false x l : P x = false -> span P (x :: l) = ([], x :: l).
Proof. intros H. simpl. by rewrite H. Qed.

Lemma span_all (l : list A) :
  Forall (fun x => P x = true) l -> span P l = (l, []).
Proof.
  intros H. rewrite <- (app_nil_r l) at 1. by apply span_intro.
Qed.

End Span.

Arguments span : simpl never.

Lemma default_last_cons {A} (c x : A) (l : list A) :
  default c (last (x :: l)) = default x (last l).
Proof. rewrite last_cons. by destruct (last l). Qed.
