(* ===== verification/Hoare.v ===== *)
(** * Partial-correctness triples for the state-and-fuel monad

    [hoare P m Q]: a run of [m] from a state that satisfies [P], if it
    returns, returns a value and a state that satisfy [Q].  [keeps I m]
    is the case of a state invariant.  One rule per construct of the
    monad; the loop rule needs an invariant that does not depend on the
    fuel.  Totality is proved separately. *)

From Stdlib Require Import List Bool.
From stdpp Require Import base tactics.
From S2P Require Import Prelude.
Local Open Scope comp_scope.

Definition hoare {S A : Type} (P : S -> Prop) (m : Comp S A) (Q : A -> S -> Prop) : Prop :=
  forall s a s', P s -> m s = Some (a, s') -> Q a s'.

Definition keeps {S A : Type} (I : S -> Prop) (m : Comp S A) : Prop :=
  hoare I m (fun _ => I).

Create HintDb hoare discriminated.

Section Rules.
Context {S : Type}.
Implicit Types (P I : S -> Prop).

Lemma hoare_conseq {A} P P' (m : Comp S A) (Q Q' : A -> S -> Prop) :
  hoare P' m Q' -> (forall s, P s -> P' s) -> (forall a s, Q' a s -> Q a s) ->
  hoare P m Q.
Proof. intros Hm HP HQ s a s' Hs Hr. eapply HQ, Hm; eauto. Qed.

Lemma hoare_ret {A} P (a : A) (Q : A -> S -> Prop) :
  (forall s, P s -> Q a s) -> hoare P (ret a) Q.
Proof. intros H s a' s' Hs [= <- <-]. auto. Qed.

Lemma hoare_out_of_fuel {A} P (Q : A -> S -> Prop) : hoare P out_of_fuel Q.
Proof. intros s a s' _ [=]. Qed.

Lemma hoare_bind {A B} P (m : Comp S A) (k : A -> Comp S B) (Q : A -> S -> Prop)
    (R : B -> S -> Prop) :
  hoare P m Q -> (forall a, hoare (Q a) (k a) R) -> hoare P (bind m k) R.
Proof.
  intros Hm Hk s b s' Hs Hr. apply bind_inv in Hr as (a & s1 & Hm1 & Hk1).
  eapply Hk; [|exact Hk1]. eapply Hm; eauto.
Qed.

Lemma hoare_gets {A} P (f : S -> A) (Q : A -> S -> Prop) :
  (forall s, P s -> Q (f s) s) -> hoare P (gets f) Q.
Proof. intros H s a s' Hs [= <- <-]. auto. Qed.

Lemma hoare_modify P (f : S -> S) (Q : unit -> S -> Prop) :
  (forall s, P s -> Q tt (f s)) -> hoare P (modify f) Q.
Proof. intros H s a s' Hs [= <- <-]. auto. Qed.

(** A value-independent postcondition passes through any computation
    that keeps it. *)
Lemma keeps_bind {A B} I (m : Comp S A) (k : A -> Comp S B) :
  keeps I m -> (forall a, keeps I (k a)) -> keeps I (bind m k).
Proof. intros Hm Hk. by apply (hoare_bind I m k (fun _ => I)). Qed.

Lemma keeps_ret {A} I (a : A) : keeps I (ret a).
Proof. by apply (hoare_ret I a (fun _ => I)). Qed.

Lemma keeps_out_of_fuel {A} I : keeps I (@out_of_fuel S A).
Proof. apply hoare_out_of_fuel. Qed.

Lemma keeps_gets {A} I (f : S -> A) : keeps I (gets f).
Proof. by apply (hoare_gets I f (fun _ => I)). Qed.

Lemma keeps_modify I (f : S -> S) : (forall s, I s -> I (f s)) -> keeps I (modify f).
Proof. intros H. by apply (hoare_modify I f (fun _ => I)). Qed.

Lemma keeps_when I (b : bool) (m : Comp S unit) : keeps I m -> keeps I (when b m).
Proof. destruct b; [done|]. intros _. apply keeps_ret. Qed.

Lemma keeps_while {X} I n (cond : X -> Comp S bool) (body : X -> Comp S X) x :
  (forall x, keeps I (cond x)) -> (forall x, keeps I (body x)) ->
  keeps I (while n cond body x).
Proof.
  intros Hc Hb. revert x. induction n as [|n IH]; intros x; cbn [while];
    (apply keeps_bind; [apply Hc|]); intros [|];
    auto using keeps_ret, keeps_out_of_fuel, keeps_bind.
Qed.

(** What a triple says of a run. *)
Lemma hoare_run {A} P (m : Comp S A) (Q : A -> S -> Prop) s a s' :
  hoare P m Q -> P s -> m s = Some (a, s') -> Q a s'.
Proof. intros H Hs Hr. by eapply H. Qed.

(** The first statements of a sequence, whatever they do. *)
Lemma hoare_skip {A B} P (m : Comp S A) (k : A -> Comp S B) (Q : B -> S -> Prop) :
  (forall a, hoare (fun _ => True) (k a) Q) -> hoare P (bind m k) Q.
Proof. intros Hk. by apply (hoare_bind P m k (fun _ _ => True)). Qed.

(** What [keeps] says of a run. *)
Lemma keeps_run {A} I (m : Comp S A) s a s' : keeps I m -> I s -> m s = Some (a, s') -> I s'.
Proof. intros H Hs Hr. by eapply H. Qed.

Lemma keeps_and {A} I J (m : Comp S A) :
  keeps I m -> keeps J m -> keeps (fun s => I s /\ J s) m.
Proof. intros HI HJ s a s' [? ?] Hr. split; [eapply HI | eapply HJ]; eauto. Qed.

End Rules.

#[export] Hint Resolve keeps_ret keeps_out_of_fuel keeps_gets keeps_bind keeps_when
  keeps_while : hoare.

(** One step of a proof that a computation keeps an invariant, by the
    shape of the computation. *)
Ltac keeps_step :=
  cbv beta;
  lazymatch goal with
  | |- keeps _ (bind _ _) => apply keeps_bind; [|intros ?]
  | |- keeps _ (ret _) => apply keeps_ret
  | |- keeps _ out_of_fuel => apply keeps_out_of_fuel
  | |- keeps _ (while _ _ _ _) => apply keeps_while; intros ?
  | |- keeps _ (when _ _) => apply keeps_when
  | |- keeps _ (gets _) => apply keeps_gets
  | |- keeps _ (if ?b then _ else _) => destruct b
  | |- keeps _ (match ?x with _ => _ end) => destruct x
  | |- keeps _ (let _ := _ in _) => cbv zeta
  | |- _ => solve [eauto with hoare]
  end.

Ltac keeps_auto := repeat keeps_step.

(** A triple whose postcondition is its precondition, as [keeps]. *)
Ltac as_keeps :=
  lazymatch goal with
  | |- hoare ?P ?m _ => change (keeps P m)
  end.
