(* ===== verification/Chars.v ===== *)
(** * Characters: the <cctype> classification functions and the lexer's
    digit tests

    [char_int] is the value a [char] has after promotion to [int] (the
    type in which lexer.cc compares characters).  The <cctype> functions
    are modelled in the "C" locale; [isDigitInBase] and
    [isPositiveDigitInBase] are the two free functions of lexer.cc. *)

From Stdlib Require Import Ascii String ZArith Lia List Bool.
From stdpp Require Import base tactics list strings.
From S2P Require Import Prelude.
Import ListNotations.
Local Open Scope Z_scope.

(** A [char] promoted to [int]: plain [char] is signed on the platforms
    the program is built for, so codes from 128 up are negative. *)
Definition char_int (c : ascii) : Z :=
  let n := Z.of_N (N_of_ascii c) in
  if n <? 128 then n else n - 256.

(** The same character read as [unsigned char]. *)
Definition char_code (c : ascii) : Z := Z.of_N (N_of_ascii c).

Definition newline : ascii := "010"%char.

(** <cctype>, "C" locale. *)
Definition isspace (c : ascii) : bool :=
  let i := char_int c in ((9 <=? i) && (i <=? 13)) || (i =? 32).

Definition isdigit (c : ascii) : bool :=
  let i := char_int c in (48 <=? i) && (i <=? 57).

Definition isalpha (c : ascii) : bool :=
  let i := char_int c in
  ((65 <=? i) && (i <=? 90)) || ((97 <=? i) && (i <=? 122)).

Definition isalnum (c : ascii) : bool := isalpha c || isdigit c.

Definition toupper (i : Z) : Z :=
  if (97 <=? i) && (i <=? 122) then i - 32 else i.

(** lexer.cc, lines 128-134. *)
Definition isDigitInBase (c : ascii) (base : Z) : bool :=
  let i := char_int c in
  if base <=? 10 then
    (48 <=? i) && (i <? 48 + base)
  else
    ((48 <=? i) && (i <=? 57))
    || ((65 <=? toupper i) && (toupper i <? 65 + base - 10)).

(** lexer.cc, lines 136-142. *)
Definition isPositiveDigitInBase (c : ascii) (base : Z) : bool :=
  let i := char_int c in
  if base <=? 10 then
    (49 <=? i) && (i <? 48 + base)
  else
    ((49 <=? i) && (i <=? 57))
    || ((65 <=? toupper i) && (toupper i <? 65 + base - 10)).

(** The unsigned reading of [isDigitInBase], for the comparison below. *)
Definition isDigitInBase_unsigned (c : ascii) (base : Z) : bool :=
  let i := char_code c in
  if base <=? 10 then
    (48 <=? i) && (i <? 48 + base)
  else
    ((48 <=? i) && (i <=? 57))
    || ((65 <=? toupper i) && (toupper i <? 65 + base - 10)).

(** Case analysis on the 256 characters. *)
Ltac ascii_cases c := destruct c as [[] [] [] [] [] [] [] []].

Ltac bool_lia :=
  repeat match goal with
    | H : _ && _ = true |- _ => apply andb_true_iff in H; destruct H
    | H : _ || _ = true |- _ => apply orb_true_iff in H; destruct H
    | H : _ && _ = false |- _ => apply andb_false_iff in H; destruct H
    | H : _ || _ = false |- _ => apply orb_false_iff in H; destruct H
    | H : (_ <=? _) = true |- _ => apply Z.leb_le in H
    | H : (_ <=? _) = false |- _ => apply Z.leb_gt in H
    | H : (_ <? _) = true |- _ => apply Z.ltb_lt in H
    | H : (_ <? _) = false |- _ => apply Z.ltb_ge in H
    | H : (_ =? _) = true |- _ => apply Z.eqb_eq in H
    | H : (_ =? _) = false |- _ => apply Z.eqb_neq in H
    end; try lia.

(** ** Character codes *)

Lemma char_code_range c : 0 <= char_code c < 256.
Proof. ascii_cases c; vm_compute; split; congruence. Qed.

Lemma char_int_range c : -128 <= char_int c < 128.
Proof. ascii_cases c; vm_compute; split; congruence. Qed.

Lemma char_int_inj c d : char_int c = char_int d -> c = d.
Proof.
  intros H.
  assert (Hn : N_of_ascii c = N_of_ascii d).
  { unfold char_int in H.
    pose proof (char_code_range c) as Hc. pose proof (char_code_range d) as Hd.
    unfold char_code in *.
    destruct (Z.ltb_spec (Z.of_N (N_of_ascii c)) 128),
             (Z.ltb_spec (Z.of_N (N_of_ascii d)) 128); lia. }
  rewrite <- (ascii_N_embedding c), <- (ascii_N_embedding d). congruence.
Qed.

Lemma char_int_eqb c d : (c =? d)%char = (char_int c =? char_int d).
Proof.
  destruct (Ascii.eqb_spec c d) as [->|Hne].
  - symmetry. apply Z.eqb_refl.
  - symmetry. apply Z.eqb_neq. intros H. apply Hne, char_int_inj, H.
Qed.

(** ** Classification *)

Lemma isalnum_alpha c : isalpha c = true -> isalnum c = true.
Proof. unfold isalnum. intros ->. reflexivity. Qed.

Lemma isalnum_digit c : isdigit c = true -> isalnum c = true.
Proof. unfold isalnum. intros ->. apply orb_true_r. Qed.

Lemma isdigit_not_alpha c : isdigit c = true -> isalpha c = false.
Proof. unfold isdigit, isalpha. intros H. bool_lia. Qed.

Lemma isspace_not_alnum c : isspace c = true -> isalnum c = false.
Proof. unfold isspace, isalnum, isalpha, isdigit. intros H. bool_lia. Qed.

Lemma isspace_newline : isspace newline = true.
Proof. reflexivity. Qed.

(** ** Digits in a base *)

(** In base ten, the default of its second parameter,
    [isDigitInBase] is the library's [isdigit]. *)
Theorem isDigitInBase_10 c : isDigitInBase c 10 = isdigit c.
Proof.
  unfold isDigitInBase, isdigit. simpl.
  destruct (48 <=? char_int c); simpl; [|reflexivity].
  apply eq_true_iff_eq. rewrite Z.ltb_lt, Z.leb_le. lia.
Qed.

(** A positive digit is a digit other than ['0'], in every base. *)
Lemma isPositiveDigitInBase_spec c base :
  isPositiveDigitInBase c base = isDigitInBase c base && negb (c =? "0")%char.
Proof.
  rewrite char_int_eqb. change (char_int "0") with 48.
  unfold isPositiveDigitInBase, isDigitInBase, toupper.
  apply eq_true_iff_eq.
  destruct (base <=? 10);
    repeat first [rewrite andb_true_iff | rewrite orb_true_iff | rewrite negb_true_iff];
    rewrite ?Z.leb_le, ?Z.ltb_lt, ?Z.eqb_neq;
    destruct ((97 <=? char_int c) && (char_int c <=? 122)) eqn:E;
    rewrite ?Z.leb_le, ?Z.ltb_lt; bool_lia.
Qed.

Lemma isPositiveDigitInBase_digit c base :
  isPositiveDigitInBase c base = true -> isDigitInBase c base = true.
Proof. rewrite isPositiveDigitInBase_spec. intros H. bool_lia. assumption. Qed.

Lemma isPositiveDigitInBase_nonzero c base :
  isPositiveDigitInBase c base = true -> (c =? "0")%char = false.
Proof.
  rewrite isPositiveDigitInBase_spec. intros H. bool_lia.
  apply negb_true_iff. assumption.
Qed.

Lemma isDigitInBase_zero base : 0 < base -> isDigitInBase "0" base = true.
Proof.
  intros Hb. unfold isDigitInBase. change (char_int "0") with 48.
  destruct (base <=? 10); [|reflexivity].
  apply andb_true_iff. rewrite Z.leb_le, Z.ltb_lt. lia.
Qed.

(** C38. Whether [char] is signed or unsigned makes no difference to
    the digit test, for every base that the digits and letters can
    express: a character above 127 is a digit in neither reading. *)
Theorem isDigitInBase_signedness c base :
  base <= 36 -> isDigitInBase_unsigned c base = isDigitInBase c base.
Proof.
  intros Hb. unfold isDigitInBase_unsigned, isDigitInBase, toupper, char_int.
  fold (char_code c). pose proof (char_code_range c) as Hc.
  destruct (Z.ltb_spec (char_code c) 128) as [Hlt|Hge]; [reflexivity|].
  apply eq_true_iff_eq.
  destruct (base <=? 10);
    repeat first [rewrite andb_true_iff | rewrite orb_true_iff];
    repeat match goal with
      | |- context [ if ?b then _ else _ ] => destruct b eqn:?
      end;
    rewrite ?Z.leb_le, ?Z.ltb_lt; bool_lia.
Qed.

(** C37. [isPositiveDigitInBase] accepts exactly the digits of the base
    other than ['0'], in every base: the two tests differ in their lower
    bound only. *)
Theorem isPositiveDigitInBase_iff c base :
  isPositiveDigitInBase c base = true <->
  isDigitInBase c base = true /\ c <> "0"%char.
Proof.
  rewrite isPositiveDigitInBase_spec, andb_true_iff, negb_true_iff.
  by rewrite Ascii.eqb_neq.
Qed.

Lemma isDigitInBase_signedness_witness :
  isDigitInBase_unsigned "255" 16 = isDigitInBase "255" 16.
Proof. apply (isDigitInBase_signedness "255" 16). lia. Defined.
