(* ===== verification/Cursor.v ===== *)
(** * The character cursor

    lexer.cc reads its input through an [InputBuffer] (inputbuf.h, not part
    of the sources): single-character fetch, push-back of a character or of
    a whole string, and an end-of-input test.  This file holds

    - [Tape], the reference model of the contract: the characters still to
      be read, and whether a fetch has already hit the end of the stream;
    - the interface [Cursor]: an implementation is a type with the four
      operations and an abstraction function to [Tape] that commutes with
      them (a data refinement of the reference model);
    - [InputBuffer], the usual implementation: a push-back stack in front
      of the standard input stream, with the stream's end-of-file bit;
    - the equivalence "same tape" on an implementation's states, for which
      the operations are morphisms. *)

From Stdlib Require Import Ascii String ZArith Lia List Bool.
From stdpp Require Import base tactics list strings.
From S2P Require Import Prelude Chars.
Import ListNotations.

(** ** Reference model *)

Record Tape : Type := MkTape { pending : cstring; hit_eof : bool }.

(** A fetch at the end of the stream leaves the caller's variable as it
    was (as [istream::get(char&)] does) and records the failure. *)
Definition tape_GetChar (c : ascii) (t : Tape) : ascii * Tape :=
  match pending t with
  | x :: r => (x, MkTape r (hit_eof t))
  | [] => (c, MkTape [] true)
  end.

Definition tape_UngetChar (c : ascii) (t : Tape) : Tape :=
  MkTape (c :: pending t) (hit_eof t).

Definition tape_UngetString (s : cstring) (t : Tape) : Tape :=
  MkTape (s ++ pending t) (hit_eof t).

(** End of input: nothing is pending and a fetch has failed before. *)
Definition tape_EndOfInput (t : Tape) : bool :=
  match pending t with
  | [] => hit_eof t
  | _ :: _ => false
  end.

(** ** The interface *)

Class Cursor (B : Type) : Type := {
  GetChar : ascii -> B -> ascii * B;
  UngetChar : ascii -> B -> B;
  UngetString : cstring -> B -> B;
  EndOfInput : B -> bool;
  tape : B -> Tape;
  tape_of_GetChar : forall c b,
    (fst (GetChar c b), tape (snd (GetChar c b))) = tape_GetChar c (tape b);
  tape_of_UngetChar : forall c b,
    tape (UngetChar c b) = tape_UngetChar c (tape b);
  tape_of_UngetString : forall s b,
    tape (UngetString s b) = tape_UngetString s (tape b);
  tape_of_EndOfInput : forall b,
    EndOfInput b = tape_EndOfInput (tape b)
}.

(** Two states of an implementation are equivalent when they stand for the
    same tape. *)
#[export] Instance cursor_equiv {B : Type} `{!Cursor B} : Equiv B :=
  fun b1 b2 => tape b1 = tape b2.

(** ** The push-back buffer over the input stream *)

Module InputBuffer.

(** [input_buffer] is the vector of pushed-back characters, its back
    first; [cin] is what the stream still holds and [cin_eof] its
    end-of-file bit, set by the first fetch that finds the stream empty. *)
Record t : Type := Mk { input_buffer : cstring; cin : cstring; cin_eof : bool }.

Definition of_stream (s : cstring) : t := Mk [] s false.

Definition EndOfInput (b : t) : bool :=
  match input_buffer b with
  | _ :: _ => false
  | [] => cin_eof b
  end.

Definition UngetChar (c : ascii) (b : t) : t :=
  Mk (c :: input_buffer b) (cin b) (cin_eof b).

Definition GetChar (c : ascii) (b : t) : ascii * t :=
  match input_buffer b with
  | x :: r => (x, Mk r (cin b) (cin_eof b))
  | [] =>
      if cin_eof b then (c, b)
      else match cin b with
           | x :: r => (x, Mk [] r false)
           | [] => (c, Mk [] [] true)
           end
  end.

(** The string is pushed one character at a time, last character first. *)
Definition UngetString (s : cstring) (b : t) : t :=
  fold_left (fun b c => UngetChar c b) (rev s) b.

Definition tape (b : t) : Tape :=
  MkTape (input_buffer b ++ (if cin_eof b then [] else cin b)) (cin_eof b).

End InputBuffer.

(** ** The reference model: get and unget *)

Lemma Tape_eta t : MkTape (pending t) (hit_eof t) = t.
Proof. destruct t; reflexivity. Qed.

Lemma tape_GetChar_cons c x r e :
  tape_GetChar c (MkTape (x :: r) e) = (x, MkTape r e).
Proof. reflexivity. Qed.

Lemma tape_GetChar_nil c e :
  tape_GetChar c (MkTape [] e) = (c, MkTape [] true).
Proof. reflexivity. Qed.

(** Fetching what was just pushed back gives it back and restores the tape. *)
Lemma tape_GetChar_UngetChar c x t :
  tape_GetChar c (tape_UngetChar x t) = (x, t).
Proof. unfold tape_GetChar, tape_UngetChar. simpl. by rewrite Tape_eta. Qed.

(** Pushing back the character just fetched restores the tape. *)
Lemma tape_UngetChar_GetChar c t :
  pending t <> [] ->
  tape_UngetChar (fst (tape_GetChar c t)) (snd (tape_GetChar c t)) = t.
Proof. destruct t as [[|x r] e]; [done|reflexivity]. Qed.

Lemma tape_UngetString_nil t : tape_UngetString [] t = t.
Proof. apply Tape_eta. Qed.

Lemma tape_UngetString_cons c s t :
  tape_UngetString (c :: s) t = tape_UngetChar c (tape_UngetString s t).
Proof. reflexivity. Qed.

Lemma tape_UngetString_app s1 s2 t :
  tape_UngetString (s1 ++ s2) t = tape_UngetString s1 (tape_UngetString s2 t).
Proof. unfold tape_UngetString. simpl. by rewrite app_assoc. Qed.

Lemma tape_EndOfInput_UngetChar c t : tape_EndOfInput (tape_UngetChar c t) = false.
Proof. reflexivity. Qed.

Lemma tape_EndOfInput_cons x r e : tape_EndOfInput (MkTape (x :: r) e) = false.
Proof. reflexivity. Qed.

Lemma tape_EndOfInput_nil e : tape_EndOfInput (MkTape [] e) = e.
Proof. reflexivity. Qed.

(** The end-of-input test after a fetch is true exactly when the fetch
    emptied or found empty a tape whose stream has ended. *)
Lemma tape_EndOfInput_after_GetChar c t :
  tape_EndOfInput (snd (tape_GetChar c t)) =
  match pending t with
  | [] => true
  | [_] => hit_eof t
  | _ => false
  end.
Proof. destruct t as [[|x [|y r]] e]; reflexivity. Qed.

#[export] Hint Rewrite tape_GetChar_cons tape_GetChar_nil tape_GetChar_UngetChar
  tape_UngetString_nil tape_EndOfInput_cons tape_EndOfInput_nil : lexer.

(** ** The reference model is an implementation of the interface *)

#[export] Instance Tape_Cursor : Cursor Tape := {|
  GetChar := tape_GetChar;
  UngetChar := tape_UngetChar;
  UngetString := tape_UngetString;
  EndOfInput := tape_EndOfInput;
  tape := fun t => t;
  tape_of_GetChar := fun c b => eq_sym (surjective_pairing (tape_GetChar c b));
  tape_of_UngetChar := fun _ _ => eq_refl;
  tape_of_UngetString := fun _ _ => eq_refl;
  tape_of_EndOfInput := fun _ => eq_refl
|}.

(** ** The push-back buffer refines the reference model *)

Lemma InputBuffer_tape_GetChar c b :
  (fst (InputBuffer.GetChar c b), InputBuffer.tape (snd (InputBuffer.GetChar c b)))
  = tape_GetChar c (InputBuffer.tape b).
Proof.
  destruct b as [[|x r] [|y s] []]; reflexivity.
Qed.

Lemma InputBuffer_tape_UngetChar c b :
  InputBuffer.tape (InputBuffer.UngetChar c b) = tape_UngetChar c (InputBuffer.tape b).
Proof. reflexivity. Qed.

(** The character-by-character loop pushes the string in its order. *)
Lemma InputBuffer_UngetString_unfold s b :
  InputBuffer.UngetString s b =
  InputBuffer.Mk (s ++ InputBuffer.input_buffer b) (InputBuffer.cin b) (InputBuffer.cin_eof b).
Proof.
  unfold InputBuffer.UngetString. revert b.
  induction s as [|c s IH] using rev_ind; intros b.
  - by destruct b.
  - rewrite rev_app_distr. simpl. rewrite IH. simpl. by rewrite <- app_assoc.
Qed.

Lemma InputBuffer_tape_UngetString s b :
  InputBuffer.tape (InputBuffer.UngetString s b) = tape_UngetString s (InputBuffer.tape b).
Proof.
  rewrite InputBuffer_UngetString_unfold. unfold InputBuffer.tape, tape_UngetString.
  simpl. by rewrite app_assoc.
Qed.

Lemma InputBuffer_tape_EndOfInput b :
  InputBuffer.EndOfInput b = tape_EndOfInput (InputBuffer.tape b).
Proof. destruct b as [[|x r] [|y s] []]; reflexivity. Qed.

#[export] Instance InputBuffer_Cursor : Cursor InputBuffer.t := {|
  GetChar := InputBuffer.GetChar;
  UngetChar := InputBuffer.UngetChar;
  UngetString := InputBuffer.UngetString;
  EndOfInput := InputBuffer.EndOfInput;
  tape := InputBuffer.tape;
  tape_of_GetChar := InputBuffer_tape_GetChar;
  tape_of_UngetChar := InputBuffer_tape_UngetChar;
  tape_of_UngetString := InputBuffer_tape_UngetString;
  tape_of_EndOfInput := InputBuffer_tape_EndOfInput
|}.

Lemma InputBuffer_tape_of_stream s :
  InputBuffer.tape (InputBuffer.of_stream s) = MkTape s false.
Proof. reflexivity. Qed.

(** ** Every implementation: equivalence and morphisms *)

Section Laws.
Context {B : Type} `{!Cursor B}.
Implicit Types (b : B) (c x : ascii) (s : cstring).

#[export] Instance cursor_equivalence : Equivalence (≡@{B}).
Proof.
  unfold equiv, cursor_equiv. split.
  - by intros b.
  - by intros b1 b2.
  - intros b1 b2 b3. apply eq_trans.
Qed.

Lemma tape_fst_GetChar c b : fst (GetChar c b) = fst (tape_GetChar c (tape b)).
Proof. by rewrite <- tape_of_GetChar. Qed.

Lemma tape_snd_GetChar c b : tape (snd (GetChar c b)) = snd (tape_GetChar c (tape b)).
Proof. by rewrite <- tape_of_GetChar. Qed.

#[export] Instance tape_proper : Proper ((≡) ==> (=)) (tape (B:=B)).
Proof. by intros b1 b2. Qed.

#[export] Instance EndOfInput_proper : Proper ((≡) ==> (=)) (EndOfInput (B:=B)).
Proof. intros b1 b2 Hb. rewrite !tape_of_EndOfInput. by rewrite Hb. Qed.

#[export] Instance UngetChar_proper c : Proper ((≡) ==> (≡)) (UngetChar (B:=B) c).
Proof.
  intros b1 b2 Hb. unfold equiv, cursor_equiv in *.
  rewrite !tape_of_UngetChar. by rewrite Hb.
Qed.

#[export] Instance UngetString_proper s : Proper ((≡) ==> (≡)) (UngetString (B:=B) s).
Proof.
  intros b1 b2 Hb. unfold equiv, cursor_equiv in *.
  rewrite !tape_of_UngetString. by rewrite Hb.
Qed.

#[export] Instance GetChar_proper c :
  Proper ((≡) ==> prod_relation (=) (≡)) (GetChar (B:=B) c).
Proof.
  intros b1 b2 Hb. unfold equiv, cursor_equiv in *. split.
  - rewrite !tape_fst_GetChar. by rewrite Hb.
  - unfold equiv, cursor_equiv. rewrite !tape_snd_GetChar. by rewrite Hb.
Qed.

(** Fetching what was just pushed back. *)
Lemma GetChar_UngetChar c x b :
  fst (GetChar c (UngetChar x b)) = x /\ snd (GetChar c (UngetChar x b)) ≡ b.
Proof.
  unfold equiv, cursor_equiv.
  rewrite tape_fst_GetChar, tape_snd_GetChar, tape_of_UngetChar, tape_GetChar_UngetChar.
  done.
Qed.

(** Pushing back the character just fetched. *)
Lemma UngetChar_GetChar c b :
  pending (tape b) <> [] ->
  UngetChar (fst (GetChar c b)) (snd (GetChar c b)) ≡ b.
Proof.
  intros Hne. unfold equiv, cursor_equiv.
  rewrite tape_of_UngetChar, tape_fst_GetChar, tape_snd_GetChar.
  by apply tape_UngetChar_GetChar.
Qed.

(** A string is pushed back as its characters, last first. *)
Lemma UngetString_cons c s b : UngetString (c :: s) b ≡ UngetChar c (UngetString s b).
Proof.
  unfold equiv, cursor_equiv.
  by rewrite tape_of_UngetChar, !tape_of_UngetString.
Qed.

Lemma UngetString_nil b : UngetString [] b ≡ b.
Proof.
  unfold equiv, cursor_equiv. by rewrite tape_of_UngetString, tape_UngetString_nil.
Qed.

Lemma EndOfInput_UngetChar c b : EndOfInput (UngetChar c b) = false.
Proof. by rewrite tape_of_EndOfInput, tape_of_UngetChar. Qed.

End Laws.
