(* ===== verification/Token.v ===== *)
(** * Tokens and the tables of lexer.cc

    The token kinds in the order of the [reserved] name table (which
    [Token::Print] indexes by the kind's integer value), the keyword table
    with its two lookups, the number formats tried by [ScanNumber], and
    the printable form of a token. *)

From Stdlib Require Import Ascii String ZArith Lia List Bool DecimalString.
From stdpp Require Import base tactics list strings.
From S2P Require Import Prelude Chars.
Import ListNotations.

(** The enumeration [TokenType]; [IF_] is the kind [IF] (the bare name is
    reserved in Rocq). *)
Inductive TokenType : Type :=
  | END_OF_FILE
  | IF_ | WHILE | DO | THEN | PRINT
  | PLUS | MINUS | DIV | MULT
  | EQUAL | COLON | COMMA | SEMICOLON
  | LBRAC | RBRAC | LPAREN | RPAREN
  | NOTEQUAL | GREATER | LESS | LTEQ | GTEQ
  | DOT | NUM | ID | REALNUM | BASE08NUM | BASE16NUM | ERROR.

(** The kinds in declaration order: position = integer value. *)
Definition TokenType_values : list TokenType :=
  [ END_OF_FILE; IF_; WHILE; DO; THEN; PRINT; PLUS; MINUS; DIV; MULT;
    EQUAL; COLON; COMMA; SEMICOLON; LBRAC; RBRAC; LPAREN; RPAREN;
    NOTEQUAL; GREATER; LESS; LTEQ; GTEQ; DOT; NUM; ID; REALNUM;
    BASE08NUM; BASE16NUM; ERROR ].

(** [(int) t]. *)
Definition TokenType_to_nat (t : TokenType) : nat :=
  match t with
  | END_OF_FILE => 0
  | IF_ => 1 | WHILE => 2 | DO => 3 | THEN => 4 | PRINT => 5
  | PLUS => 6 | MINUS => 7 | DIV => 8 | MULT => 9
  | EQUAL => 10 | COLON => 11 | COMMA => 12 | SEMICOLON => 13
  | LBRAC => 14 | RBRAC => 15 | LPAREN => 16 | RPAREN => 17
  | NOTEQUAL => 18 | GREATER => 19 | LESS => 20 | LTEQ => 21 | GTEQ => 22
  | DOT => 23 | NUM => 24 | ID => 25 | REALNUM => 26
  | BASE08NUM => 27 | BASE16NUM => 28 | ERROR => 29
  end.

(** [(TokenType) n]; a value that names no enumerator is read as [ERROR]. *)
Definition TokenType_of_nat (n : nat) : TokenType :=
  nth n TokenType_values ERROR.

(** lexer.cc, lines 17-24. *)
Definition reserved : list cstring :=
  map chars
  [ "END_OF_FILE";
    "IF"; "WHILE"; "DO"; "THEN"; "PRINT";
    "PLUS"; "MINUS"; "DIV"; "MULT";
    "EQUAL"; "COLON"; "COMMA"; "SEMICOLON";
    "LBRAC"; "RBRAC"; "LPAREN"; "RPAREN";
    "NOTEQUAL"; "GREATER"; "LESS"; "LTEQ"; "GTEQ";
    "DOT"; "NUM"; "ID"; "REALNUM"; "BASE08NUM"; "BASE16NUM"; "ERROR" ]%string.

Definition KEYWORDS_COUNT : nat := 5.
Definition NUMTYPE_COUNT : nat := 3.

Definition keyword : list cstring :=
  map chars [ "IF"; "WHILE"; "DO"; "THEN"; "PRINT" ]%string.

Definition DOTSTRING : cstring := chars ".".
Definition BASE08STRING : cstring := chars "x08".
Definition BASE16STRING : cstring := chars "x16".
Definition EMPTYSTRING : cstring := chars "".

Record NumberType : Type := MkNumberType {
  validate_string : cstring;
  base : Z;
  tokenType : TokenType
}.

Definition numberTypes : list NumberType :=
  [ MkNumberType DOTSTRING 10 REALNUM;
    MkNumberType BASE08STRING 8 BASE08NUM;
    MkNumberType BASE16STRING 16 BASE16NUM ].

Record Token : Type := MkToken {
  lexeme : cstring;
  token_type : TokenType;
  line_no : Z
}.

(** [s == t] on strings, and [s.empty()]. *)
Definition string_eqb (s t : cstring) : bool := bool_decide (s = t).

Definition empty (s : cstring) : bool :=
  match s with
  | [] => true
  | _ :: _ => false
  end.

(** [operator<<] on an [int]: its decimal digits, with a sign if negative. *)
Definition show_int (z : Z) : cstring :=
  chars (NilZero.string_of_int (Z.to_int z)).

(** [Token::Print]: the line written to the standard output. *)
Definition Print (this : Token) : cstring :=
  chars "{" ++ lexeme this ++ chars " , "
  ++ nth (TokenType_to_nat (token_type this)) reserved EMPTYSTRING ++ chars " , "
  ++ show_int (line_no this) ++ chars "}" ++ [newline].

(** [IsKeyword]: the loop over the first [KEYWORDS_COUNT] entries. *)
Fixpoint IsKeyword_loop (s : cstring) (kws : list cstring) : bool :=
  match kws with
  | [] => false
  | k :: kws' => if string_eqb s k then true else IsKeyword_loop s kws'
  end.

Definition IsKeyword (s : cstring) : bool :=
  IsKeyword_loop s (take KEYWORDS_COUNT keyword).

(** [FindKeywordIndex]: the same loop, returning the kind [i + 1] of the
    entry found at index [i]. *)
Fixpoint FindKeywordIndex_loop (s : cstring) (i : nat) (kws : list cstring) : TokenType :=
  match kws with
  | [] => ERROR
  | k :: kws' =>
      if string_eqb s k then TokenType_of_nat (i + 1)
      else FindKeywordIndex_loop s (i + 1) kws'
  end.

Definition FindKeywordIndex (s : cstring) : TokenType :=
  FindKeywordIndex_loop s 0 (take KEYWORDS_COUNT keyword).

(** The kinds that are keywords. *)
Definition is_keyword_kind (t : TokenType) : bool :=
  match t with
  | IF_ | WHILE | DO | THEN | PRINT => true
  | _ => false
  end.

#[export] Instance TokenType_eq_dec : EqDecision TokenType.
Proof. solve_decision. Defined.

#[export] Instance Token_eq_dec : EqDecision Token.
Proof. solve_decision. Defined.

#[export] Instance NumberType_eq_dec : EqDecision NumberType.
Proof. solve_decision. Defined.

(** ** The enumeration *)

Lemma TokenType_of_to_nat t : TokenType_of_nat (TokenType_to_nat t) = t.
Proof. by destruct t. Qed.

Lemma TokenType_to_nat_bound t : TokenType_to_nat t < 30.
Proof. destruct t; simpl; lia. Qed.

Lemma TokenType_to_nat_inj t1 t2 :
  TokenType_to_nat t1 = TokenType_to_nat t2 -> t1 = t2.
Proof.
  intros H. rewrite <- (TokenType_of_to_nat t1), <- (TokenType_of_to_nat t2).
  by rewrite H.
Qed.

(** ** Strings *)

Lemma string_eqb_eq s t : string_eqb s t = true <-> s = t.
Proof. unfold string_eqb. apply bool_decide_eq_true. Qed.

Lemma string_eqb_refl s : string_eqb s s = true.
Proof. by apply string_eqb_eq. Qed.

Lemma string_eqb_neq s t : string_eqb s t = false <-> s <> t.
Proof. unfold string_eqb. apply bool_decide_eq_false. Qed.

Lemma empty_true s : empty s = true <-> s = [].
Proof. by destruct s. Qed.

Lemma empty_app_cons s c t : empty (s ++ c :: t) = false.
Proof. by destruct s. Qed.

(** ** The keyword table *)

Lemma IsKeyword_loop_In s kws : IsKeyword_loop s kws = true <-> s ∈ kws.
Proof.
  induction kws as [|k kws IH]; simpl.
  - split; [done|]. by intros ?%elem_of_nil.
  - rewrite elem_of_cons. destruct (string_eqb s k) eqn:E.
    + apply string_eqb_eq in E. tauto.
    + apply string_eqb_neq in E. rewrite IH. tauto.
Qed.

Lemma FindKeywordIndex_loop_ERROR s i kws :
  (forall j, i < j <= i + length kws -> TokenType_of_nat j <> ERROR) ->
  FindKeywordIndex_loop s i kws = ERROR <-> IsKeyword_loop s kws = false.
Proof.
  revert i. induction kws as [|k kws IH]; intros i Hj; simpl; [done|].
  destruct (string_eqb s k).
  - split; [|done]. intros H. exfalso. apply (Hj (i + 1)); [simpl; lia | done].
  - apply IH. intros j Hij. apply Hj. simpl. lia.
Qed.

(** ** Indices into the tables *)


(** The loops over [keyword] and [numberTypes] stay within the
    tables, and the kind [FindKeywordIndex] computes from the index of a
    keyword is a keyword kind. *)
Theorem table_counts :
  KEYWORDS_COUNT = length keyword /\ NUMTYPE_COUNT = length numberTypes /\
  forall i, i < KEYWORDS_COUNT -> is_keyword_kind (TokenType_of_nat (i + 1)) = true.
Proof.
  split_and!; [done..|]. intros i Hi. unfold KEYWORDS_COUNT in Hi.
  by do 5 (destruct i as [|i]; [done|]); lia.
Qed.
