(* ===== verification/Lexer.v ===== *)
(** * The lexical analyser: state and member functions of lexer.cc

    The class [LexicalAnalyzer] as a record and one definition per member
    function, in the state-and-fuel monad of the prelude, over any
    implementation [B] of the character cursor.  A local variable [char c]
    that the source declares without a value starts at the value the
    record [Uninit] gives for its function. *)

From Stdlib Require Import Ascii String ZArith Lia List Bool.
From stdpp Require Import base tactics list strings.
From S2P Require Import Prelude Chars Cursor Token.
Import ListNotations.
Local Open Scope Z_scope.
Local Open Scope comp_scope.

(** The indeterminate initial value of the local [char c] of each member
    function that declares one. *)
Record Uninit : Type := MkUninit {
  uc_SkipSpace : ascii;
  uc_verifyPatternMatch : ascii;
  uc_checkAndReturnNum : ascii;
  uc_matchToBase : ascii;
  uc_ScanIdOrKeyword : ascii;
  uc_GetToken : ascii
}.

(** Every such local starting at the null character. *)
Definition uninit_zero : Uninit :=
  MkUninit "000" "000" "000" "000" "000" "000".

(** The data members.  [tokens] is the vector of returned tokens, its back
    first; [input] is the cursor. *)
Record LexicalAnalyzer (B : Type) : Type := MkLexer {
  tokens : list Token;
  input : B;
  line_no : Z;
  tmp : Token
}.

Arguments MkLexer {B} _ _ _ _.
Arguments tokens {B} _.
Arguments input {B} _.
Arguments line_no {B} _.
Arguments tmp {B} _.

Definition set_tokens {B} (ts : list Token) (st : LexicalAnalyzer B) : LexicalAnalyzer B :=
  MkLexer ts (input st) (line_no st) (tmp st).

Definition set_input {B B'} (b : B') (st : LexicalAnalyzer B) : LexicalAnalyzer B' :=
  MkLexer (tokens st) b (line_no st) (tmp st).

Definition set_line_no {B} (l : Z) (st : LexicalAnalyzer B) : LexicalAnalyzer B :=
  MkLexer (tokens st) (input st) l (tmp st).

Definition set_tmp {B} (t : Token) (st : LexicalAnalyzer B) : LexicalAnalyzer B :=
  MkLexer (tokens st) (input st) (line_no st) t.

Definition set_lexeme (s : cstring) (t : Token) : Token :=
  MkToken s (token_type t) (Token.line_no t).

Definition set_token_type (k : TokenType) (t : Token) : Token :=
  MkToken (lexeme t) k (Token.line_no t).

Definition set_token_line_no (l : Z) (t : Token) : Token :=
  MkToken (lexeme t) (token_type t) l.

(** The constructor (lines 54-60), over a given cursor. *)
Definition new_LexicalAnalyzer {B} (b : B) : LexicalAnalyzer B :=
  MkLexer [] b 1 (MkToken EMPTYSTRING ERROR 1).

(** The analyser seen through the cursor's abstraction function. *)
Definition view {B} `{!Cursor B} (st : LexicalAnalyzer B) : LexicalAnalyzer Tape :=
  set_input (tape (input st)) st.

(** The cases of [GetToken]'s [switch] that only set the kind. *)
Definition switch_kind (c : ascii) : option TokenType :=
  if (c =? ".")%char then Some DOT
  else if (c =? "+")%char then Some PLUS
  else if (c =? "-")%char then Some MINUS
  else if (c =? "/")%char then Some DIV
  else if (c =? "*")%char then Some MULT
  else if (c =? "=")%char then Some EQUAL
  else if (c =? ":")%char then Some COLON
  else if (c =? ",")%char then Some COMMA
  else if (c =? ";")%char then Some SEMICOLON
  else if (c =? "[")%char then Some LBRAC
  else if (c =? "]")%char then Some RBRAC
  else if (c =? "(")%char then Some LPAREN
  else if (c =? ")")%char then Some RPAREN
  else None.

Section Analyzer.
Context {B : Type} `{!Cursor B}.
Variable u : Uninit.

Local Abbreviation Lex := (Comp (LexicalAnalyzer B)).

(** *** Access to the members *)

Definition input_GetChar (c : ascii) : Lex ascii :=
  fun st => Some (fst (GetChar c (input st)),
                  set_input (snd (GetChar c (input st))) st).

Definition input_UngetChar (c : ascii) : Lex unit :=
  modify (fun st => set_input (UngetChar c (input st)) st).

Definition input_UngetString (s : cstring) : Lex unit :=
  modify (fun st => set_input (UngetString s (input st)) st).

Definition input_EndOfInput : Lex bool :=
  gets (fun st => EndOfInput (input st)).

(** Fuel for a loop that fetches once per iteration: one more than the
    number of characters that can still be fetched. *)
Definition input_fuel : Lex nat :=
  gets (fun st => S (length (pending (tape (input st))))).

(** [line_no += b]. *)
Definition add_line_no (b : bool) : Lex unit :=
  modify (fun st => set_line_no (line_no st + (if b then 1 else 0)) st).

Definition tmp_lexeme_set (s : cstring) : Lex unit :=
  modify (fun st => set_tmp (set_lexeme s (tmp st)) st).

Definition tmp_lexeme_append (c : ascii) : Lex unit :=
  modify (fun st => set_tmp (set_lexeme (lexeme (tmp st) ++ [c]) (tmp st)) st).

Definition tmp_token_type_set (k : TokenType) : Lex unit :=
  modify (fun st => set_tmp (set_token_type k (tmp st)) st).

Definition tmp_line_no_set : Lex unit :=
  modify (fun st => set_tmp (set_token_line_no (line_no st) (tmp st)) st).

(** [if (!input.EndOfInput()) input.UngetChar(c);] *)
Definition unget_unless_end (c : ascii) : Lex unit :=
  eoi <- input_EndOfInput ;;
  when (negb eoi) (input_UngetChar c).

(** *** SkipSpace (lines 62-80) *)

Definition SkipSpace_cond (x : ascii * bool) : Lex bool :=
  eoi <- input_EndOfInput ;;
  ret (negb eoi && isspace (fst x)).

Definition SkipSpace_body (x : ascii * bool) : Lex (ascii * bool) :=
  c <- input_GetChar (fst x) ;;
  add_line_no (c =? newline)%char ;;
  ret (c, true).

Definition SkipSpace : Lex bool :=
  c <- input_GetChar (uc_SkipSpace u) ;;
  add_line_no (c =? newline)%char ;;
  n <- input_fuel ;;
  x <- while n SkipSpace_cond SkipSpace_body (c, false) ;;
  unget_unless_end (fst x) ;;
  ret (snd x).

(** *** verifyPatternMatch (lines 102-125)

    The [for] loop, from the index whose remaining pattern is [s]. *)
Fixpoint verifyPatternMatch_from (s : cstring) (c : ascii) (collected_chars : cstring)
    : Lex bool :=
  match s with
  | [] => ret true
  | expectedChar :: s' =>
      eoi <- input_EndOfInput ;;
      if eoi then
        input_UngetString collected_chars ;;
        ret false
      else
        c <- input_GetChar c ;;
        if negb (c =? expectedChar)%char then
          input_UngetString (collected_chars ++ [c]) ;;
          ret false
        else verifyPatternMatch_from s' c (collected_chars ++ [c])
  end.

Definition verifyPatternMatch (s : cstring) : Lex bool :=
  verifyPatternMatch_from s (uc_verifyPatternMatch u) [].

(** *** The digit loops

    [while (!input.EndOfInput() && P(c)) { scanned += c; input.GetChar(c); }]
    on the locals [(c, scanned)]. *)
Definition scan_cond (P : ascii -> bool) (x : ascii * cstring) : Lex bool :=
  eoi <- input_EndOfInput ;;
  ret (negb eoi && P (fst x)).

Definition scan_body (x : ascii * cstring) : Lex (ascii * cstring) :=
  c <- input_GetChar (fst x) ;;
  ret (c, snd x ++ [fst x]).

(** *** checkAndReturnNum (lines 172-196) *)

Definition checkAndReturnNum : Lex cstring :=
  c <- input_GetChar (uc_checkAndReturnNum u) ;;
  let scanned := EMPTYSTRING ++ [c] in
  if isdigit c then
    if (c =? "0")%char then ret scanned
    else
      c <- input_GetChar c ;;
      n <- input_fuel ;;
      x <- while n (scan_cond isdigit) scan_body (c, scanned) ;;
      unget_unless_end (fst x) ;;
      ret (snd x)
  else
    input_UngetString scanned ;;
    ret EMPTYSTRING.

(** *** matchToBase (lines 198-274) *)

(** The loop over the zeros after ["0."] (lines 216-225), on the locals
    [(c, scanned)] and whether the [return] inside it was taken. *)
Definition zeros_cond (x : ascii * cstring * bool) : Lex bool :=
  if snd x then ret false
  else
    eoi <- input_EndOfInput ;;
    ret (negb eoi && (fst (fst x) =? "0")%char).

Definition zeros_body (x : ascii * cstring * bool) : Lex (ascii * cstring * bool) :=
  let scanned := snd (fst x) ++ [fst (fst x)] in
  c <- input_GetChar (fst (fst x)) ;;
  if (c =? newline)%char then
    input_UngetString (scanned ++ [c]) ;;
    ret (c, scanned ++ [c], true)
  else ret (c, scanned, false).

(** The loop over the digits after the point (lines 260-264), on the
    locals [(c, scanned, after_dot_flag)]. *)
Definition after_dot_cond (base : Z) (x : ascii * cstring * bool) : Lex bool :=
  eoi <- input_EndOfInput ;;
  ret (negb eoi && isDigitInBase (fst (fst x)) base).

Definition after_dot_body (x : ascii * cstring * bool) : Lex (ascii * cstring * bool) :=
  c <- input_GetChar (fst (fst x)) ;;
  ret (c, snd (fst x) ++ [fst (fst x)], true).

Definition matchToBase (validate_string : cstring) (base : Z) : Lex cstring :=
  c <- input_GetChar (uc_matchToBase u) ;;
  let scanned := EMPTYSTRING ++ [c] in
  if (c =? "0")%char then
    ok <- verifyPatternMatch validate_string ;;
    if negb ok then
      input_UngetString scanned ;;
      ret EMPTYSTRING
    else
      let scanned := scanned ++ validate_string in
      if negb (string_eqb validate_string DOTSTRING) then ret scanned
      else
        c <- input_GetChar c ;;
        n <- input_fuel ;;
        x <- while n zeros_cond zeros_body (c, scanned, false) ;;
        if snd x then ret EMPTYSTRING
        else
          let c := fst (fst x) in
          let scanned := snd (fst x) in
          eoi <- input_EndOfInput ;;
          if negb eoi && isPositiveDigitInBase c base then
            n <- input_fuel ;;
            y <- while n (scan_cond (fun c => isDigitInBase c base)) scan_body (c, scanned) ;;
            unget_unless_end (fst y) ;;
            ret (snd y)
          else ret scanned
  else if isPositiveDigitInBase c base then
    c <- input_GetChar c ;;
    n <- input_fuel ;;
    x <- while n (scan_cond (fun c => isDigitInBase c base)) scan_body (c, scanned) ;;
    unget_unless_end (fst x) ;;
    let scanned := snd x in
    ok <- verifyPatternMatch validate_string ;;
    if negb ok then
      input_UngetString scanned ;;
      ret EMPTYSTRING
    else
      let scanned := scanned ++ validate_string in
      if negb (string_eqb validate_string DOTSTRING) then ret scanned
      else
        c <- input_GetChar (fst x) ;;
        n <- input_fuel ;;
        y <- while n (after_dot_cond base) after_dot_body (c, scanned, false) ;;
        unget_unless_end (fst (fst y)) ;;
        if snd y then ret (snd (fst y))
        else
          input_UngetString (snd (fst y)) ;;
          ret EMPTYSTRING
  else
    input_UngetString scanned ;;
    ret EMPTYSTRING.

(** *** ScanNumber (lines 144-170)

    The [for] loop over the number formats, from the index whose
    remaining formats are [nts]; [Some] is the token it returns. *)
Fixpoint ScanNumber_from (nts : list NumberType) : Lex (option Token) :=
  match nts with
  | [] => ret None
  | numberType :: nts' =>
      lexeme <- matchToBase (validate_string numberType) (base numberType) ;;
      if negb (empty lexeme) then
        tmp_lexeme_set lexeme ;;
        tmp_token_type_set (tokenType numberType) ;;
        t <- gets tmp ;;
        ret (Some t)
      else ScanNumber_from nts'
  end.

Definition ScanNumber : Lex Token :=
  tmp_lexeme_set EMPTYSTRING ;;
  tmp_token_type_set ERROR ;;
  tmp_line_no_set ;;
  r <- ScanNumber_from (take NUMTYPE_COUNT numberTypes) ;;
  match r with
  | Some t => ret t
  | None =>
      lexeme <- checkAndReturnNum ;;
      if negb (empty lexeme) then
        tmp_lexeme_set lexeme ;;
        tmp_token_type_set NUM ;;
        gets tmp
      else gets tmp
  end.

(** *** ScanIdOrKeyword (lines 276-303) *)

Definition ident_cond (c : ascii) : Lex bool :=
  eoi <- input_EndOfInput ;;
  ret (negb eoi && isalnum c).

Definition ident_body (c : ascii) : Lex ascii :=
  tmp_lexeme_append c ;;
  input_GetChar c.

Definition ScanIdOrKeyword : Lex Token :=
  c <- input_GetChar (uc_ScanIdOrKeyword u) ;;
  if isalpha c then
    tmp_lexeme_set EMPTYSTRING ;;
    n <- input_fuel ;;
    c <- while n ident_cond ident_body c ;;
    unget_unless_end c ;;
    tmp_line_no_set ;;
    s <- gets (fun st => lexeme (tmp st)) ;;
    (if IsKeyword s then tmp_token_type_set (FindKeywordIndex s)
     else tmp_token_type_set ID) ;;
    gets tmp
  else
    unget_unless_end c ;;
    tmp_lexeme_set EMPTYSTRING ;;
    tmp_token_type_set ERROR ;;
    gets tmp.

(** *** UngetToken (lines 305-309) *)

Definition UngetToken (tok : Token) : Lex TokenType :=
  modify (fun st => set_tokens (tok :: tokens st) st) ;;
  ret (token_type tok).

(** *** GetToken (lines 311-403) *)

Definition GetToken : Lex Token :=
  ts <- gets tokens ;;
  match ts with
  | t :: ts' =>
      modify (set_tmp t) ;;
      modify (set_tokens ts') ;;
      gets tmp
  | [] =>
      SkipSpace ;;
      tmp_lexeme_set EMPTYSTRING ;;
      tmp_line_no_set ;;
      c <- input_GetChar (uc_GetToken u) ;;
      match switch_kind c with
      | Some k =>
          tmp_token_type_set k ;;
          gets tmp
      | None =>
          if (c =? "<")%char then
            c <- input_GetChar c ;;
            (if (c =? "=")%char then tmp_token_type_set LTEQ
             else if (c =? ">")%char then tmp_token_type_set NOTEQUAL
             else
               unget_unless_end c ;;
               tmp_token_type_set LESS) ;;
            gets tmp
          else if (c =? ">")%char then
            c <- input_GetChar c ;;
            (if (c =? "=")%char then tmp_token_type_set GTEQ
             else
               unget_unless_end c ;;
               tmp_token_type_set GREATER) ;;
            gets tmp
          else if isdigit c then
            input_UngetChar c ;;
            ScanNumber
          else if isalpha c then
            input_UngetChar c ;;
            ScanIdOrKeyword
          else
            eoi <- input_EndOfInput ;;
            (if eoi then tmp_token_type_set END_OF_FILE
             else tmp_token_type_set ERROR) ;;
            gets tmp
      end
  end.

(** *** main (lines 405-417)

    The tokens are printed as they are read; the result is the list of
    lines written.  [n] bounds the number of turns of the loop. *)
Definition main_cond (x : Token * list cstring) : Lex bool :=
  ret (negb (bool_decide (token_type (fst x) = END_OF_FILE))).

Definition main_body (x : Token * list cstring) : Lex (Token * list cstring) :=
  token <- GetToken ;;
  ret (token, snd x ++ [Print token]).

Definition main_run (n : nat) : Lex (list cstring) :=
  token <- GetToken ;;
  x <- while n main_cond main_body (token, [Print token]) ;;
  ret (snd x).

End Analyzer.

Arguments SkipSpace : simpl never.
Arguments verifyPatternMatch : simpl never.
Arguments checkAndReturnNum : simpl never.
Arguments matchToBase : simpl never.
Arguments ScanNumber : simpl never.
Arguments ScanIdOrKeyword : simpl never.
Arguments UngetToken : simpl never.
Arguments GetToken : simpl never.
Arguments main_run : simpl never.

(** The program on a standard input [stdin]: what it writes, if [n] turns
    of the loop are enough. *)
Definition main (u : Uninit) (n : nat) (stdin : cstring) : option (list cstring) :=
  match main_run u n (new_LexicalAnalyzer (InputBuffer.of_stream stdin)) with
  | Some (out, _) => Some out
  | None => None
  end.

(** The tokens read by [k] successive calls of [GetToken]. *)
Fixpoint GetTokens {B} `{!Cursor B} (u : Uninit) (k : nat) : Comp (LexicalAnalyzer B) (list Token) :=
  match k with
  | O => ret []
  | S k' =>
      t <- GetToken u ;;
      ts <- GetTokens u k' ;;
      ret (t :: ts)
  end.

(** ** Running the definitions

    [lex_cbn] unfolds the monad, the member accessors and the operations
    of the reference tape, and nothing else: a computation applied to a
    state whose tape is known far enough runs up to the next test. *)
Ltac lex_cbn :=
  unfold view, set_tokens, set_input, set_line_no, set_tmp, set_lexeme,
    set_token_type, set_token_line_no in *;
  cbn [bind ret gets modify when out_of_fuel
       input_GetChar input_UngetChar input_UngetString input_EndOfInput input_fuel
       add_line_no tmp_lexeme_set tmp_lexeme_append tmp_token_type_set tmp_line_no_set
       unget_unless_end scan_cond scan_body SkipSpace_cond SkipSpace_body
       zeros_cond zeros_body after_dot_cond after_dot_body ident_cond ident_body
       main_cond main_body
       set_tokens set_input set_line_no set_tmp set_lexeme set_token_type
       set_token_line_no view
       tokens input line_no tmp lexeme token_type Token.line_no
       validate_string base tokenType
       GetChar UngetChar UngetString EndOfInput tape Tape_Cursor
       tape_GetChar tape_UngetChar tape_UngetString tape_EndOfInput pending hit_eof
       fst snd negb andb orb app length] in *.
