(* ===== verification/Invariants.v ===== *)
(** * What the member functions change, and what they keep

    A [frame] is a property of the analyser's state that no change of the
    cursor and no assignment to a field of [tmp] can break.  Every scanner
    keeps every frame: the token stack and the line counter are theirs to
    read only.  [SkipSpace] may only raise the line counter; [GetToken]
    pops at most one token and returns what it leaves in [tmp].  The
    states that a client can reach from a new analyser by [GetToken] and
    [UngetToken] form a step relation, with the line counter at least 1
    as an invariant. *)

From Stdlib Require Import Ascii String ZArith Lia List Bool.
From stdpp Require Import base tactics list strings relations.
From S2P Require Import Prelude Hoare Chars Cursor Token Lexer.
Import ListNotations.
Local Open Scope Z_scope.
Local Open Scope comp_scope.

(** A property that survives every change of the cursor. *)
Definition input_blind {B : Type} (I : LexicalAnalyzer B -> Prop) : Prop :=
  forall st b, I st -> I (set_input b st).

(** A property that survives every change of the cursor and every
    assignment the scanners make to [tmp]. *)
Record frame {B : Type} (I : LexicalAnalyzer B -> Prop) : Prop := MkFrame {
  frame_input : input_blind I;
  frame_lexeme : forall st s, I st -> I (set_tmp (set_lexeme s (tmp st)) st);
  frame_token_type : forall st k, I st -> I (set_tmp (set_token_type k (tmp st)) st);
  frame_line_no : forall st, I st -> I (set_tmp (set_token_line_no (line_no st) (tmp st)) st)
}.

(** A property that survives a rise of the line counter. *)
Definition rising {B : Type} (I : LexicalAnalyzer B -> Prop) : Prop :=
  forall st k, 0 <= k -> I st -> I (set_line_no (line_no st + k) st).

(** A step of a client of the analyser. *)
Inductive step {B : Type} `{!Cursor B} (u : Uninit) : relation (LexicalAnalyzer B) :=
  | step_GetToken st tok st' :
      GetToken u st = Some (tok, st') -> step u st st'
  | step_UngetToken st tok st' :
      UngetToken tok st = Some (token_type tok, st') -> step u st st'.

(** The states reached from a new analyser over the cursor [b]. *)
Definition reachable {B : Type} `{!Cursor B} (u : Uninit) (b : B)
    (st : LexicalAnalyzer B) : Prop :=
  rtc (step u) (new_LexicalAnalyzer b) st.

(** ** The frames used below *)

Lemma frame_tokens {B} (ts : list Token) : frame (fun st : LexicalAnalyzer B => tokens st = ts).
Proof. split; by repeat intro. Qed.

Lemma frame_line_eq {B} (l : Z) : frame (fun st : LexicalAnalyzer B => line_no st = l).
Proof. split; by repeat intro. Qed.

Lemma frame_line_le {B} (l : Z) : frame (fun st : LexicalAnalyzer B => l <= line_no st).
Proof. split; by repeat intro. Qed.

Lemma frame_token_line {B} :
  frame (fun st : LexicalAnalyzer B => Token.line_no (tmp st) = line_no st).
Proof. split; by repeat intro. Qed.

Lemma frame_and {B} (I J : LexicalAnalyzer B -> Prop) :
  frame I -> frame J -> frame (fun st => I st /\ J st).
Proof. intros [] []. split; repeat intro; destruct_and!; split; auto. Qed.

Lemma rising_tokens {B} (ts : list Token) : rising (fun st : LexicalAnalyzer B => tokens st = ts).
Proof. by intros st k. Qed.

Lemma rising_tmp {B} (tm : Token) : rising (fun st : LexicalAnalyzer B => tmp st = tm).
Proof. by intros st k. Qed.

Lemma rising_line_le {B} (l : Z) : rising (fun st : LexicalAnalyzer B => l <= line_no st).
Proof. intros st k Hk H. simpl. lia. Qed.

Lemma input_blind_tmp {B} (tm : Token) :
  input_blind (fun st : LexicalAnalyzer B => tmp st = tm).
Proof. by intros st b. Qed.

Lemma input_blind_and {B} (I J : LexicalAnalyzer B -> Prop) :
  input_blind I -> input_blind J -> input_blind (fun st => I st /\ J st).
Proof. intros HI HJ st b [? ?]. split; auto. Qed.

Lemma rising_and {B} (I J : LexicalAnalyzer B -> Prop) :
  rising I -> rising J -> rising (fun st => I st /\ J st).
Proof. intros HI HJ st k Hk [? ?]. split; auto. Qed.

#[export] Hint Resolve frame_input frame_tokens frame_line_eq frame_line_le
  frame_token_line frame_and rising_tokens rising_tmp rising_line_le rising_and
  input_blind_tmp input_blind_and : hoare.

(** ** The cursor and the line counter *)

Section Input.
Context {B : Type} `{!Cursor B}.
Variable u : Uninit.
Variable I : LexicalAnalyzer B -> Prop.
Hypothesis HI : input_blind I.

Lemma keeps_input_GetChar c : keeps I (input_GetChar c).
Proof. intros st a st' Hst [= <- <-]. by apply HI. Qed.

Lemma keeps_input_UngetChar c : keeps I (input_UngetChar c).
Proof. apply keeps_modify. intros st. by apply HI. Qed.

Lemma keeps_input_UngetString s : keeps I (input_UngetString s).
Proof. apply keeps_modify. intros st. by apply HI. Qed.

Hint Resolve keeps_input_GetChar keeps_input_UngetChar keeps_input_UngetString : hoare.

Lemma keeps_unget_unless_end c : keeps I (unget_unless_end c).
Proof. unfold unget_unless_end, input_EndOfInput. keeps_auto. Qed.

Hint Resolve keeps_unget_unless_end : hoare.

Lemma keeps_verifyPatternMatch_from s c collected :
  keeps I (verifyPatternMatch_from s c collected).
Proof.
  revert c collected. induction s as [|x s IH]; intros c collected;
    cbn [verifyPatternMatch_from]; unfold input_EndOfInput; keeps_auto.
Qed.

Hint Resolve keeps_verifyPatternMatch_from : hoare.

Lemma keeps_verifyPatternMatch s : keeps I (verifyPatternMatch u s).
Proof. unfold verifyPatternMatch. keeps_auto. Qed.

Hint Resolve keeps_verifyPatternMatch : hoare.

Lemma keeps_checkAndReturnNum : keeps I (checkAndReturnNum u).
Proof.
  unfold checkAndReturnNum, scan_cond, scan_body, input_EndOfInput, input_fuel.
  keeps_auto.
Qed.

Lemma keeps_matchToBase vs bs : keeps I (matchToBase u vs bs).
Proof.
  unfold matchToBase, scan_cond, scan_body, zeros_cond, zeros_body, after_dot_cond,
    after_dot_body, input_EndOfInput, input_fuel.
  keeps_auto.
Qed.

Lemma keeps_add_line_no b : rising I -> keeps I (add_line_no b).
Proof. intros Hr. apply keeps_modify. intros st. apply Hr. by destruct b. Qed.

(** [SkipSpace] keeps what survives a change of the cursor and a rise of
    the line counter. *)
Lemma keeps_SkipSpace : rising I -> keeps I (SkipSpace u).
Proof.
  intros Hr. pose proof (keeps_add_line_no) as Hadd.
  unfold SkipSpace, SkipSpace_cond, SkipSpace_body, input_EndOfInput, input_fuel.
  keeps_auto.
Qed.

End Input.

#[export] Hint Resolve keeps_input_GetChar keeps_input_UngetChar keeps_input_UngetString
  keeps_unget_unless_end keeps_verifyPatternMatch keeps_checkAndReturnNum
  keeps_matchToBase keeps_add_line_no keeps_SkipSpace : hoare.

(** ** The scanners keep every frame *)

Section Frames.
Context {B : Type} `{!Cursor B}.
Variable u : Uninit.
Variable I : LexicalAnalyzer B -> Prop.
Hypothesis HI : frame I.

Lemma keeps_tmp_lexeme_set s : keeps I (tmp_lexeme_set s).
Proof. apply keeps_modify. intros st. by apply frame_lexeme. Qed.

Lemma keeps_tmp_lexeme_append c : keeps I (tmp_lexeme_append c).
Proof. apply keeps_modify. intros st. by apply frame_lexeme. Qed.

Lemma keeps_tmp_token_type_set k : keeps I (tmp_token_type_set k).
Proof. apply keeps_modify. intros st. by apply frame_token_type. Qed.

Lemma keeps_tmp_line_no_set : keeps I tmp_line_no_set.
Proof. apply keeps_modify. intros st. by apply frame_line_no. Qed.

Hint Resolve keeps_tmp_lexeme_set keeps_tmp_lexeme_append keeps_tmp_token_type_set
  keeps_tmp_line_no_set : hoare.

Lemma keeps_ScanNumber_from nts : keeps I (ScanNumber_from u nts).
Proof. induction nts as [|nt nts IH]; cbn [ScanNumber_from]; keeps_auto. Qed.

Hint Resolve keeps_ScanNumber_from : hoare.

Lemma keeps_ScanNumber : keeps I (ScanNumber u).
Proof. unfold ScanNumber. keeps_auto. Qed.

Lemma keeps_ScanIdOrKeyword : keeps I (ScanIdOrKeyword u).
Proof.
  unfold ScanIdOrKeyword, ident_cond, ident_body, input_EndOfInput, input_fuel.
  keeps_auto.
Qed.

End Frames.

#[export] Hint Resolve keeps_tmp_lexeme_set keeps_tmp_lexeme_append
  keeps_tmp_token_type_set keeps_tmp_line_no_set keeps_ScanNumber_from keeps_ScanNumber
  keeps_ScanIdOrKeyword : hoare.

(** ** What is returned is what is left in [tmp] *)

Section Returns.
Context {B : Type} `{!Cursor B}.
Variable u : Uninit.
Implicit Types (st : LexicalAnalyzer B) (tok : Token).

(** The postcondition of the functions that return [tmp]. *)
Definition returns_tmp (m : Comp (LexicalAnalyzer B) Token) : Prop :=
  hoare (fun _ => True) m (fun tok st => tmp st = tok).

Lemma returns_tmp_gets : returns_tmp (gets tmp).
Proof. by apply hoare_gets. Qed.

Lemma returns_tmp_bind {A} (m : Comp (LexicalAnalyzer B) A) k :
  (forall a, returns_tmp (k a)) -> returns_tmp (bind m k).
Proof. intros Hk. by apply (hoare_bind _ m k (fun _ _ => True)). Qed.

Ltac returns_step :=
  lazymatch goal with
  | |- returns_tmp (bind _ _) => apply returns_tmp_bind; intros ?
  | |- returns_tmp (gets tmp) => apply returns_tmp_gets
  | |- returns_tmp (if ?b then _ else _) => destruct b
  | |- returns_tmp (match ?x with _ => _ end) => destruct x
  | |- returns_tmp _ => assumption
  end.

Lemma returns_tmp_ScanNumber_from nts :
  hoare (fun _ => True) (ScanNumber_from u nts)
    (fun r st => forall t, r = Some t -> tmp st = t).
Proof.
  induction nts as [|nt nts IH]; cbn [ScanNumber_from]; [by apply hoare_ret|].
  apply (hoare_bind _ _ _ (fun _ _ => True)); [done|]. intros lexeme.
  destruct (negb (empty lexeme)); [|exact IH].
  do 2 (apply (hoare_bind _ _ _ (fun _ _ => True)); [done|]; intros _).
  apply (hoare_bind _ _ _ (fun t st => tmp st = t)); [by apply hoare_gets|].
  intros t. apply hoare_ret. by intros st <- t' [= <-].
Qed.

Lemma returns_tmp_ScanNumber : returns_tmp (ScanNumber u).
Proof.
  unfold ScanNumber. do 3 (apply returns_tmp_bind; intros _).
  eapply hoare_bind; [apply returns_tmp_ScanNumber_from|]. intros [t|].
  - apply hoare_ret. intros st Ht. by apply Ht.
  - apply (hoare_conseq _ (fun _ => True) _ _ (fun tok st => tmp st = tok)); [|done..].
    apply returns_tmp_bind. intros lexeme.
    destruct (negb (empty lexeme)); [do 2 (apply returns_tmp_bind; intros _)|];
      apply returns_tmp_gets.
Qed.

Lemma returns_tmp_ScanIdOrKeyword : returns_tmp (ScanIdOrKeyword u).
Proof. unfold ScanIdOrKeyword. repeat returns_step. Qed.

Lemma returns_tmp_GetToken : returns_tmp (GetToken u).
Proof.
  pose proof returns_tmp_ScanNumber. pose proof returns_tmp_ScanIdOrKeyword.
  unfold GetToken. repeat returns_step.
Qed.

End Returns.

(** ** The member functions, one by one *)

Section Members.
Context {B : Type} `{!Cursor B}.
Variable u : Uninit.
Implicit Types (st : LexicalAnalyzer B) (tok : Token).

(** The line of [tmp] is the current line from the third statement of
    [ScanNumber] on. *)
Lemma ScanNumber_token_line :
  hoare (fun _ => True) (ScanNumber u)
    (fun _ st => Token.line_no (tmp st) = line_no st).
Proof.
  unfold ScanNumber.
  do 2 (apply (hoare_bind _ _ _ (fun _ _ => True)); [done|]; intros _).
  apply (hoare_bind _ _ _ (fun _ st => Token.line_no (tmp st) = line_no st));
    [by apply hoare_modify|]; intros _.
  as_keeps. pose proof (frame_token_line (B:=B)). keeps_auto.
Qed.

(** C29. [ScanNumber] changes nothing but the cursor and [tmp]: the token
    stack and the line counter are as before; the token returned is the
    one left in [tmp], and its line is the current line. *)
Theorem ScanNumber_frame st tok st' :
  ScanNumber u st = Some (tok, st') ->
  tokens st' = tokens st /\ line_no st' = line_no st /\ tmp st' = tok
  /\ Token.line_no tok = line_no st.
Proof.
  intros H.
  pose proof (keeps_run _ _ _ _ _ (keeps_ScanNumber u _ (frame_tokens (tokens st))) eq_refl H).
  pose proof (keeps_run _ _ _ _ _ (keeps_ScanNumber u _ (frame_line_eq (line_no st))) eq_refl H)
    as Hl.
  pose proof (returns_tmp_ScanNumber u _ _ _ I H) as Ht.
  pose proof (ScanNumber_token_line _ _ _ I H) as Hk. simpl in Ht, Hk.
  split_and!; try done. by rewrite <- Ht, Hk.
Qed.

(** C31. [ScanIdOrKeyword] changes nothing but the cursor and [tmp], and
    returns the token left in [tmp]. *)
Theorem ScanIdOrKeyword_frame st tok st' :
  ScanIdOrKeyword u st = Some (tok, st') ->
  tokens st' = tokens st /\ line_no st' = line_no st /\ tmp st' = tok.
Proof.
  intros H.
  pose proof (keeps_run _ _ _ _ _
                (keeps_ScanIdOrKeyword u _ (frame_tokens (tokens st))) eq_refl H).
  pose proof (keeps_run _ _ _ _ _
                (keeps_ScanIdOrKeyword u _ (frame_line_eq (line_no st))) eq_refl H).
  by pose proof (returns_tmp_ScanIdOrKeyword u _ _ _ I H).
Qed.

(** C30. [matchToBase] changes nothing but the cursor: the token stack,
    the line counter and [tmp] are as before, whether the format matched
    or not. *)
Theorem matchToBase_frame vs bs st lex st' :
  matchToBase u vs bs st = Some (lex, st') ->
  tokens st' = tokens st /\ line_no st' = line_no st /\ tmp st' = tmp st.
Proof.
  intros H.
  assert (Hk : keeps (fun s : LexicalAnalyzer B =>
                        tokens s = tokens st /\ line_no s = line_no st /\ tmp s = tmp st)
                 (matchToBase u vs bs))
    by (apply keeps_matchToBase; by intros ? ? (? & ? & ?)).
  by apply (keeps_run _ _ st lex st' Hk).
Qed.

(** [SkipSpace] changes nothing but the cursor and the line counter,
    which it never lowers. *)
Theorem SkipSpace_frame st sp st' :
  SkipSpace u st = Some (sp, st') ->
  tokens st' = tokens st /\ tmp st' = tmp st /\ line_no st <= line_no st'.
Proof.
  intros H.
  assert (Hk : keeps (fun s : LexicalAnalyzer B =>
                        (tokens s = tokens st /\ tmp s = tmp st) /\ line_no st <= line_no s)
                 (SkipSpace u)) by (apply keeps_SkipSpace; eauto 6 with hoare).
  destruct (keeps_run _ _ _ _ _ Hk ltac:(split_and!; (done || lia)) H) as [[? ?] ?].
  done.
Qed.

End Members.

(** ** GetToken and the client's steps *)

Section Client.
Context {B : Type} `{!Cursor B}.
Variable u : Uninit.
Implicit Types (st : LexicalAnalyzer B) (tok : Token).

(** [GetToken] keeps a frame that survives a rise of the line counter, a
    new [tmp] and a new token stack. *)
Lemma keeps_GetToken (I : LexicalAnalyzer B -> Prop) :
  frame I -> rising I -> (forall st t, I st -> I (set_tmp t st)) ->
  (forall st ts, I st -> I (set_tokens ts st)) -> keeps I (GetToken u).
Proof.
  intros HI Hr Ht Hs. unfold GetToken, input_EndOfInput.
  keeps_auto; apply keeps_modify; auto.
Qed.

(** A fresh scan leaves the token stack empty. *)
Lemma GetToken_fresh_tokens st tok st' :
  tokens st = [] -> GetToken u st = Some (tok, st') -> tokens st' = [].
Proof.
  intros E H. unfold GetToken in H. rewrite bind_gets, E in H.
  refine (keeps_run (fun s => tokens s = []) _ st tok st' _ E H).
  pose proof (frame_tokens (B:=B) []). pose proof (rising_tokens (B:=B) []).
  unfold input_EndOfInput. keeps_auto.
Qed.

(** The token of a fresh scan carries the line reached after the white
    space. *)
Lemma GetToken_fresh_line st tok st' :
  tokens st = [] -> GetToken u st = Some (tok, st') ->
  Token.line_no (tmp st') = line_no st'.
Proof.
  intros E H. unfold GetToken in H. rewrite bind_gets, E in H.
  refine (hoare_run (fun _ => True) _ (fun _ s => Token.line_no (tmp s) = line_no s)
            st tok st' _ I H).
  do 2 (apply hoare_skip; intros _).
  apply (hoare_bind _ _ _ (fun _ s => Token.line_no (tmp s) = line_no s));
    [by apply hoare_modify|]; intros _.
  as_keeps. pose proof (frame_token_line (B:=B)). unfold input_EndOfInput. keeps_auto.
Qed.

(** C9. [GetToken] returns the token it leaves in [tmp], removes at most
    the top of the token stack, and never lowers the line counter; when
    the stack was empty the token carries the line counter reached. *)
Theorem GetToken_frame st tok st' :
  GetToken u st = Some (tok, st') ->
  tmp st' = tok /\ tokens st' = tail (tokens st) /\ line_no st <= line_no st'
  /\ (tokens st = [] -> Token.line_no tok = line_no st').
Proof.
  intros H. pose proof (returns_tmp_GetToken u _ _ _ I H) as Ht. simpl in Ht.
  assert (Hl : line_no st <= line_no st').
  { refine (keeps_run (fun s => line_no st <= line_no s) _ st tok st' _ _ H); [|lia].
    apply keeps_GetToken; auto with hoare. }
  split_and!; [done| |done|].
  - destruct (tokens st) as [|t ts] eqn:E; [by eapply GetToken_fresh_tokens|].
    destruct st as [ts0 b l tm]. simpl in E. subst ts0. by injection H as _ <-.
  - intros E. rewrite <- Ht. by eapply GetToken_fresh_line.
Qed.

(** C32. In every state that a client reaches from a new analyser by
    calls of [GetToken] and [UngetToken], the line counter is at least 1. *)
Theorem reachable_line_no b st : reachable u b st -> 1 <= line_no st.
Proof.
  unfold reachable. revert st. apply rtc_ind_r; [done|]. intros st1 st2 _ Hs IH.
  destruct Hs as [st1 tok st2 Hg|st1 tok st2 [= <-]]; [|done].
  refine (keeps_run (fun s => 1 <= line_no s) _ st1 tok st2 _ IH Hg).
  apply keeps_GetToken; auto with hoare.
Qed.

End Client.

(** ** The theorems at work *)

Lemma ScanNumber_frame_witness :
  tokens (MkLexer [MkToken (chars "y") ID 2]
            (InputBuffer.Mk (chars ";") [newline] false) 5 (MkToken (chars "42") NUM 5))
  = tokens (MkLexer [MkToken (chars "y") ID 2]
              (InputBuffer.of_stream (chars "42;" ++ [newline])) 5 (MkToken (chars "y") ID 2))
  /\ line_no (MkLexer [MkToken (chars "y") ID 2]
                (InputBuffer.Mk (chars ";") [newline] false) 5 (MkToken (chars "42") NUM 5))
     = line_no (MkLexer [MkToken (chars "y") ID 2]
                  (InputBuffer.of_stream (chars "42;" ++ [newline])) 5
                  (MkToken (chars "y") ID 2))
  /\ tmp (MkLexer [MkToken (chars "y") ID 2]
            (InputBuffer.Mk (chars ";") [newline] false) 5 (MkToken (chars "42") NUM 5))
     = MkToken (chars "42") NUM 5
  /\ Token.line_no (MkToken (chars "42") NUM 5)
     = line_no (MkLexer [MkToken (chars "y") ID 2]
                  (InputBuffer.of_stream (chars "42;" ++ [newline])) 5
                  (MkToken (chars "y") ID 2)).
Proof. apply (ScanNumber_frame uninit_zero). vm_compute. reflexivity. Defined.

Lemma ScanIdOrKeyword_frame_witness :
  tokens (MkLexer [MkToken (chars "y") ID 2]
            (InputBuffer.Mk (chars ";") [newline] false) 5 (MkToken (chars "DO") DO 5))
  = tokens (MkLexer [MkToken (chars "y") ID 2]
              (InputBuffer.of_stream (chars "DO;" ++ [newline])) 5 (MkToken (chars "y") ID 2))
  /\ line_no (MkLexer [MkToken (chars "y") ID 2]
                (InputBuffer.Mk (chars ";") [newline] false) 5 (MkToken (chars "DO") DO 5))
     = line_no (MkLexer [MkToken (chars "y") ID 2]
                  (InputBuffer.of_stream (chars "DO;" ++ [newline])) 5
                  (MkToken (chars "y") ID 2))
  /\ tmp (MkLexer [MkToken (chars "y") ID 2]
            (InputBuffer.Mk (chars ";") [newline] false) 5 (MkToken (chars "DO") DO 5))
     = MkToken (chars "DO") DO 5.
Proof. apply (ScanIdOrKeyword_frame uninit_zero). vm_compute. reflexivity. Defined.

Lemma matchToBase_frame_witness :
  tokens (MkLexer [MkToken (chars "y") ID 2]
            (InputBuffer.Mk (chars "42;") [newline] false) 5 (MkToken (chars "y") ID 2))
  = tokens (MkLexer [MkToken (chars "y") ID 2]
              (InputBuffer.of_stream (chars "42;" ++ [newline])) 5 (MkToken (chars "y") ID 2))
  /\ line_no (MkLexer [MkToken (chars "y") ID 2]
                (InputBuffer.Mk (chars "42;") [newline] false) 5 (MkToken (chars "y") ID 2))
     = line_no (MkLexer [MkToken (chars "y") ID 2]
                  (InputBuffer.of_stream (chars "42;" ++ [newline])) 5
                  (MkToken (chars "y") ID 2))
  /\ tmp (MkLexer [MkToken (chars "y") ID 2]
            (InputBuffer.Mk (chars "42;") [newline] false) 5 (MkToken (chars "y") ID 2))
     = tmp (MkLexer [MkToken (chars "y") ID 2]
              (InputBuffer.of_stream (chars "42;" ++ [newline])) 5 (MkToken (chars "y") ID 2)).
Proof.
  apply (matchToBase_frame uninit_zero BASE16STRING 16 _ EMPTYSTRING). vm_compute.
  reflexivity.
Defined.

Lemma SkipSpace_frame_witness :
  tokens (MkLexer [MkToken (chars "y") ID 2]
            (InputBuffer.Mk (chars "4") (chars "2") false) 6 (MkToken (chars "y") ID 2))
  = tokens (MkLexer [MkToken (chars "y") ID 2]
              (InputBuffer.of_stream ([newline] ++ chars " 42")) 5 (MkToken (chars "y") ID 2))
  /\ tmp (MkLexer [MkToken (chars "y") ID 2]
            (InputBuffer.Mk (chars "4") (chars "2") false) 6 (MkToken (chars "y") ID 2))
     = tmp (MkLexer [MkToken (chars "y") ID 2]
              (InputBuffer.of_stream ([newline] ++ chars " 42")) 5 (MkToken (chars "y") ID 2))
  /\ line_no (MkLexer [MkToken (chars "y") ID 2]
                (InputBuffer.of_stream ([newline] ++ chars " 42")) 5
                (MkToken (chars "y") ID 2))
     <= line_no (MkLexer [MkToken (chars "y") ID 2]
                   (InputBuffer.Mk (chars "4") (chars "2") false) 6
                   (MkToken (chars "y") ID 2)).
Proof. apply (SkipSpace_frame uninit_zero _ true). vm_compute. reflexivity. Defined.

Lemma GetToken_frame_witness :
  tmp (MkLexer [] (InputBuffer.Mk (chars ";") [] false) 6 (MkToken (chars "42") NUM 6))
  = MkToken (chars "42") NUM 6
  /\ tokens (MkLexer [] (InputBuffer.Mk (chars ";") [] false) 6 (MkToken (chars "42") NUM 6))
     = tail (tokens (MkLexer [] (InputBuffer.of_stream ([newline] ++ chars " 42;")) 5
                       (MkToken (chars "y") ID 2)))
  /\ line_no (MkLexer [] (InputBuffer.of_stream ([newline] ++ chars " 42;")) 5
                (MkToken (chars "y") ID 2))
     <= line_no (MkLexer [] (InputBuffer.Mk (chars ";") [] false) 6
                   (MkToken (chars "42") NUM 6))
  /\ (tokens (MkLexer [] (InputBuffer.of_stream ([newline] ++ chars " 42;")) 5
                (MkToken (chars "y") ID 2)) = [] ->
      Token.line_no (MkToken (chars "42") NUM 6)
      = line_no (MkLexer [] (InputBuffer.Mk (chars ";") [] false) 6
                   (MkToken (chars "42") NUM 6))).
Proof. apply (GetToken_frame uninit_zero). vm_compute. reflexivity. Defined.

Lemma reachable_line_no_witness :
  1 <= line_no (MkLexer [] (InputBuffer.Mk (chars ";") [] false) 2
                  (MkToken (chars "42") NUM 2)).
Proof.
  apply (reachable_line_no uninit_zero (InputBuffer.of_stream ([newline] ++ chars " 42;"))).
  apply rtc_once. apply (step_GetToken _ _ (MkToken (chars "42") NUM 2)).
  vm_compute. reflexivity.
Defined.
