(* ===== verification/Sim.v ===== *)
(** * Representation independence

    Every member function, run over an implementation [B] of the cursor,
    is simulated by the same function run over the reference tape: they
    return the same value (or both run out of fuel) and the final states
    have the same view.  Hence what is proved of the analyser on the
    reference tape holds over every implementation, the push-back buffer
    of the program included; and equivalent starting states give equal
    results and equivalent final states. *)

From Stdlib Require Import Ascii String ZArith Lia List Bool.
From stdpp Require Import base tactics list strings.
From S2P Require Import Prelude Chars Cursor Token Lexer.
Import ListNotations.
Local Open Scope comp_scope.

(** [m] run from [st] returns [a] and ends in a state whose view is [t]. *)
Definition yields {B A} `{!Cursor B} (m : Comp (LexicalAnalyzer B) A)
    (st : LexicalAnalyzer B) (a : A) (t : LexicalAnalyzer Tape) : Prop :=
  exists st', m st = Some (a, st') /\ view st' = t.

(** A computation always returns. *)
Definition total {S A} (m : Comp S A) : Prop :=
  forall s, is_Some (m s).

(** Equivalent analyser states: the same members, over equivalent cursors. *)
#[export] Instance analyzer_equiv {B} `{!Cursor B} : Equiv (LexicalAnalyzer B) :=
  fun st1 st2 => view st1 = view st2.

(** Results of a computation, up to equivalence of the final state. *)
Definition result_equiv {B A} `{!Cursor B} : relation (option (A * LexicalAnalyzer B)) :=
  fun r1 r2 => lift_view view r1 = lift_view view r2.

Ltac sim_step :=
  cbv beta;
  lazymatch goal with
  | |- sim _ (bind _ _) _ => apply sim_bind; [|intros ?]
  | |- sim _ (ret _) _ => apply sim_ret
  | |- sim _ out_of_fuel _ => apply sim_out_of_fuel
  | |- sim _ (while _ _ _ _) _ => apply sim_while; intros ?
  | |- sim _ (when _ _) _ => apply sim_when
  | |- sim _ (gets _) _ => apply sim_gets; intros ?; reflexivity
  | |- sim _ (modify _) _ => apply sim_modify; intros ?; reflexivity
  | |- sim _ (if ?b then _ else _) _ => destruct b
  | |- sim _ (match ?x with _ => _ end) _ => destruct x
  | |- sim _ (let _ := _ in _) _ => cbv zeta
  | |- _ => solve [eauto with lexer]
  end.

Ltac sim_auto := repeat sim_step.

Section Simulation.
Context {B : Type} `{!Cursor B}.
Variable u : Uninit.
Implicit Types (st : LexicalAnalyzer B) (c : ascii) (s : cstring).

Lemma view_Tape (t : LexicalAnalyzer Tape) : view t = t.
Proof. by destruct t. Qed.

(** *** The members' accessors *)

Lemma sim_input_GetChar c : sim view (input_GetChar (B:=B) c) (input_GetChar c).
Proof.
  intros [ts b l tm]. unfold input_GetChar, lift_view. lex_cbn.
  by rewrite tape_fst_GetChar, tape_snd_GetChar.
Qed.

Lemma sim_input_UngetChar c : sim view (input_UngetChar (B:=B) c) (input_UngetChar c).
Proof.
  apply sim_modify. intros [ts b l tm]. lex_cbn. by rewrite tape_of_UngetChar.
Qed.

Lemma sim_input_UngetString s : sim view (input_UngetString (B:=B) s) (input_UngetString s).
Proof.
  apply sim_modify. intros [ts b l tm]. lex_cbn. by rewrite tape_of_UngetString.
Qed.

Lemma sim_input_EndOfInput : sim view (input_EndOfInput (B:=B)) input_EndOfInput.
Proof. apply sim_gets. intros [ts b l tm]. simpl. apply tape_of_EndOfInput. Qed.

Lemma sim_input_fuel : sim view (input_fuel (B:=B)) input_fuel.
Proof. by apply sim_gets. Qed.

Lemma sim_add_line_no b : sim view (add_line_no (B:=B) b) (add_line_no b).
Proof. by apply sim_modify. Qed.

Lemma sim_tmp_lexeme_set s : sim view (tmp_lexeme_set (B:=B) s) (tmp_lexeme_set s).
Proof. by apply sim_modify. Qed.

Lemma sim_tmp_lexeme_append c : sim view (tmp_lexeme_append (B:=B) c) (tmp_lexeme_append c).
Proof. by apply sim_modify. Qed.

Lemma sim_tmp_token_type_set k : sim view (tmp_token_type_set (B:=B) k) (tmp_token_type_set k).
Proof. by apply sim_modify. Qed.

Lemma sim_tmp_line_no_set : sim view (tmp_line_no_set (B:=B)) tmp_line_no_set.
Proof. by apply sim_modify. Qed.

Hint Resolve sim_input_GetChar sim_input_UngetChar sim_input_UngetString
  sim_input_EndOfInput sim_input_fuel sim_add_line_no sim_tmp_lexeme_set
  sim_tmp_lexeme_append sim_tmp_token_type_set sim_tmp_line_no_set : lexer.

Lemma sim_unget_unless_end c : sim view (unget_unless_end (B:=B) c) (unget_unless_end c).
Proof. unfold unget_unless_end. sim_auto. Qed.

Hint Resolve sim_unget_unless_end : lexer.

(** *** The member functions *)

Lemma sim_SkipSpace : sim view (SkipSpace (B:=B) u) (SkipSpace u).
Proof. unfold SkipSpace, SkipSpace_cond, SkipSpace_body. sim_auto. Qed.

Lemma sim_verifyPatternMatch_from s c collected :
  sim view (verifyPatternMatch_from (B:=B) s c collected)
           (verifyPatternMatch_from s c collected).
Proof.
  revert c collected. induction s as [|x s IH]; intros c collected;
    cbn [verifyPatternMatch_from]; sim_auto.
Qed.

Lemma sim_verifyPatternMatch s :
  sim view (verifyPatternMatch (B:=B) u s) (verifyPatternMatch u s).
Proof. apply sim_verifyPatternMatch_from. Qed.

Hint Resolve sim_verifyPatternMatch : lexer.

Lemma sim_checkAndReturnNum :
  sim view (checkAndReturnNum (B:=B) u) (checkAndReturnNum u).
Proof. unfold checkAndReturnNum, scan_cond, scan_body. sim_auto. Qed.

Lemma sim_matchToBase vs base :
  sim view (matchToBase (B:=B) u vs base) (matchToBase u vs base).
Proof.
  unfold matchToBase, scan_cond, scan_body, zeros_cond, zeros_body,
    after_dot_cond, after_dot_body.
  sim_auto.
Qed.

Hint Resolve sim_checkAndReturnNum sim_matchToBase : lexer.

Lemma sim_ScanNumber_from nts :
  sim view (ScanNumber_from (B:=B) u nts) (ScanNumber_from u nts).
Proof. induction nts as [|nt nts IH]; cbn [ScanNumber_from]; sim_auto. Qed.

Hint Resolve sim_ScanNumber_from : lexer.

Lemma sim_ScanNumber : sim view (ScanNumber (B:=B) u) (ScanNumber u).
Proof. unfold ScanNumber. sim_auto. Qed.

Lemma sim_ScanIdOrKeyword : sim view (ScanIdOrKeyword (B:=B) u) (ScanIdOrKeyword u).
Proof. unfold ScanIdOrKeyword, ident_cond, ident_body. sim_auto. Qed.

Lemma sim_UngetToken tok : sim view (UngetToken (B:=B) tok) (UngetToken tok).
Proof. unfold UngetToken. sim_auto. Qed.

Hint Resolve sim_SkipSpace sim_ScanNumber sim_ScanIdOrKeyword : lexer.

Lemma sim_GetToken : sim view (GetToken (B:=B) u) (GetToken u).
Proof.
  unfold GetToken. apply sim_bind; [by apply sim_gets|]. intros [|t ts]; sim_auto.
Qed.

Hint Resolve sim_GetToken : lexer.

Lemma sim_GetTokens k : sim view (GetTokens (B:=B) u k) (GetTokens u k).
Proof. induction k as [|k IH]; cbn [GetTokens]; sim_auto. Qed.

Lemma sim_main_run n : sim view (main_run (B:=B) u n) (main_run u n).
Proof. unfold main_run, main_cond, main_body. sim_auto. Qed.

(** *** Transfer *)

Lemma sim_yields {A} (m : Comp (LexicalAnalyzer B) A) m' st a t :
  sim view m m' -> m' (view st) = Some (a, t) -> yields m st a t.
Proof. intros Hm Hr. exact (sim_run view m m' st a t Hm Hr). Qed.

(** The same, from the members of the state and the tape of its cursor. *)
Lemma yields_tape {A} (m : Comp (LexicalAnalyzer B) A) m' (b : B) ts l tm t a r :
  sim view m m' -> tape b = t -> m' (MkLexer ts t l tm) = Some (a, r) ->
  yields m (MkLexer ts b l tm) a r.
Proof. intros Hm <- Hr. by apply (sim_yields m m'). Qed.

Lemma sim_total {A} (m : Comp (LexicalAnalyzer B) A) m' :
  sim view m m' -> total m' -> total m.
Proof.
  intros Hm Ht st. specialize (Hm st). destruct (Ht (view st)) as [r Hr].
  rewrite Hr in Hm. destruct (m st); [eauto | discriminate].
Qed.

Lemma sim_proper {A} (m : Comp (LexicalAnalyzer B) A) m' :
  sim view m m' -> Proper ((≡) ==> result_equiv) m.
Proof.
  intros Hm st1 st2 Hst. unfold result_equiv.
  rewrite !Hm. unfold equiv, analyzer_equiv in Hst. by rewrite Hst.
Qed.

#[export] Instance analyzer_equivalence : Equivalence (≡@{LexicalAnalyzer B}).
Proof.
  unfold equiv, analyzer_equiv. split.
  - by intros st.
  - by intros st1 st2.
  - intros st1 st2 st3. apply eq_trans.
Qed.

#[export] Instance result_equivalence {A} : Equivalence (result_equiv (B:=B) (A:=A)).
Proof.
  unfold result_equiv. split.
  - by intros r.
  - by intros r1 r2.
  - intros r1 r2 r3. apply eq_trans.
Qed.

#[export] Instance GetToken_proper : Proper ((≡) ==> result_equiv) (GetToken (B:=B) u).
Proof. apply (sim_proper _ _ sim_GetToken). Qed.

#[export] Instance set_input_proper st :
  Proper ((≡) ==> (≡)) (fun b : B => set_input b st).
Proof. intros b1 b2 Hb. unfold equiv, analyzer_equiv, view. simpl. by rewrite Hb. Qed.

End Simulation.


#[export] Hint Resolve sim_input_GetChar sim_input_UngetChar sim_input_UngetString
  sim_input_EndOfInput sim_input_fuel sim_add_line_no sim_tmp_lexeme_set
  sim_tmp_lexeme_append sim_tmp_token_type_set sim_tmp_line_no_set
  sim_unget_unless_end sim_verifyPatternMatch sim_checkAndReturnNum sim_matchToBase
  sim_ScanNumber_from sim_SkipSpace sim_ScanNumber sim_ScanIdOrKeyword
  sim_UngetToken sim_GetTokens sim_main_run : lexer.

(** ** The theorem at work *)

