(* ===== verification/Run.v ===== *)
(** * Runs on the reference tape

    What each loop of the analyser computes, as a function defined by
    recursion on the pending characters (no fuel, no monad), and the proof
    that the loop, given one unit of fuel more than there are pending
    characters, returns exactly that.  With the rewriting rules [run] for
    the member accessors, a member function applied to a state over the
    reference tape is run symbolically by [lex_run]. *)

From Stdlib Require Import Ascii String ZArith Lia List Bool.
From stdpp Require Import base tactics list strings.
From S2P Require Import Prelude Chars Cursor Token Lexer Sim.
Import ListNotations.
Local Open Scope Z_scope.
Local Open Scope comp_scope.

(** [if (!input.EndOfInput()) input.UngetChar(c)] on the tape. *)
Definition unget_unless_end_run (c : ascii) (t : Tape) : Tape :=
  if tape_EndOfInput t then t else tape_UngetChar c t.

(** The digit loops: [c] is the character fetched last, [p] and [e] the
    tape.  At the end of a stream whose end was not hit yet, the loop body
    runs once more on a fetch that fails and leaves [c] as it was. *)
Fixpoint scan_run (P : ascii -> bool) (c : ascii) (scanned p : cstring) (e : bool)
    : ascii * cstring * Tape :=
  match p with
  | [] =>
      if e then (c, scanned, MkTape [] true)
      else if P c then (c, scanned ++ [c], MkTape [] true)
      else (c, scanned, MkTape [] false)
  | x :: r =>
      if P c then scan_run P x (scanned ++ [c]) r e
      else (c, scanned, MkTape (x :: r) e)
  end.

(** A fetch, the loop, and the push-back of the character that ended it. *)
Definition fetch_scan (P : ascii -> bool) (c0 : ascii) (scanned : cstring) (t : Tape)
    : ascii * cstring * Tape :=
  let t1 := snd (tape_GetChar c0 t) in
  let r := scan_run P (fst (tape_GetChar c0 t)) scanned (pending t1) (hit_eof t1) in
  (fst r, unget_unless_end_run (fst (fst r)) (snd r)).

(** The loop of [SkipSpace], with the line counter. *)
Fixpoint skip_run (c : ascii) (sp : bool) (p : cstring) (e : bool) (l : Z)
    : ascii * bool * Tape * Z :=
  match p with
  | [] =>
      if e then (c, sp, MkTape [] true, l)
      else if isspace c then
        (c, true, MkTape [] true, l + (if (c =? newline)%char then 1 else 0))
      else (c, sp, MkTape [] false, l)
  | x :: r =>
      if isspace c then skip_run x true r e (l + (if (x =? newline)%char then 1 else 0))
      else (c, sp, MkTape (x :: r) e, l)
  end.

(** The loop over the zeros after ["0."]; the boolean says that the
    [return] inside the loop was taken (and everything pushed back). *)
Fixpoint zeros_run (c : ascii) (scanned p : cstring) (e : bool)
    : ascii * cstring * bool * Tape :=
  match p with
  | [] =>
      if e then (c, scanned, false, MkTape [] true)
      else if (c =? "0")%char then (c, scanned ++ [c], false, MkTape [] true)
      else (c, scanned, false, MkTape [] false)
  | x :: r =>
      if (c =? "0")%char then
        if (x =? newline)%char then
          (x, (scanned ++ [c]) ++ [x], true, MkTape (((scanned ++ [c]) ++ [x]) ++ r) e)
        else zeros_run x (scanned ++ [c]) r e
      else (c, scanned, false, MkTape (x :: r) e)
  end.

(** A fetch and the loop over the zeros. *)
Definition fetch_zeros (c0 : ascii) (scanned : cstring) (t : Tape)
    : ascii * cstring * bool * Tape :=
  let t1 := snd (tape_GetChar c0 t) in
  zeros_run (fst (tape_GetChar c0 t)) scanned (pending t1) (hit_eof t1).

(** [verifyPatternMatch] on the tape. *)
Fixpoint verify_run (s : cstring) (c : ascii) (collected : cstring) (t : Tape)
    : bool * Tape :=
  match s with
  | [] => (true, t)
  | x :: s' =>
      if tape_EndOfInput t then (false, tape_UngetString collected t)
      else
        let c' := fst (tape_GetChar c t) in
        let t' := snd (tape_GetChar c t) in
        if negb (c' =? x)%char then (false, tape_UngetString (collected ++ [c']) t')
        else verify_run s' c' (collected ++ [c']) t'
  end.

Create Rewrite HintDb run.

(** ** The accessors on the reference tape *)

Lemma tape_UngetString_Mk s p e : tape_UngetString s (MkTape p e) = MkTape (s ++ p) e.
Proof. reflexivity. Qed.

Lemma tape_UngetChar_Mk c p e : tape_UngetChar c (MkTape p e) = MkTape (c :: p) e.
Proof. reflexivity. Qed.

Lemma tape_EndOfInput_noeof p : tape_EndOfInput (MkTape p false) = false.
Proof. by destruct p. Qed.

Lemma unget_unless_end_run_noeof c p :
  unget_unless_end_run c (MkTape p false) = MkTape (c :: p) false.
Proof. unfold unget_unless_end_run. by rewrite tape_EndOfInput_noeof. Qed.

Lemma zero_not_newline c : (c =? "0")%char = true -> (c =? newline)%char = false.
Proof. by intros ->%Ascii.eqb_eq. Qed.

Section Accessors.
Context {A : Type}.
Implicit Types (ts : list Token) (t : Tape) (l : Z) (tm : Token) (c : ascii) (s : cstring).
Local Abbreviation TLex := (Comp (LexicalAnalyzer Tape)).

Lemma run_ret (a : A) (st : LexicalAnalyzer Tape) : ret a st = Some (a, st).
Proof. reflexivity. Qed.

Lemma run_GetChar c (k : ascii -> TLex A) ts t l tm :
  (x <- input_GetChar c ;; k x) (MkLexer ts t l tm)
  = k (fst (tape_GetChar c t)) (MkLexer ts (snd (tape_GetChar c t)) l tm).
Proof. reflexivity. Qed.

Lemma run_UngetChar c (k : unit -> TLex A) ts t l tm :
  (x <- input_UngetChar c ;; k x) (MkLexer ts t l tm)
  = k tt (MkLexer ts (tape_UngetChar c t) l tm).
Proof. reflexivity. Qed.

Lemma run_UngetString s (k : unit -> TLex A) ts t l tm :
  (x <- input_UngetString s ;; k x) (MkLexer ts t l tm)
  = k tt (MkLexer ts (tape_UngetString s t) l tm).
Proof. reflexivity. Qed.

Lemma run_EndOfInput (k : bool -> TLex A) ts t l tm :
  (x <- input_EndOfInput ;; k x) (MkLexer ts t l tm)
  = k (tape_EndOfInput t) (MkLexer ts t l tm).
Proof. reflexivity. Qed.

Lemma run_fuel (k : nat -> TLex A) ts t l tm :
  (x <- input_fuel ;; k x) (MkLexer ts t l tm)
  = k (S (length (pending t))) (MkLexer ts t l tm).
Proof. reflexivity. Qed.

Lemma run_add_line_no (b : bool) (k : unit -> TLex A) ts t l tm :
  (x <- add_line_no b ;; k x) (MkLexer ts t l tm)
  = k tt (MkLexer ts t (l + (if b then 1 else 0)) tm).
Proof. reflexivity. Qed.

Lemma run_tmp_lexeme_set s (k : unit -> TLex A) ts t l tm :
  (x <- tmp_lexeme_set s ;; k x) (MkLexer ts t l tm)
  = k tt (MkLexer ts t l (MkToken s (token_type tm) (Token.line_no tm))).
Proof. reflexivity. Qed.

Lemma run_tmp_lexeme_append c (k : unit -> TLex A) ts t l tm :
  (x <- tmp_lexeme_append c ;; k x) (MkLexer ts t l tm)
  = k tt (MkLexer ts t l (MkToken (lexeme tm ++ [c]) (token_type tm) (Token.line_no tm))).
Proof. reflexivity. Qed.

Lemma run_tmp_token_type_set kd (k : unit -> TLex A) ts t l tm :
  (x <- tmp_token_type_set kd ;; k x) (MkLexer ts t l tm)
  = k tt (MkLexer ts t l (MkToken (lexeme tm) kd (Token.line_no tm))).
Proof. reflexivity. Qed.

Lemma run_tmp_line_no_set (k : unit -> TLex A) ts t l tm :
  (x <- tmp_line_no_set ;; k x) (MkLexer ts t l tm)
  = k tt (MkLexer ts t l (MkToken (lexeme tm) (token_type tm) l)).
Proof. reflexivity. Qed.

Lemma run_gets_tmp ts t l tm : gets tmp (MkLexer ts t l tm) = Some (tm, MkLexer ts t l tm).
Proof. reflexivity. Qed.

Lemma run_unget_unless_end c (k : unit -> TLex A) ts t l tm :
  (x <- unget_unless_end c ;; k x) (MkLexer ts t l tm)
  = k tt (MkLexer ts (unget_unless_end_run c t) l tm).
Proof.
  unfold unget_unless_end, unget_unless_end_run.
  rewrite bind_assoc, run_EndOfInput. by destruct (tape_EndOfInput t).
Qed.

End Accessors.

#[export] Hint Rewrite @run_ret @run_GetChar @run_UngetChar @run_UngetString
  @run_EndOfInput @run_fuel @run_add_line_no @run_tmp_lexeme_set
  @run_tmp_lexeme_append @run_tmp_token_type_set @run_tmp_line_no_set
  @run_gets_tmp @run_unget_unless_end @bind_assoc @bind_ret_l @bind_gets
  @bind_modify tape_UngetString_Mk tape_UngetChar_Mk tape_EndOfInput_noeof
  unget_unless_end_run_noeof : run.

(** [lex_run] runs the accessors at the head of the goal and reduces the
    tape operations and projections they leave. *)
Ltac lex_reduce :=
  cbn [tape_GetChar tape_UngetChar tape_UngetString tape_EndOfInput
       unget_unless_end_run pending hit_eof
       tokens input line_no tmp lexeme token_type Token.line_no
       validate_string base tokenType fst snd negb andb orb app].

Ltac lex_run := repeat (progress (autorewrite with run; lex_reduce)).

(** Normal form of the strings built by the scanners. *)
Ltac norm_app :=
  change EMPTYSTRING with (@nil ascii) in *; rewrite <- ?app_assoc; cbn [app].

(** ** The loops return what the run functions say *)

Section Loops.
Implicit Types (ts : list Token) (t : Tape) (l : Z) (tm : Token) (c : ascii) (s : cstring).

Lemma scan_loop_run P n c scanned t ts l tm :
  (length (pending t) < n)%nat ->
  while n (scan_cond P) scan_body (c, scanned) (MkLexer ts t l tm)
  = Some (fst (scan_run P c scanned (pending t) (hit_eof t)),
          MkLexer ts (snd (scan_run P c scanned (pending t) (hit_eof t))) l tm).
Proof.
  destruct t as [p e]. cbn [pending hit_eof].
  revert n c scanned. induction p as [|x r IH]; intros n c scanned Hn;
    (destruct n as [|n]; [simpl in Hn; lia|]);
    cbn [scan_run while]; unfold scan_cond, scan_body; lex_run.
  - destruct e; lex_run; [reflexivity|].
    destruct (P c); lex_run; [|reflexivity].
    destruct n; cbn [while]; by lex_run.
  - destruct (P c); lex_run; [|reflexivity]. apply IH. simpl in Hn. lia.
Qed.

Lemma after_dot_loop_run bs n c scanned (f : bool) t ts l tm :
  (length (pending t) < n)%nat ->
  while n (after_dot_cond bs) after_dot_body (c, scanned, f) (MkLexer ts t l tm)
  = Some (fst (scan_run (fun c => isDigitInBase c bs) c scanned (pending t) (hit_eof t)),
          f || (negb (tape_EndOfInput t) && isDigitInBase c bs),
          MkLexer ts (snd (scan_run (fun c => isDigitInBase c bs) c scanned
                             (pending t) (hit_eof t))) l tm).
Proof.
  destruct t as [p e]. cbn [pending hit_eof].
  revert n c scanned f. induction p as [|x r IH]; intros n c scanned f Hn;
    (destruct n as [|n]; [simpl in Hn; lia|]);
    cbn [scan_run while]; unfold after_dot_cond at 1, after_dot_body at 1; lex_run.
  - destruct e; lex_run; [by rewrite orb_false_r|].
    destruct (isDigitInBase c bs); lex_run; [|by rewrite orb_false_r].
    rewrite orb_true_r. destruct n; cbn [while]; by lex_run.
  - destruct (isDigitInBase c bs) eqn:E; lex_run; [|by rewrite orb_false_r].
    rewrite IH by (simpl in Hn; lia). by rewrite !orb_true_r.
Qed.

Lemma ident_loop_run n c t ts l tm :
  (length (pending t) < n)%nat ->
  while n ident_cond ident_body c (MkLexer ts t l tm)
  = Some (fst (fst (scan_run isalnum c (lexeme tm) (pending t) (hit_eof t))),
          MkLexer ts (snd (scan_run isalnum c (lexeme tm) (pending t) (hit_eof t))) l
            (MkToken (snd (fst (scan_run isalnum c (lexeme tm) (pending t) (hit_eof t))))
               (token_type tm) (Token.line_no tm))).
Proof.
  destruct t as [p e], tm as [lx ty ln]. cbn [pending hit_eof lexeme token_type Token.line_no].
  revert n c lx. induction p as [|x r IH]; intros n c lx Hn;
    (destruct n as [|n]; [simpl in Hn; lia|]);
    cbn [scan_run while]; unfold ident_cond, ident_body; lex_run.
  - destruct e; lex_run; [reflexivity|].
    destruct (isalnum c); lex_run; [|reflexivity].
    unfold input_GetChar. lex_cbn. destruct n; cbn [while]; by lex_run.
  - destruct (isalnum c); lex_run; [|reflexivity].
    unfold input_GetChar. lex_cbn. apply IH. simpl in Hn. lia.
Qed.

Lemma skip_loop_run n c sp t ts l tm :
  (length (pending t) < n)%nat ->
  while n SkipSpace_cond SkipSpace_body (c, sp) (MkLexer ts t l tm)
  = Some (fst (fst (skip_run c sp (pending t) (hit_eof t) l)),
          MkLexer ts (snd (fst (skip_run c sp (pending t) (hit_eof t) l)))
            (snd (skip_run c sp (pending t) (hit_eof t) l)) tm).
Proof.
  destruct t as [p e]. cbn [pending hit_eof].
  revert n c sp l. induction p as [|x r IH]; intros n c sp l Hn;
    (destruct n as [|n]; [simpl in Hn; lia|]);
    cbn [skip_run while]; unfold SkipSpace_cond, SkipSpace_body; lex_run.
  - destruct e; lex_run; [reflexivity|].
    destruct (isspace c); lex_run; [|reflexivity].
    destruct n; cbn [while]; by lex_run.
  - destruct (isspace c); lex_run; [|reflexivity]. apply IH. simpl in Hn. lia.
Qed.

Lemma zeros_loop_run n c scanned t ts l tm :
  (length (pending t) < n)%nat ->
  while n zeros_cond zeros_body (c, scanned, false) (MkLexer ts t l tm)
  = Some (fst (zeros_run c scanned (pending t) (hit_eof t)),
          MkLexer ts (snd (zeros_run c scanned (pending t) (hit_eof t))) l tm).
Proof.
  destruct t as [p e]. cbn [pending hit_eof].
  revert n c scanned. induction p as [|x r IH]; intros n c scanned Hn;
    (destruct n as [|n]; [simpl in Hn; lia|]);
    cbn [zeros_run while]; unfold zeros_cond at 1, zeros_body at 1; lex_run.
  - destruct e; lex_run; [reflexivity|].
    destruct (c =? "0")%char eqn:E; lex_run; [|reflexivity].
    rewrite (zero_not_newline _ E). lex_run.
    destruct n; cbn [while]; unfold zeros_cond at 1; by lex_run.
  - destruct (c =? "0")%char; lex_run; [|reflexivity].
    destruct (x =? newline)%char; lex_run.
    + destruct n; cbn [while]; unfold zeros_cond at 1; by lex_run.
    + apply IH. simpl in Hn. lia.
Qed.

Lemma verifyPatternMatch_from_run s c collected t ts l tm :
  verifyPatternMatch_from s c collected (MkLexer ts t l tm)
  = Some (fst (verify_run s c collected t),
          MkLexer ts (snd (verify_run s c collected t)) l tm).
Proof.
  revert c collected t. induction s as [|x s IH]; intros c collected t;
    cbn [verifyPatternMatch_from verify_run]; [reflexivity|].
  lex_run. destruct (tape_EndOfInput t); lex_run; [reflexivity|].
  destruct ((tape_GetChar c t).1 =? x)%char; lex_run; [apply IH | reflexivity].
Qed.

(** The four-step pattern [GetChar; while ...; if (!EndOfInput) UngetChar]
    in front of a continuation [k]. *)
Lemma run_fetch_scan {A} P c0 scanned ts t l tm
    (k : ascii * cstring -> Comp (LexicalAnalyzer Tape) A) :
  (c <- input_GetChar c0 ;;
   n <- input_fuel ;;
   x <- while n (scan_cond P) scan_body (c, scanned) ;;
   unget_unless_end (fst x) ;;
   k x) (MkLexer ts t l tm)
  = k (fst (fetch_scan P c0 scanned t)) (MkLexer ts (snd (fetch_scan P c0 scanned t)) l tm).
Proof.
  unfold fetch_scan. autorewrite with run.
  erewrite bind_Some by (apply scan_loop_run; lia).
  by autorewrite with run.
Qed.

(** The loop and the push-back, with no fetch before. *)
Lemma run_scan_unget {A} P c scanned ts t l tm
    (k : ascii * cstring -> Comp (LexicalAnalyzer Tape) A) :
  (n <- input_fuel ;;
   x <- while n (scan_cond P) scan_body (c, scanned) ;;
   unget_unless_end (fst x) ;;
   k x) (MkLexer ts t l tm)
  = k (fst (scan_run P c scanned (pending t) (hit_eof t)))
      (MkLexer ts (unget_unless_end_run
                     (fst (fst (scan_run P c scanned (pending t) (hit_eof t))))
                     (snd (scan_run P c scanned (pending t) (hit_eof t)))) l tm).
Proof.
  autorewrite with run. erewrite bind_Some by (apply scan_loop_run; lia).
  by autorewrite with run.
Qed.

(** The same pattern around the loop after the point, which also says
    whether it ran. *)
Lemma run_fetch_after_dot {A} bs c0 scanned ts t l tm
    (k : ascii * cstring * bool -> Comp (LexicalAnalyzer Tape) A) :
  (c <- input_GetChar c0 ;;
   n <- input_fuel ;;
   y <- while n (after_dot_cond bs) after_dot_body (c, scanned, false) ;;
   unget_unless_end (fst (fst y)) ;;
   k y) (MkLexer ts t l tm)
  = k (fst (fetch_scan (fun c => isDigitInBase c bs) c0 scanned t),
       negb (tape_EndOfInput (snd (tape_GetChar c0 t)))
       && isDigitInBase (fst (tape_GetChar c0 t)) bs)
      (MkLexer ts (snd (fetch_scan (fun c => isDigitInBase c bs) c0 scanned t)) l tm).
Proof.
  unfold fetch_scan. autorewrite with run.
  erewrite bind_Some by (apply after_dot_loop_run; lia).
  by autorewrite with run.
Qed.

Lemma run_fetch_zeros {A} c0 scanned ts t l tm
    (k : ascii * cstring * bool -> Comp (LexicalAnalyzer Tape) A) :
  (c <- input_GetChar c0 ;;
   n <- input_fuel ;;
   x <- while n zeros_cond zeros_body (c, scanned, false) ;;
   k x) (MkLexer ts t l tm)
  = k (fst (fetch_zeros c0 scanned t)) (MkLexer ts (snd (fetch_zeros c0 scanned t)) l tm).
Proof.
  unfold fetch_zeros. autorewrite with run.
  by erewrite bind_Some by (apply zeros_loop_run; lia).
Qed.

Lemma run_verifyPatternMatch {A} u s ts t l tm
    (k : bool -> Comp (LexicalAnalyzer Tape) A) :
  (x <- verifyPatternMatch u s ;; k x) (MkLexer ts t l tm)
  = k (fst (verify_run s (uc_verifyPatternMatch u) [] t))
      (MkLexer ts (snd (verify_run s (uc_verifyPatternMatch u) [] t)) l tm).
Proof.
  unfold verifyPatternMatch. by erewrite bind_Some by apply verifyPatternMatch_from_run.
Qed.

End Loops.

#[export] Hint Rewrite @run_fetch_scan @run_scan_unget @run_fetch_after_dot
  @run_fetch_zeros @run_verifyPatternMatch : run.
