(* ===== verification/Total.v ===== *)
(** * Termination

    Every member function returns: the fuel its loops take from the cursor
    (one more than the number of pending characters) is never used up.
    Proved on the reference tape from the closed forms of the loops, and
    carried to every implementation of the cursor by the simulation. *)

From Stdlib Require Import Ascii String ZArith Lia List Bool.
From stdpp Require Import base tactics list strings.
From S2P Require Import Prelude Chars Cursor Token Lexer Sim Run.
Import ListNotations.
Local Open Scope comp_scope.

(** [f] returns from every state. *)
Ltac total_intro :=
  intros [ts t l tm].

(** Runs the accessors and splits on every test that remains. *)
Ltac total_run :=
  lex_run; repeat (case_match; lex_run); try (eexists; reflexivity).

(** Runs a member function known to return, as the head of a bind. *)
Ltac total_call H :=
  let r := fresh "r" in let st := fresh "st" in let E := fresh "E" in
  lazymatch goal with
  | |- is_Some (bind ?m _ ?s) =>
      destruct (H s) as [[r st] E]; rewrite (bind_Some _ _ _ _ _ E);
      destruct st as [? ? ? ?]
  end.

Section Total.
Variable u : Uninit.

Lemma total_bind {S A B} (m : Comp S A) (k : A -> Comp S B) :
  total m -> (forall a, total (k a)) -> total (bind m k).
Proof.
  intros Hm Hk s. destruct (Hm s) as [[a s'] E].
  rewrite (bind_Some _ _ _ _ _ E). apply Hk.
Qed.

Lemma SkipSpace_total_tape : total (SkipSpace (B:=Tape) u).
Proof.
  total_intro. unfold SkipSpace. lex_run.
  erewrite bind_Some by (apply skip_loop_run; lia). total_run.
Qed.

Lemma verifyPatternMatch_total_tape s : total (verifyPatternMatch (B:=Tape) u s).
Proof.
  total_intro. unfold verifyPatternMatch. rewrite verifyPatternMatch_from_run. eauto.
Qed.

Lemma checkAndReturnNum_total_tape : total (checkAndReturnNum (B:=Tape) u).
Proof. total_intro. unfold checkAndReturnNum. total_run. Qed.

Lemma matchToBase_total_tape vs bs : total (matchToBase (B:=Tape) u vs bs).
Proof. total_intro. unfold matchToBase. total_run. Qed.

Lemma ScanNumber_from_total_tape nts : total (ScanNumber_from (B:=Tape) u nts).
Proof.
  induction nts as [|nt nts IH]; total_intro; cbn [ScanNumber_from]; [by eexists|].
  total_call (matchToBase_total_tape (validate_string nt) (base nt)).
  destruct (negb (empty r)); [total_run | apply IH].
Qed.

Lemma ScanNumber_total_tape : total (ScanNumber (B:=Tape) u).
Proof.
  total_intro. unfold ScanNumber. lex_run.
  total_call (ScanNumber_from_total_tape (take NUMTYPE_COUNT numberTypes)).
  destruct r; [by eexists|]. total_call checkAndReturnNum_total_tape. total_run.
Qed.

Lemma ScanIdOrKeyword_total_tape : total (ScanIdOrKeyword (B:=Tape) u).
Proof.
  total_intro. unfold ScanIdOrKeyword. lex_run.
  destruct (isalpha _); lex_run; [|by eexists].
  erewrite bind_Some by (apply ident_loop_run; lia). total_run.
Qed.

Lemma GetToken_total_tape : total (GetToken (B:=Tape) u).
Proof.
  total_intro. unfold GetToken. lex_run. destruct ts as [|tk ts]; [|by eexists].
  total_call SkipSpace_total_tape. lex_run.
  destruct (switch_kind _); lex_run; [by eexists|].
  repeat (case_match; lex_run); try (by eexists).
  - apply ScanNumber_total_tape.
  - apply ScanIdOrKeyword_total_tape.
Qed.

Lemma GetTokens_total_tape k : total (GetTokens (B:=Tape) u k).
Proof.
  induction k as [|k IH]; cbn [GetTokens]; [by eexists|].
  apply total_bind; [apply GetToken_total_tape|]. intros tok.
  apply total_bind; [apply IH|]. by eexists.
Qed.

End Total.

Section TotalAny.
Context {B : Type} `{!Cursor B}.
Variable u : Uninit.

(** C7. [GetToken] returns a token from every state of the analyser,
    over every implementation of the cursor: the fuel of its loops is
    never used up. *)
Theorem GetToken_total (st : LexicalAnalyzer B) :
  exists tok st', GetToken u st = Some (tok, st').
Proof.
  destruct (sim_total _ _ (sim_GetToken u) (GetToken_total_tape u) st) as [[tok st'] E].
  eauto.
Qed.

Theorem ScanNumber_total (st : LexicalAnalyzer B) :
  exists tok st', ScanNumber u st = Some (tok, st').
Proof.
  destruct (sim_total _ _ (sim_ScanNumber u) (ScanNumber_total_tape u) st) as [[tok st'] E].
  eauto.
Qed.

Theorem matchToBase_total vs bs (st : LexicalAnalyzer B) :
  exists s st', matchToBase u vs bs st = Some (s, st').
Proof.
  destruct (sim_total _ _ (sim_matchToBase u vs bs) (matchToBase_total_tape u vs bs) st)
    as [[s st'] E].
  eauto.
Qed.

Theorem SkipSpace_total (st : LexicalAnalyzer B) :
  exists b st', SkipSpace u st = Some (b, st').
Proof.
  destruct (sim_total _ _ (sim_SkipSpace u) (SkipSpace_total_tape u) st) as [[b st'] E].
  eauto.
Qed.

Theorem ScanIdOrKeyword_total (st : LexicalAnalyzer B) :
  exists tok st', ScanIdOrKeyword u st = Some (tok, st').
Proof.
  destruct (sim_total _ _ (sim_ScanIdOrKeyword u) (ScanIdOrKeyword_total_tape u) st)
    as [[tok st'] E].
  eauto.
Qed.

(** Any number of successive calls of [GetToken] returns, from
    every state and over every implementation of the cursor. *)
Theorem GetTokens_total k (st : LexicalAnalyzer B) :
  exists toks st', GetTokens u k st = Some (toks, st').
Proof.
  destruct (sim_total _ _ (sim_GetTokens u k) (GetTokens_total_tape u k) st)
    as [[toks st'] E].
  eauto.
Qed.

End TotalAny.
