(* ===== verification/Lines.v ===== *)
(** * Streams of terminated lines

    The inputs on which the analyser never meets the end of the stream in
    the middle of a token: a newline is still pending ([line_pending]), or
    the whole stream ends with one ([terminated]).  On such an input every
    scanning loop stops on a character that it pushes back, and takes the
    longest run of characters that pass its test. *)

From Stdlib Require Import Ascii String ZArith Lia List Bool.
From stdpp Require Import base tactics list strings.
From S2P Require Import Prelude Chars Cursor Token Lexer Sim Run.
Import ListNotations.
Local Open Scope Z_scope.
Local Open Scope comp_scope.

(** A newline is still pending: the current line is terminated. *)
Definition line_pending (p : cstring) : Prop := newline ∈ p.

(** A stream that is empty or ends with a newline. *)
Definition terminated (p : cstring) : Prop := default newline (last p) = newline.

#[export] Instance line_pending_dec p : Decision (line_pending p).
Proof. unfold line_pending. apply _. Defined.

#[export] Instance terminated_dec p : Decision (terminated p).
Proof. unfold terminated. apply _. Defined.

(** ** Terminated lines *)

Lemma line_pending_cons c p : (c =? newline)%char = false -> line_pending (c :: p) -> line_pending p.
Proof.
  unfold line_pending. intros Hc [Heq|H]%elem_of_cons; [|done].
  rewrite <- Heq, Ascii.eqb_refl in Hc. discriminate.
Qed.

Lemma line_pending_app s r : newline ∉ s -> line_pending (s ++ r) -> line_pending r.
Proof. unfold line_pending. intros Hs [H|H]%elem_of_app; done. Qed.

Lemma line_pending_nonempty p : line_pending p -> exists y r, p = y :: r.
Proof. destruct p as [|y r]; [by intros ?%elem_of_nil | eauto]. Qed.

Lemma line_pending_span P p :
  P newline = false -> line_pending p -> line_pending (snd (span P p)).
Proof.
  intros HP. unfold line_pending. induction p as [|x p IH]; [done|].
  destruct (P x) eqn:E.
  - rewrite (span_cons_true P x p E). intros [Heq|H]%elem_of_cons; [congruence|auto].
  - by rewrite (span_cons_false P x p E).
Qed.

Lemma span_snd_line P p :
  P newline = false -> line_pending p ->
  exists y r, snd (span P p) = y :: r /\ line_pending (y :: r).
Proof.
  intros HP Hp. pose proof (line_pending_span P p HP Hp) as H.
  destruct (line_pending_nonempty _ H) as (y & r & E). rewrite E in *. eauto.
Qed.

Lemma empty_span_cons P (y : ascii) r : empty (fst (span P (y :: r))) = negb (P y).
Proof.
  destruct (P y) eqn:E; [by rewrite (span_cons_true P y r E)|by rewrite (span_cons_false P y r E)].
Qed.

Lemma isdigit_newline : isdigit newline = false.
Proof. reflexivity. Qed.

Lemma isalnum_newline : isalnum newline = false.
Proof. reflexivity. Qed.

Lemma terminated_nil : terminated [].
Proof. reflexivity. Qed.

Lemma terminated_app s r : terminated (s ++ r) -> terminated r.
Proof.
  unfold terminated. destruct r as [|y r]; [done|].
  by rewrite last_app_cons.
Qed.

Lemma terminated_cons c p : terminated (c :: p) -> terminated p.
Proof. apply (terminated_app [c]). Qed.

Lemma terminated_snoc s : terminated (s ++ [newline]).
Proof. unfold terminated. by rewrite last_snoc. Qed.

(** A terminated stream that starts with another character than the
    newline has a newline pending behind it. *)
Lemma terminated_line_pending c p :
  terminated (c :: p) -> (c =? newline)%char = false -> line_pending p.
Proof.
  unfold terminated, line_pending. intros H Hc.
  destruct (last p) as [y|] eqn:E.
  - rewrite last_cons, E in H. simpl in H. subst y. by apply last_Some_elem_of.
  - apply last_None in E as ->. simpl in H. rewrite H, Ascii.eqb_refl in Hc. done.
Qed.

Lemma terminated_span P p : terminated p -> terminated (snd (span P p)).
Proof. intros H. apply (terminated_app (fst (span P p))). by rewrite span_app. Qed.

(** ** The loops before the end of the stream *)

(** With the end of the stream not hit, the scan loop takes the longest
    run of characters that pass the test and stops on the next one. *)
Lemma scan_run_noeof P c scanned p :
  scan_run P c scanned p false =
  match snd (span P (c :: p)) with
  | y :: rest => (y, scanned ++ fst (span P (c :: p)), MkTape rest false)
  | [] => (default c (last p), scanned ++ fst (span P (c :: p)), MkTape [] true)
  end.
Proof.
  revert c scanned. induction p as [|x r IH]; intros c scanned; cbn [scan_run];
    destruct (P c) eqn:E;
    rewrite ?(span_cons_true P c _ E), ?(span_cons_false P c _ E), ?span_nil;
    cbn [fst snd]; rewrite ?app_nil_r; try done.
  rewrite IH. destruct (span P (x :: r)).2; rewrite <- app_assoc; [|done].
  by rewrite default_last_cons.
Qed.

Lemma fetch_scan_noeof P c0 scanned p :
  fetch_scan P c0 scanned (MkTape p false) =
  (hd (default c0 (last p)) (snd (span P p)), scanned ++ fst (span P p),
   MkTape (snd (span P p)) (empty (snd (span P p)))).
Proof.
  unfold fetch_scan. destruct p as [|x r]; lex_reduce.
  - cbn [scan_run]. rewrite span_nil. by rewrite app_nil_r.
  - rewrite scan_run_noeof. destruct (span P (x :: r)).2 eqn:E; lex_reduce.
    + by rewrite default_last_cons.
    + by rewrite unget_unless_end_run_noeof.
Qed.

(** On a terminated line the scan never reaches the end of the stream. *)
Lemma fetch_scan_line P c0 scanned p :
  P newline = false -> line_pending p ->
  fetch_scan P c0 scanned (MkTape p false) =
  (hd c0 (snd (span P p)), scanned ++ fst (span P p), MkTape (snd (span P p)) false).
Proof.
  intros HP Hp. rewrite fetch_scan_noeof.
  destruct (line_pending_nonempty _ (line_pending_span P p HP Hp)) as (y & r & ->).
  reflexivity.
Qed.
