(* ===== verification/Numbers.v ===== *)
(** * The numeric literal matcher

    [literal] is the grammar of one literal format as a function on the
    characters of the input: the digits, the marker, and for the format
    with a point the fraction.  On an input whose line is terminated (a
    newline is still pending and the end of the stream has not been hit)
    [matchToBase] returns the lexeme [literal] gives and leaves the rest
    pending, or returns the empty string with the input as it was;
    [ScanNumber] returns the first format of [numberTypes] that matches,
    and otherwise the plain integer. *)

From Stdlib Require Import Ascii String ZArith Lia List Bool.
From stdpp Require Import base tactics list strings.
From S2P Require Import Prelude Chars Cursor Token Lexer Sim Run Lines.
Import ListNotations.
Local Open Scope Z_scope.
Local Open Scope comp_scope.

(** [Some rest] when [p] is [s ++ rest]. *)
Fixpoint after_prefix (s p : cstring) : option cstring :=
  match s, p with
  | [], _ => Some p
  | x :: s', y :: p' => if (y =? x)%char then after_prefix s' p' else None
  | _ :: _, [] => None
  end.

Definition is_zero (c : ascii) : bool := (c =? "0")%char.

Notation "'digit_in' bs" := (fun c : ascii => isDigitInBase c bs)
  (at level 10, bs at level 9, only parsing).

(** One literal format with marker [vs] in base [bs]: the lexeme and the
    characters left, or [None]. *)
Definition literal (vs : cstring) (bs : Z) (p : cstring) : option (cstring * cstring) :=
  match p with
  | [] => None
  | d :: q =>
      if is_zero d then
        match after_prefix vs q with
        | None => None
        | Some q' =>
            if negb (string_eqb vs DOTSTRING) then Some (d :: vs, q')
            else
              match snd (span is_zero q') with
              | [] => Some (d :: vs ++ fst (span is_zero q'), [])
              | y :: r' =>
                  if negb (empty (fst (span is_zero q'))) && (y =? newline)%char then None
                  else if isPositiveDigitInBase y bs then
                    Some (d :: vs ++ fst (span is_zero q')
                            ++ fst (span (digit_in bs) (y :: r')),
                          snd (span (digit_in bs) (y :: r')))
                  else Some (d :: vs ++ fst (span is_zero q'), r')
              end
        end
      else if isPositiveDigitInBase d bs then
        match after_prefix vs (snd (span (digit_in bs) q)) with
        | None => None
        | Some r' =>
            let ds := fst (span (digit_in bs) q) in
            if negb (string_eqb vs DOTSTRING) then Some (d :: ds ++ vs, r')
            else
              if empty (fst (span (digit_in bs) r')) then None
              else Some (d :: ds ++ vs ++ fst (span (digit_in bs) r'),
                         snd (span (digit_in bs) r'))
        end
      else None
  end.

(** The plain decimal integer. *)
Definition plain_integer (p : cstring) : option (cstring * cstring) :=
  match p with
  | [] => None
  | d :: q =>
      if isdigit d then
        if is_zero d then Some ([d], q)
        else Some (d :: fst (span isdigit q), snd (span isdigit q))
      else None
  end.

(** The first format of [nts] that matches. *)
Fixpoint first_literal (nts : list NumberType) (p : cstring)
    : option (cstring * TokenType * cstring) :=
  match nts with
  | [] => None
  | nt :: nts' =>
      match literal (validate_string nt) (base nt) p with
      | Some (lex, rest) => Some (lex, tokenType nt, rest)
      | None => first_literal nts' p
      end
  end.

(** The number at the head of [p]: lexeme, kind and the characters left. *)
Definition number (p : cstring) : option (cstring * TokenType * cstring) :=
  match first_literal numberTypes p with
  | Some r => Some r
  | None =>
      match plain_integer p with
      | Some (lex, rest) => Some (lex, NUM, rest)
      | None => None
      end
  end.

(** ** Prefixes and runs *)

Lemma after_prefix_Some s p r : after_prefix s p = Some r -> p = s ++ r.
Proof.
  revert p. induction s as [|x s IH]; intros [|y p] H; simpl in *; try congruence.
  destruct (Ascii.eqb_spec y x) as [->|]; [|discriminate]. f_equal. by apply IH.
Qed.

Lemma after_prefix_app s r : after_prefix s (s ++ r) = Some r.
Proof. induction s as [|x s IH]; simpl; [done|]. by rewrite Ascii.eqb_refl. Qed.

Lemma digit_in_newline bs : digit_in bs newline = false.
Proof.
  unfold isDigitInBase, toupper. change (char_int newline) with 10.
  by destruct (bs <=? 10).
Qed.

Lemma is_zero_newline : is_zero newline = false.
Proof. reflexivity. Qed.

(** ** Verifying the marker *)

Lemma verify_run_line s c collected p :
  newline ∉ s -> line_pending p ->
  verify_run s c collected (MkTape p false) =
  match after_prefix s p with
  | Some rest => (true, MkTape rest false)
  | None => (false, MkTape (collected ++ p) false)
  end.
Proof.
  revert c collected p. induction s as [|x s IH]; intros c collected p Hs Hp; [done|].
  destruct (line_pending_nonempty _ Hp) as (y & r & ->).
  apply not_elem_of_cons in Hs as [Hx Hs]. cbn [verify_run after_prefix]. lex_reduce.
  destruct (Ascii.eqb_spec y x) as [->|Hne]; lex_reduce.
  - rewrite IH; [|done|].
    + destruct (after_prefix s r); [done|]. by rewrite <- app_assoc.
    + eapply line_pending_cons; [|done]. apply Ascii.eqb_neq. congruence.
  - by rewrite tape_UngetString_Mk, <- app_assoc.
Qed.

(** A marker that is pending is consumed, whatever the state of the stream. *)
Lemma verify_run_match s c collected rest e :
  verify_run s c collected (MkTape (s ++ rest) e) = (true, MkTape rest e).
Proof.
  revert c collected. induction s as [|x s IH]; intros c collected; [done|].
  cbn [verify_run app]. lex_reduce. rewrite Ascii.eqb_refl. apply IH.
Qed.

(** ** The zeros after the point *)

Lemma zeros_run_line c scanned p :
  line_pending (c :: p) ->
  zeros_run c scanned p false =
  match snd (span is_zero (c :: p)) with
  | y :: rest =>
      if negb (empty (fst (span is_zero (c :: p)))) && (y =? newline)%char then
        (y, (scanned ++ fst (span is_zero (c :: p))) ++ [y], true,
         MkTape (((scanned ++ fst (span is_zero (c :: p))) ++ [y]) ++ rest) false)
      else (y, scanned ++ fst (span is_zero (c :: p)), false, MkTape rest false)
  | [] => (c, scanned, false, MkTape [] false)
  end.
Proof.
  revert c scanned. induction p as [|x r IH]; intros c scanned Hp.
  - apply list_elem_of_singleton in Hp. rewrite <- Hp.
    rewrite (span_cons_false _ _ _ is_zero_newline). cbn. by rewrite app_nil_r.
  - cbn [zeros_run]. fold (is_zero c). destruct (is_zero c) eqn:E.
    + rewrite (span_cons_true _ c _ E). cbn [fst snd empty negb andb].
      assert (Hx : line_pending (x :: r)).
      { eapply line_pending_cons; [|done]. by apply zero_not_newline. }
      destruct (x =? newline)%char eqn:En.
      * apply Ascii.eqb_eq in En as ->. rewrite (span_cons_false _ _ _ is_zero_newline).
        cbn [fst snd]. by rewrite Ascii.eqb_refl.
      * rewrite (IH _ _ Hx).
        destruct (span is_zero (x :: r)) as [zs [|y rest]] eqn:Es; cbn [fst snd].
        -- exfalso. pose proof (line_pending_span is_zero _ is_zero_newline Hx) as H.
           rewrite Es in H. by apply elem_of_nil in H.
        -- assert (Hy : empty zs = true -> (y =? newline)%char = false).
           { intros ->%empty_true. pose proof (span_app is_zero (x :: r)) as Ha.
             rewrite Es in Ha. simpl in Ha. by injection Ha as ->. }
           destruct (empty zs) eqn:Ez; cbn [negb andb];
             rewrite ?(Hy eq_refl), <- ?app_assoc; reflexivity.
    + rewrite (span_cons_false _ c _ E). cbn [fst snd empty negb andb].
      by rewrite app_nil_r.
Qed.

(** ** The matcher on a terminated line *)

Section Matcher.
Variable u : Uninit.
Implicit Types (vs p q : cstring) (bs : Z) (ts : list Token) (l : Z) (tm : Token).

Lemma matchToBase_zero_line vs bs q ts l tm :
  newline ∉ vs -> line_pending q ->
  matchToBase u vs bs (MkLexer ts (MkTape ("0"%char :: q) false) l tm) =
  Some (match literal vs bs ("0"%char :: q) with
        | Some (lex, rest) => (lex, MkLexer ts (MkTape rest false) l tm)
        | None => (EMPTYSTRING, MkLexer ts (MkTape ("0"%char :: q) false) l tm)
        end).
Proof.
  intros Hvs Hq. unfold matchToBase, literal. lex_run.
  change (("0" =? "0")%char) with true. change (is_zero "0") with true. cbv iota.
  lex_run. rewrite (verify_run_line _ _ _ _ Hvs Hq).
  destruct (after_prefix vs q) as [q'|] eqn:Ev; lex_run; [|done].
  destruct (string_eqb vs DOTSTRING) eqn:Edot; cbn [negb]; lex_run; [|done].
  apply after_prefix_Some in Ev.
  assert (Hq' : line_pending q') by (subst q; by apply line_pending_app in Hq).
  destruct (line_pending_nonempty _ Hq') as (y0 & r0 & ->).
  unfold fetch_zeros. lex_reduce. rewrite (zeros_run_line _ _ _ Hq').
  pose proof (span_app is_zero (y0 :: r0)) as Happ.
  destruct (span_snd_line is_zero _ is_zero_newline Hq') as (y & r' & Es & Hy).
  rewrite Es in *. set (zs := (span is_zero (y0 :: r0)).1) in *.
  destruct (negb (empty zs) && (y =? newline)%char); lex_run.
  { rewrite Ev, <- Happ. by norm_app. }
  destruct (isPositiveDigitInBase y bs); lex_run; [|by norm_app].
  rewrite scan_run_noeof.
  destruct (span_snd_line (digit_in bs) _ (digit_in_newline bs) Hy) as (y2 & r2 & -> & _).
  lex_run. by norm_app.
Qed.

Lemma positive_digit_not_newline c bs :
  isPositiveDigitInBase c bs = true -> (c =? newline)%char = false.
Proof.
  intros H%isPositiveDigitInBase_digit. destruct (Ascii.eqb_spec c newline) as [->|]; [|done].
  by rewrite digit_in_newline in H.
Qed.

Lemma matchToBase_nonzero_line vs bs d q ts l tm :
  newline ∉ vs -> line_pending (d :: q) -> is_zero d = false ->
  matchToBase u vs bs (MkLexer ts (MkTape (d :: q) false) l tm) =
  Some (match literal vs bs (d :: q) with
        | Some (lex, rest) => (lex, MkLexer ts (MkTape rest false) l tm)
        | None => (EMPTYSTRING, MkLexer ts (MkTape (d :: q) false) l tm)
        end).
Proof.
  intros Hvs Hp Hd. unfold matchToBase, literal. lex_run.
  rewrite Hd. unfold is_zero in Hd. rewrite Hd.
  destruct (isPositiveDigitInBase d bs) eqn:Ep; lex_run; [|done].
  pose proof (line_pending_cons _ _ (positive_digit_not_newline _ _ Ep) Hp) as Hq.
  rewrite (fetch_scan_line _ _ _ _ (digit_in_newline bs) Hq). lex_run.
  pose proof (span_app (digit_in bs) q) as Happ.
  destruct (span_snd_line (digit_in bs) _ (digit_in_newline bs) Hq) as (y & r & Es & Hy).
  rewrite Es in *. set (ds := (span (digit_in bs) q).1) in *.
  rewrite (verify_run_line _ _ _ _ Hvs Hy).
  destruct (after_prefix vs (y :: r)) as [r'|] eqn:Ev; lex_run.
  2:{ rewrite <- Happ. by norm_app. }
  destruct (string_eqb vs DOTSTRING) eqn:Edot; cbn [negb]; lex_run; [|by norm_app].
  apply after_prefix_Some in Ev.
  assert (Hr' : line_pending r') by (rewrite Ev in Hy; by apply line_pending_app in Hy).
  rewrite (fetch_scan_line _ _ _ _ (digit_in_newline bs) Hr').
  destruct (line_pending_nonempty _ Hr') as (y1 & r1 & ->). lex_run.
  rewrite empty_span_cons.
  destruct (isDigitInBase y1 bs) eqn:E1; cbn [negb]; lex_run; [by norm_app|].
  rewrite (span_cons_false (digit_in bs) y1 r1 E1). lex_run.
  rewrite <- Happ, Ev. by norm_app.
Qed.

(** On a terminated line, over the reference tape, [matchToBase] returns
    the lexeme of [literal] and leaves the rest, or returns the empty
    string and leaves the input as it was. *)
Lemma matchToBase_literal_tape vs bs p ts l tm :
  newline ∉ vs -> line_pending p ->
  matchToBase u vs bs (MkLexer ts (MkTape p false) l tm) =
  Some (match literal vs bs p with
        | Some (lex, rest) => (lex, MkLexer ts (MkTape rest false) l tm)
        | None => (EMPTYSTRING, MkLexer ts (MkTape p false) l tm)
        end).
Proof.
  intros Hvs Hp. destruct (line_pending_nonempty _ Hp) as (d & q & ->).
  destruct (is_zero d) eqn:Ed.
  - apply Ascii.eqb_eq in Ed as ->. apply matchToBase_zero_line; [done|].
    exact (line_pending_cons "0" q eq_refl Hp).
  - by apply matchToBase_nonzero_line.
Qed.

Lemma literal_nonempty vs bs p lex rest :
  literal vs bs p = Some (lex, rest) -> empty lex = false.
Proof.
  unfold literal. intros H.
  repeat case_match; simplify_eq; reflexivity.
Qed.

Lemma checkAndReturnNum_line p ts l tm :
  line_pending p ->
  checkAndReturnNum u (MkLexer ts (MkTape p false) l tm) =
  Some (match plain_integer p with
        | Some (lex, rest) => (lex, MkLexer ts (MkTape rest false) l tm)
        | None => (EMPTYSTRING, MkLexer ts (MkTape p false) l tm)
        end).
Proof.
  intros Hp. destruct (line_pending_nonempty _ Hp) as (d & q & ->).
  unfold checkAndReturnNum, plain_integer. lex_run.
  destruct (isdigit d) eqn:Ed; lex_run; [|done].
  fold (is_zero d). destruct (is_zero d); lex_run; [done|].
  assert (Hq : line_pending q).
  { eapply line_pending_cons; [|done].
    destruct (Ascii.eqb_spec d newline) as [->|]; [done|done]. }
  rewrite (fetch_scan_line _ _ _ _ isdigit_newline Hq). by lex_run.
Qed.

Lemma plain_integer_nonempty p lex rest :
  plain_integer p = Some (lex, rest) -> empty lex = false.
Proof.
  unfold plain_integer. intros H. repeat case_match; simplify_eq; reflexivity.
Qed.

Lemma ScanNumber_from_line nts p ts l tm :
  Forall (fun nt => newline ∉ validate_string nt) nts -> line_pending p ->
  ScanNumber_from u nts (MkLexer ts (MkTape p false) l tm) =
  Some (match first_literal nts p with
        | Some (lex, kind, rest) =>
            (Some (MkToken lex kind (Token.line_no tm)),
             MkLexer ts (MkTape rest false) l (MkToken lex kind (Token.line_no tm)))
        | None => (None, MkLexer ts (MkTape p false) l tm)
        end).
Proof.
  intros Hnts Hp. induction Hnts as [|nt nts Hnt _ IH]; [done|].
  cbn [ScanNumber_from first_literal].
  rewrite (bind_Some_pair _ _ _ _ (matchToBase_literal_tape _ _ _ ts l tm Hnt Hp)).
  destruct (literal (validate_string nt) (base nt) p) as [[lex rest]|] eqn:E;
    cbn [fst snd].
  - rewrite (literal_nonempty _ _ _ _ _ E). cbn [negb]. by lex_run.
  - apply IH.
Qed.

Lemma numberTypes_markers : Forall (fun nt => newline ∉ validate_string nt) numberTypes.
Proof.
  unfold numberTypes.
  repeat (apply Forall_cons_2; [by_decide|]). apply Forall_nil_2.
Qed.

Lemma ScanNumber_number_tape p ts l tm :
  line_pending p ->
  ScanNumber u (MkLexer ts (MkTape p false) l tm) =
  Some (match number p with
        | Some (lex, kind, rest) =>
            (MkToken lex kind l, MkLexer ts (MkTape rest false) l (MkToken lex kind l))
        | None =>
            (MkToken EMPTYSTRING ERROR l,
             MkLexer ts (MkTape p false) l (MkToken EMPTYSTRING ERROR l))
        end).
Proof.
  intros Hp. unfold ScanNumber, number. lex_run.
  change (take NUMTYPE_COUNT numberTypes) with numberTypes.
  rewrite (bind_Some_pair _ _ _ _
             (ScanNumber_from_line _ _ ts l _ numberTypes_markers Hp)).
  destruct (first_literal numberTypes p) as [[[lex kind] rest]|]; cbn [fst snd];
    lex_run; [done|].
  rewrite (bind_Some_pair _ _ _ _ (checkAndReturnNum_line _ ts l _ Hp)).
  destruct (plain_integer p) as [[lex rest]|] eqn:E; cbn [fst snd].
  - rewrite (plain_integer_nonempty _ _ _ E). cbn [negb]. by lex_run.
  - by lex_run.
Qed.

End Matcher.

(** ** What a literal consumes *)

(** Turns an equation on the rest of a run into the split of the input. *)
Ltac span_eqs :=
  repeat match goal with
         | H : after_prefix _ _ = Some _ |- _ => apply after_prefix_Some in H
         | H : negb (string_eqb _ _) = false |- _ =>
             apply negb_false_iff, string_eqb_eq in H
         | H : snd (span ?P ?l) = ?r |- _ =>
             let E := fresh "E" in
             let R := fresh "R" in
             pose proof (span_app P l) as E; pose proof (span_rest P l) as R;
             rewrite H in E, R; clear H;
             generalize dependent (fst (span P l)); intros
         end;
  subst.

(** The lexeme is a prefix of the input and the rest follows it, except
    that after ["0."] and its zeros one character that starts no digit run
    is dropped between them. *)
Lemma literal_split vs bs p lex rest :
  literal vs bs p = Some (lex, rest) ->
  p = lex ++ rest \/
  exists y, p = lex ++ y :: rest /\ vs = DOTSTRING /\ isPositiveDigitInBase y bs = false
            /\ is_zero y = false.
Proof.
  unfold literal. intros H.
  repeat match type of H with
         | match ?x with _ => _ end = _ => destruct x eqn:?
         | (if ?b then _ else _) = _ => destruct b eqn:?
         end; simplify_eq; span_eqs.
  all: try (left; cbn [app]; rewrite <- ?app_assoc; cbn [app];
            rewrite ?span_app, ?app_nil_r; reflexivity).
  right. eexists. split_and!; [|done..]. cbn [app]. by rewrite <- !app_assoc.
Qed.

Lemma plain_integer_split p lex rest : plain_integer p = Some (lex, rest) -> p = lex ++ rest.
Proof.
  unfold plain_integer. intros H. repeat case_match; simplify_eq; [done|].
  cbn [app]. by rewrite span_app.
Qed.

(** A number consumes at least one character. *)
Lemma number_length p lex kind rest :
  number p = Some (lex, kind, rest) -> (length rest < length p)%nat.
Proof.
  unfold number. intros H.
  assert (Hl : forall nts, first_literal nts p = Some (lex, kind, rest) ->
               (length rest < length p)%nat).
  { induction nts as [|nt nts IH]; [done|]. cbn [first_literal].
    destruct (literal _ _ p) as [[lx rs]|] eqn:E; [|done]. intros [= -> _ ->].
    pose proof (literal_nonempty _ _ _ _ _ E) as Hne.
    destruct (literal_split _ _ _ _ _ E) as [->|(y & -> & _)];
      rewrite length_app; destruct lex; simpl in *; (done || lia). }
  destruct (first_literal numberTypes p) as [r|] eqn:E1; [injection H as ->; eauto|].
  destruct (plain_integer p) as [[lx rs]|] eqn:E2; [|done]. injection H as -> _ ->.
  pose proof (plain_integer_nonempty _ _ _ E2).
  apply plain_integer_split in E2 as ->. rewrite length_app. destruct lex; simpl in *; (done || lia).
Qed.

(** A digit starts a number. *)
Lemma number_digit c r : isdigit c = true -> is_Some (number (c :: r)).
Proof.
  intros H. unfold number. destruct (first_literal _ _); [done|].
  unfold plain_integer. rewrite H. by destruct (is_zero c).
Qed.

(** ** The matcher over any cursor *)

Section Refinement.
Context {B : Type} `{!Cursor B}.
Variable u : Uninit.
Implicit Types (b : B) (p : cstring) (ts : list Token) (l : Z) (tm : Token).

(** C4. On a terminated line, [matchToBase] returns the lexeme that the
    grammar [literal] gives for the format and leaves the cursor on the
    characters that [literal] leaves; when the format does not match it
    returns the empty string and the pending characters are as before.
    The token stack, the line counter and [tmp] are untouched. *)
Theorem matchToBase_literal vs bs b p ts l tm :
  tape b = MkTape p false -> newline ∉ vs -> line_pending p ->
  yields (matchToBase u vs bs) (MkLexer ts b l tm)
    (from_option fst EMPTYSTRING (literal vs bs p))
    (MkLexer ts (MkTape (from_option snd p (literal vs bs p)) false) l tm).
Proof.
  intros Hb Hvs Hp. eapply yields_tape; [apply sim_matchToBase|exact Hb|].
  rewrite matchToBase_literal_tape by done. by destruct (literal vs bs p) as [[lex rest]|].
Qed.

(** C3. On a terminated line that starts with a number, [ScanNumber]
    returns the token of the first format of [numberTypes] that matches,
    or else of the plain integer, with the current line, stores it in
    [tmp] and leaves the cursor behind the literal. *)
Theorem ScanNumber_number b p ts l tm lex kind rest :
  tape b = MkTape p false -> line_pending p -> number p = Some (lex, kind, rest) ->
  yields (ScanNumber u) (MkLexer ts b l tm) (MkToken lex kind l)
    (MkLexer ts (MkTape rest false) l (MkToken lex kind l)).
Proof.
  intros Hb Hp Hn. eapply yields_tape; [apply sim_ScanNumber|exact Hb|].
  by rewrite ScanNumber_number_tape, Hn.
Qed.

(** C22. On a terminated line that starts with no number, [ScanNumber]
    returns an [ERROR] token with the empty lexeme and the pending
    characters are as before. *)
Theorem ScanNumber_error b p ts l tm :
  tape b = MkTape p false -> line_pending p -> number p = None ->
  yields (ScanNumber u) (MkLexer ts b l tm) (MkToken EMPTYSTRING ERROR l)
    (MkLexer ts (MkTape p false) l (MkToken EMPTYSTRING ERROR l)).
Proof.
  intros Hb Hp Hn. eapply yields_tape; [apply sim_ScanNumber|exact Hb|].
  by rewrite ScanNumber_number_tape, Hn.
Qed.

(** C16. A lexeme that [matchToBase] returns on a terminated line is not
    empty exactly when the format matched, and then it is a prefix of the
    pending characters and the cursor is left right behind it, except in
    one case: after a zero, the point and zeros, a character that is
    neither a zero nor a positive digit is dropped from the input. *)
Theorem matchToBase_consumes vs bs b p ts l tm lex st' :
  tape b = MkTape p false -> newline ∉ vs -> line_pending p ->
  matchToBase u vs bs (MkLexer ts b l tm) = Some (lex, st') -> lex <> EMPTYSTRING ->
  exists rest, tape (input st') = MkTape rest false /\
    (p = lex ++ rest \/
     exists y, p = lex ++ y :: rest /\ vs = DOTSTRING /\
               isPositiveDigitInBase y bs = false /\ is_zero y = false).
Proof.
  intros Hb Hvs Hp Hm Hlex.
  pose proof (matchToBase_literal_tape u vs bs p ts l tm Hvs Hp) as Ht.
  destruct (literal vs bs p) as [[lx rs]|] eqn:El;
    destruct (yields_tape _ _ b _ _ _ _ _ _ (sim_matchToBase u vs bs) Hb Ht)
      as (st1 & E & Hv);
    rewrite Hm in E; injection E as -> <-; [|done].
  exists rs. split; [by injection Hv|]. by apply literal_split.
Qed.

End Refinement.

(** ** After a zero and the point *)

(** The real number that starts with ["0."], its zeros [zs] and a
    character [y] that is no digit to go on with. *)
Lemma literal_zero_point zs y rest :
  Forall (fun c => is_zero c = true) zs -> is_zero y = false ->
  isPositiveDigitInBase y 10 = false ->
  literal DOTSTRING 10 (chars "0." ++ zs ++ y :: rest) =
  if negb (empty zs) && (y =? newline)%char then None
  else Some (chars "0." ++ zs, rest).
Proof.
  intros Hzs Hy Hp. unfold literal. cbn [app chars list_ascii_of_string is_zero].
  change (after_prefix DOTSTRING ("."%char :: zs ++ y :: rest)) with (Some (zs ++ y :: rest)).
  change (negb (string_eqb DOTSTRING DOTSTRING)) with false. cbn match.
  rewrite (span_intro is_zero zs (y :: rest) Hzs Hy). cbn [fst snd].
  by rewrite Hp.
Qed.

(** The formats with a marker do not match a zero followed by the point. *)
Lemma literal_zero_other vs bs q :
  after_prefix vs q = None -> literal vs bs ("0"%char :: q) = None.
Proof. intros H. unfold literal. cbn [is_zero]. by rewrite H. Qed.

Section ZeroPoint.
Context {B : Type} `{!Cursor B}.
Variable u : Uninit.
Implicit Types (b : B) (ts : list Token) (l : Z) (tm : Token).

(** C17. After ["0."] and zeros, a character that is neither a zero, nor
    a positive digit, nor a newline that follows a zero, is consumed with
    the real number and is not part of its lexeme: [ScanNumber] returns
    ["0."] and the zeros, and the cursor is left behind that character,
    which is lost.  A newline lost this way is not counted. *)
Theorem ScanNumber_drops_character b zs y rest ts l tm :
  tape b = MkTape (chars "0." ++ zs ++ y :: rest) false ->
  line_pending (y :: rest) ->
  Forall (fun c => is_zero c = true) zs -> is_zero y = false ->
  isPositiveDigitInBase y 10 = false -> zs = [] \/ y <> newline ->
  yields (ScanNumber u) (MkLexer ts b l tm) (MkToken (chars "0." ++ zs) REALNUM l)
    (MkLexer ts (MkTape rest false) l (MkToken (chars "0." ++ zs) REALNUM l)).
Proof.
  intros Hb Hl Hzs Hy Hp Hn. eapply yields_tape; [apply sim_ScanNumber|exact Hb|].
  rewrite ScanNumber_number_tape
    by (unfold line_pending; rewrite !elem_of_app; auto).
  unfold number, numberTypes. cbn [first_literal validate_string base tokenType].
  rewrite (literal_zero_point zs y rest Hzs Hy Hp).
  destruct Hn as [->|Hn]; [done|].
  apply Ascii.eqb_neq in Hn. by rewrite Hn, andb_false_r.
Qed.

(** C18. ["0."] followed by zeros and the end of the line is not a real
    number: the newline met in the zeros undoes the attempt, every
    character is pushed back, and [ScanNumber] returns the plain integer
    ["0"], leaving the point and the zeros to be scanned. *)
Theorem ScanNumber_zeros_before_newline b z zs rest ts l tm :
  tape b = MkTape (chars "0." ++ (z :: zs) ++ newline :: rest) false ->
  Forall (fun c => is_zero c = true) (z :: zs) ->
  yields (ScanNumber u) (MkLexer ts b l tm) (MkToken (chars "0") NUM l)
    (MkLexer ts (MkTape (chars "." ++ (z :: zs) ++ newline :: rest) false) l
       (MkToken (chars "0") NUM l)).
Proof.
  intros Hb Hzs. eapply yields_tape; [apply sim_ScanNumber|exact Hb|].
  rewrite ScanNumber_number_tape
    by (unfold line_pending; rewrite !elem_of_app, !elem_of_cons; auto).
  unfold number, numberTypes. cbn [first_literal validate_string base tokenType].
  rewrite (literal_zero_point (z :: zs) newline rest Hzs eq_refl eq_refl).
  cbn [empty negb andb chars list_ascii_of_string app]. rewrite Ascii.eqb_refl.
  by rewrite !literal_zero_other by reflexivity.
Qed.

End ZeroPoint.

(** ** The theorems at work *)

Lemma matchToBase_literal_witness :
  yields (matchToBase uninit_zero BASE08STRING 8)
    (MkLexer [] (InputBuffer.of_stream (chars "17x08;" ++ [newline])) 1
       (MkToken EMPTYSTRING ERROR 1))
    (chars "17x08")
    (MkLexer [] (MkTape (chars ";" ++ [newline]) false) 1 (MkToken EMPTYSTRING ERROR 1)).
Proof.
  apply (matchToBase_literal uninit_zero BASE08STRING 8
           (InputBuffer.of_stream (chars "17x08;" ++ [newline]))
           (chars "17x08;" ++ [newline]));
    [reflexivity | by_decide | by_decide].
Defined.

Lemma ScanNumber_number_witness :
  yields (ScanNumber uninit_zero)
    (MkLexer [] (InputBuffer.of_stream (chars "0.5+" ++ [newline])) 1
       (MkToken EMPTYSTRING ERROR 1))
    (MkToken (chars "0.5") REALNUM 1)
    (MkLexer [] (MkTape (chars "+" ++ [newline]) false) 1 (MkToken (chars "0.5") REALNUM 1)).
Proof.
  apply (ScanNumber_number uninit_zero
           (InputBuffer.of_stream (chars "0.5+" ++ [newline]))
           (chars "0.5+" ++ [newline]));
    [reflexivity | by_decide | reflexivity].
Defined.

Lemma ScanNumber_error_witness :
  yields (ScanNumber uninit_zero)
    (MkLexer [] (InputBuffer.of_stream (chars "x1" ++ [newline])) 7
       (MkToken EMPTYSTRING ERROR 1))
    (MkToken EMPTYSTRING ERROR 7)
    (MkLexer [] (MkTape (chars "x1" ++ [newline]) false) 7 (MkToken EMPTYSTRING ERROR 7)).
Proof.
  apply (ScanNumber_error uninit_zero
           (InputBuffer.of_stream (chars "x1" ++ [newline])) (chars "x1" ++ [newline]));
    [reflexivity | by_decide | reflexivity].
Defined.

Lemma matchToBase_consumes_witness :
  exists rest,
    tape (InputBuffer.of_stream [newline]) = MkTape rest false /\
    (chars "0.0+" ++ [newline] = chars "0.0" ++ rest \/
     exists y, chars "0.0+" ++ [newline] = chars "0.0" ++ y :: rest /\
               DOTSTRING = DOTSTRING /\ isPositiveDigitInBase y 10 = false /\
               is_zero y = false).
Proof.
  apply (matchToBase_consumes uninit_zero DOTSTRING 10
           (InputBuffer.of_stream (chars "0.0+" ++ [newline])) (chars "0.0+" ++ [newline])
           [] 1 (MkToken EMPTYSTRING ERROR 1) (chars "0.0")
           (MkLexer [] (InputBuffer.of_stream [newline]) 1 (MkToken EMPTYSTRING ERROR 1)));
    [reflexivity | by_decide | by_decide | vm_compute; reflexivity | discriminate].
Defined.

Lemma ScanNumber_drops_character_witness :
  yields (ScanNumber uninit_zero)
    (MkLexer [] (InputBuffer.of_stream (chars "0." ++ chars "00" ++ ";"%char :: [newline]))
       1 (MkToken EMPTYSTRING ERROR 1))
    (MkToken (chars "0." ++ chars "00") REALNUM 1)
    (MkLexer [] (MkTape [newline] false) 1 (MkToken (chars "0." ++ chars "00") REALNUM 1)).
Proof.
  apply (ScanNumber_drops_character uninit_zero
           (InputBuffer.of_stream (chars "0." ++ chars "00" ++ ";"%char :: [newline]))
           (chars "00") ";" [newline]);
    [reflexivity | by_decide | by repeat constructor | reflexivity | reflexivity
    | by right].
Defined.

Lemma ScanNumber_zeros_before_newline_witness :
  yields (ScanNumber uninit_zero)
    (MkLexer [] (InputBuffer.of_stream (chars "0." ++ chars "00" ++ newline :: chars "x"))
       1 (MkToken EMPTYSTRING ERROR 1))
    (MkToken (chars "0") NUM 1)
    (MkLexer [] (MkTape (chars "." ++ chars "00" ++ newline :: chars "x") false) 1
       (MkToken (chars "0") NUM 1)).
Proof.
  apply (ScanNumber_zeros_before_newline uninit_zero
           (InputBuffer.of_stream (chars "0." ++ chars "00" ++ newline :: chars "x"))
           "0" (chars "0") (chars "x"));
    [reflexivity | by repeat constructor].
Defined.
