(* ===== verification/Skip.v ===== *)
(** * SkipSpace

    What [SkipSpace] does on a stream whose end has not been hit: it
    removes the longest run of white space, says whether there was any,
    and adds to the line counter the newlines of the run.  When the run
    reaches the end of the stream the loop body runs once more on a fetch
    that fails, and the character fetched last is counted a second time. *)

From Stdlib Require Import Ascii String ZArith Lia List Bool.
From stdpp Require Import base tactics list strings.
From S2P Require Import Prelude Chars Cursor Token Lexer Sim Run.
Import ListNotations.
Local Open Scope Z_scope.
Local Open Scope comp_scope.

(** [c == '\n'] as the integer added to the line counter. *)
Definition nl (c : ascii) : Z := if (c =? newline)%char then 1 else 0.

(** The newlines of a string. *)
Fixpoint newlines (s : cstring) : Z :=
  match s with
  | [] => 0
  | c :: r => nl c + newlines r
  end.

(** The result of [SkipSpace] on the pending characters [p], from line
    [l]: whether white space was met, the tape left and the line reached.
    [j] is the initial value of the local [c]. *)
Definition skip_result (j : ascii) (p : cstring) (l : Z) : bool * Tape * Z :=
  match span isspace p with
  | (ws, y :: r) => (negb (empty ws), MkTape (y :: r) false, l + newlines ws)
  | (ws, []) =>
      (negb (empty ws), MkTape [] true, l + newlines ws + nl (default j (last ws)))
  end.

(** ** Counting newlines *)

Lemma nl_range c : 0 <= nl c <= 1.
Proof. unfold nl. destruct (c =? newline)%char; lia. Qed.

Lemma nl_not_space c : isspace c = false -> nl c = 0.
Proof.
  unfold nl. destruct (Ascii.eqb_spec c newline) as [->|]; [|done].
  by rewrite isspace_newline.
Qed.

Lemma newlines_app s r : newlines (s ++ r) = newlines s + newlines r.
Proof. induction s as [|c s IH]; simpl; lia. Qed.

Lemma newlines_nonneg s : 0 <= newlines s.
Proof. induction s as [|c s IH]; simpl; [lia|]. pose proof (nl_range c). lia. Qed.

Lemma newlines_zero s : newline ∉ s -> newlines s = 0.
Proof.
  induction s as [|c s IH]; [done|]. intros [Hc Hs]%not_elem_of_cons. simpl.
  rewrite (IH Hs). unfold nl. destruct (Ascii.eqb_spec c newline); [congruence | lia].
Qed.

Lemma newlines_not_space s : Forall (fun c => isspace c = false) s -> newlines s = 0.
Proof.
  induction 1 as [|c s Hc _ IH]; [done|]. simpl. rewrite IH, (nl_not_space _ Hc). lia.
Qed.

(** ** The loop *)

Lemma skip_run_noeof c sp p l :
  skip_run c sp p false (l + nl c) =
  match span isspace (c :: p) with
  | (ws, y :: r) => (y, sp || negb (empty ws), MkTape r false, l + newlines ws)
  | (ws, []) =>
      (default c (last p), true, MkTape [] true,
       l + newlines ws + nl (default c (last p)))
  end.
Proof.
  revert c sp l. induction p as [|x r IH]; intros c sp l; cbn [skip_run].
  - destruct (isspace c) eqn:E.
    + rewrite (span_cons_true _ _ _ E), span_nil. simpl. fold (nl c).
      by rewrite Z.add_0_r.
    + rewrite (span_cons_false _ _ _ E), (nl_not_space _ E), orb_false_r.
      simpl. by rewrite Z.add_0_r.
  - destruct (isspace c) eqn:E.
    + fold (nl x). rewrite IH, (span_cons_true _ _ _ E), default_last_cons.
      destruct (span isspace (x :: r)) as [ws [|y r']]; cbn [fst snd newlines];
        rewrite ?orb_true_r, ?Z.add_assoc; reflexivity.
    + rewrite (span_cons_false _ _ _ E), (nl_not_space _ E), orb_false_r.
      simpl. by rewrite Z.add_0_r.
Qed.

Section OnTape.
Variable u : Uninit.

(** [SkipSpace] on a stream whose end has not been hit. *)
Lemma SkipSpace_tape p ts l tm :
  SkipSpace u (MkLexer ts (MkTape p false) l tm) =
  Some (fst (fst (skip_result (uc_SkipSpace u) p l)),
        MkLexer ts (snd (fst (skip_result (uc_SkipSpace u) p l)))
          (snd (skip_result (uc_SkipSpace u) p l)) tm).
Proof.
  unfold SkipSpace, skip_result. lex_run.
  erewrite bind_Some by (apply skip_loop_run; lia). lex_run.
  destruct p as [|c q]; lex_reduce.
  - rewrite span_nil. cbn [skip_run fst snd last default newlines empty negb].
    lex_run. fold (nl (uc_SkipSpace u)). by rewrite Z.add_0_r.
  - fold (nl c). rewrite skip_run_noeof.
    destruct (span isspace (c :: q)) as [ws [|y r]] eqn:E; lex_run; [|done].
    pose proof (span_app isspace (c :: q)) as Happ. rewrite E in Happ.
    simpl in Happ. rewrite app_nil_r in Happ. subst ws.
    by rewrite default_last_cons.
Qed.

End OnTape.

(** Nothing to skip: the stream starts with a character that is not white
    space. *)
Lemma skip_result_nonspace j c r l :
  isspace c = false -> skip_result j (c :: r) l = (false, MkTape (c :: r) false, l).
Proof.
  intros E. unfold skip_result. rewrite (span_cons_false _ _ _ E). simpl.
  by rewrite Z.add_0_r.
Qed.

(** White space in front of such a character. *)
Lemma skip_result_spaces j ws c r l :
  Forall (fun x => isspace x = true) ws -> isspace c = false ->
  skip_result j (ws ++ c :: r) l = (negb (empty ws), MkTape (c :: r) false, l + newlines ws).
Proof.
  intros Hws E. unfold skip_result. by rewrite (span_intro _ ws (c :: r) Hws E).
Qed.

(** White space up to the end of the stream: the character fetched last
    is counted twice. *)
Lemma skip_result_end j ws l :
  Forall (fun x => isspace x = true) ws ->
  skip_result j ws l = (negb (empty ws), MkTape [] true,
                        l + newlines ws + nl (default j (last ws))).
Proof. intros Hws. unfold skip_result. by rewrite (span_all _ _ Hws). Qed.

(** ** SkipSpace over any cursor *)

Section Refinement.
Context {B : Type} `{!Cursor B}.
Variable u : Uninit.
Implicit Types (b : B) (ts : list Token) (l : Z) (tm : Token).

(** C6. In front of a character that is not white space, [SkipSpace]
    removes the white space, leaves the cursor on that character, says
    whether there was white space, and adds the number of newlines
    removed to the line counter. *)
Theorem SkipSpace_skips b ws c r ts l tm :
  tape b = MkTape (ws ++ c :: r) false ->
  Forall (fun x => isspace x = true) ws -> isspace c = false ->
  yields (SkipSpace u) (MkLexer ts b l tm) (negb (empty ws))
    (MkLexer ts (MkTape (c :: r) false) (l + newlines ws) tm).
Proof.
  intros Hb Hws Hc. eapply yields_tape; [apply sim_SkipSpace|exact Hb|].
  by rewrite SkipSpace_tape, (skip_result_spaces _ _ _ _ _ Hws Hc).
Qed.

(** C27. When only white space is left, [SkipSpace] removes it and hits
    the end of the stream; the line counter is increased by the newlines
    removed and once more if the character fetched last (the initial
    value of the local [c] if nothing was fetched) is a newline. *)
Theorem SkipSpace_end b ws ts l tm :
  tape b = MkTape ws false -> Forall (fun x => isspace x = true) ws ->
  yields (SkipSpace u) (MkLexer ts b l tm) (negb (empty ws))
    (MkLexer ts (MkTape [] true)
       (l + newlines ws + nl (default (uc_SkipSpace u) (last ws))) tm).
Proof.
  intros Hb Hws. eapply yields_tape; [apply sim_SkipSpace|exact Hb|].
  by rewrite SkipSpace_tape, (skip_result_end _ _ _ Hws).
Qed.

End Refinement.

(** ** The theorems at work *)

Lemma SkipSpace_skips_witness :
  yields (SkipSpace uninit_zero)
    (MkLexer [] (InputBuffer.of_stream (chars " " ++ [newline] ++ chars " x;")) 1
       (MkToken EMPTYSTRING ERROR 1))
    (negb (empty (chars " " ++ [newline] ++ chars " ")))
    (MkLexer [] (MkTape (chars "x;") false)
       (1 + newlines (chars " " ++ [newline] ++ chars " ")) (MkToken EMPTYSTRING ERROR 1)).
Proof.
  apply (SkipSpace_skips uninit_zero
           (InputBuffer.of_stream (chars " " ++ [newline] ++ chars " x;"))
           (chars " " ++ [newline] ++ chars " ") "x" (chars ";"));
    [reflexivity | by repeat constructor | reflexivity].
Defined.

Lemma SkipSpace_end_witness :
  yields (SkipSpace uninit_zero)
    (MkLexer [] (InputBuffer.of_stream (chars " " ++ [newline])) 1
       (MkToken EMPTYSTRING ERROR 1))
    (negb (empty (chars " " ++ [newline])))
    (MkLexer [] (MkTape [] true)
       (1 + newlines (chars " " ++ [newline])
        + nl (default (uc_SkipSpace uninit_zero) (last (chars " " ++ [newline]))))
       (MkToken EMPTYSTRING ERROR 1)).
Proof.
  apply (SkipSpace_end uninit_zero (InputBuffer.of_stream (chars " " ++ [newline]))
           (chars " " ++ [newline]));
    [reflexivity | by repeat constructor].
Defined.
