(* ===== verification/Idents.v ===== *)
(** * Identifiers and keywords

    The keyword table ([IsKeyword], [FindKeywordIndex]) against the table
    of names [reserved], and [ScanIdOrKeyword] against [identifier]: a
    letter followed by the longest run of letters and digits, a keyword
    when the run is spelled exactly as an entry of [keyword]. *)

From Stdlib Require Import Ascii String ZArith Lia List Bool.
From stdpp Require Import base tactics list strings.
From S2P Require Import Prelude Chars Cursor Token Lexer Sim Run Lines.
Import ListNotations.
Local Open Scope Z_scope.
Local Open Scope comp_scope.

(** The kind [ScanIdOrKeyword] gives to the lexeme [s]. *)
Definition word_kind (s : cstring) : TokenType :=
  if IsKeyword s then FindKeywordIndex s else ID.

(** The identifier or keyword at the head of [p]: lexeme, kind and the
    characters left. *)
Definition identifier (p : cstring) : option (cstring * TokenType * cstring) :=
  match p with
  | [] => None
  | c :: _ =>
      if isalpha c then
        Some (fst (span isalnum p), word_kind (fst (span isalnum p)), snd (span isalnum p))
      else None
  end.

(** ** The keyword table *)

Lemma IsKeyword_spec s : IsKeyword s = true <-> s ∈ keyword.
Proof. unfold IsKeyword. by rewrite IsKeyword_loop_In. Qed.

(** C33. [FindKeywordIndex] returns [ERROR] exactly on the strings that
    [IsKeyword] rejects: the two loops over the keyword table agree. *)
Theorem FindKeywordIndex_ERROR s : FindKeywordIndex s = ERROR <-> IsKeyword s = false.
Proof.
  unfold FindKeywordIndex, IsKeyword. apply FindKeywordIndex_loop_ERROR.
  intros j Hj. simpl in Hj.
  assert (Hc : j = 1%nat \/ j = 2%nat \/ j = 3%nat \/ j = 4%nat \/ j = 5%nat) by lia.
  by destruct Hc as [->|[->|[->|[->| ->]]]].
Qed.

(** The kind found for a keyword is the one whose name in [reserved] is
    the keyword: a keyword token prints its own lexeme as its kind. *)
Lemma FindKeywordIndex_loop_reserved s i kws :
  (forall j k, kws !! j = Some k ->
     nth (TokenType_to_nat (TokenType_of_nat (i + j + 1))) reserved EMPTYSTRING = k) ->
  IsKeyword_loop s kws = true ->
  nth (TokenType_to_nat (FindKeywordIndex_loop s i kws)) reserved EMPTYSTRING = s.
Proof.
  revert i. induction kws as [|k kws IH]; intros i Hk H; simpl in *; [done|].
  destruct (string_eqb s k) eqn:E.
  - apply string_eqb_eq in E as ->. specialize (Hk 0%nat k eq_refl).
    by rewrite Nat.add_0_r in Hk.
  - apply IH; [|done]. intros j k' Hj. specialize (Hk (S j) k' Hj).
    by replace (i + 1 + j + 1)%nat with (i + S j + 1)%nat by lia.
Qed.

(** C34. The kind that [FindKeywordIndex] returns for a keyword is the
    one whose name in [reserved] is that keyword, so [Print] writes a
    keyword token with its lexeme as the name of its kind. *)
Theorem FindKeywordIndex_reserved s :
  IsKeyword s = true ->
  nth (TokenType_to_nat (FindKeywordIndex s)) reserved EMPTYSTRING = s.
Proof.
  apply FindKeywordIndex_loop_reserved. intros j k Hj.
  do 5 (destruct j as [|j]; [by injection Hj as <-|]). done.
Qed.

Lemma FindKeywordIndex_keyword_kind s :
  is_keyword_kind (FindKeywordIndex s) = IsKeyword s.
Proof.
  unfold FindKeywordIndex, IsKeyword. simpl.
  repeat (destruct (string_eqb s _); [reflexivity|]). reflexivity.
Qed.

Lemma word_kind_cases s :
  (IsKeyword s = true /\ is_keyword_kind (word_kind s) = true) \/
  (IsKeyword s = false /\ word_kind s = ID).
Proof.
  unfold word_kind. destruct (IsKeyword s) eqn:E; [left | by right].
  by rewrite FindKeywordIndex_keyword_kind.
Qed.

(** The strings that [IsKeyword] accepts hold upper-case letters
    only, so a lexeme with a digit or a lower-case letter is never a
    keyword. *)
Theorem keyword_upper s :
  IsKeyword s = true -> Forall (fun c => isalpha c && (toupper (char_int c) =? char_int c)) s.
Proof.
  intros H%IsKeyword_spec. unfold keyword in H. simpl in H.
  repeat (apply elem_of_cons in H as [->|H]; [by repeat constructor|]).
  by apply elem_of_nil in H.
Qed.

(** ** The scanner *)

Lemma identifier_shape p lex kind rest :
  identifier p = Some (lex, kind, rest) ->
  p = lex ++ rest /\ Forall (fun c => isalnum c = true) lex /\
  starts_with_not isalnum rest /\ kind = word_kind lex /\
  exists c s, lex = c :: s /\ isalpha c = true.
Proof.
  destruct p as [|c r]; [done|]. unfold identifier.
  destruct (isalpha c) eqn:E; [|done]. intros [= <- <- <-].
  rewrite span_app. split_and!; [done|apply span_Forall|apply span_rest|done|].
  rewrite (span_cons_true _ _ _ (isalnum_alpha _ E)). eauto.
Qed.

Section Scanner.
Variable u : Uninit.

(** [ScanIdOrKeyword] on a terminated line. *)
Lemma ScanIdOrKeyword_tape p ts l tm :
  line_pending p ->
  ScanIdOrKeyword u (MkLexer ts (MkTape p false) l tm) =
  Some (match identifier p with
        | Some (lex, kind, rest) =>
            (MkToken lex kind l, MkLexer ts (MkTape rest false) l (MkToken lex kind l))
        | None =>
            (MkToken EMPTYSTRING ERROR (Token.line_no tm),
             MkLexer ts (MkTape p false) l (MkToken EMPTYSTRING ERROR (Token.line_no tm)))
        end).
Proof.
  intros Hp. destruct (line_pending_nonempty _ Hp) as (c & r & ->).
  unfold ScanIdOrKeyword, identifier. lex_run.
  destruct (isalpha c) eqn:E; lex_run; [|done].
  erewrite bind_Some by (apply ident_loop_run; simpl; lia). lex_reduce.
  rewrite scan_run_noeof.
  destruct (span_snd_line isalnum _ isalnum_newline Hp) as (y & r' & Hr & _).
  rewrite Hr. lex_run. norm_app. unfold word_kind.
  destruct (IsKeyword _); by lex_run.
Qed.

End Scanner.

(** ** The scanner over any cursor *)

Section Refinement.
Context {B : Type} `{!Cursor B}.
Variable u : Uninit.
Implicit Types (b : B) (p : cstring) (ts : list Token) (l : Z) (tm : Token).

(** C5. On a terminated line that starts with a letter,
    [ScanIdOrKeyword] returns the longest run of letters and digits as
    the lexeme, with the kind of the keyword it spells or else [ID] and
    the current line, stores the token in [tmp] and leaves the cursor
    behind the run. *)
Theorem ScanIdOrKeyword_identifier b p ts l tm lex kind rest :
  tape b = MkTape p false -> line_pending p -> identifier p = Some (lex, kind, rest) ->
  yields (ScanIdOrKeyword u) (MkLexer ts b l tm) (MkToken lex kind l)
    (MkLexer ts (MkTape rest false) l (MkToken lex kind l)).
Proof.
  intros Hb Hp Hi. eapply yields_tape; [apply sim_ScanIdOrKeyword|exact Hb|].
  by rewrite ScanIdOrKeyword_tape, Hi.
Qed.

(** C36. On a terminated line that starts with no letter,
    [ScanIdOrKeyword] returns an [ERROR] token with the empty lexeme,
    whose line is the line [tmp] had, and the pending characters are as
    before. *)
Theorem ScanIdOrKeyword_error b p ts l tm :
  tape b = MkTape p false -> line_pending p -> identifier p = None ->
  yields (ScanIdOrKeyword u) (MkLexer ts b l tm)
    (MkToken EMPTYSTRING ERROR (Token.line_no tm))
    (MkLexer ts (MkTape p false) l (MkToken EMPTYSTRING ERROR (Token.line_no tm))).
Proof.
  intros Hb Hp Hi. eapply yields_tape; [apply sim_ScanIdOrKeyword|exact Hb|].
  by rewrite ScanIdOrKeyword_tape, Hi.
Qed.

(** C23. A token that [ScanIdOrKeyword] returns on a terminated line
    with another kind than [ERROR] has as its lexeme a prefix of the
    pending characters that starts with a letter, holds letters and
    digits only and is followed by a character that is neither; its kind
    is a keyword kind when [IsKeyword] accepts the lexeme and [ID]
    otherwise; the cursor is left right behind the lexeme. *)
Theorem ScanIdOrKeyword_maximal b p ts l tm tok st' :
  tape b = MkTape p false -> line_pending p ->
  ScanIdOrKeyword u (MkLexer ts b l tm) = Some (tok, st') -> token_type tok <> ERROR ->
  exists c s rest,
    lexeme tok = c :: s /\ isalpha c = true /\ Forall (fun x => isalnum x = true) s
    /\ p = lexeme tok ++ rest /\ starts_with_not isalnum rest
    /\ tape (input st') = MkTape rest false
    /\ token_type tok = (if IsKeyword (lexeme tok) then FindKeywordIndex (lexeme tok) else ID).
Proof.
  intros Hb Hp Hs Hk.
  pose proof (ScanIdOrKeyword_tape u p ts l tm Hp) as Ht.
  destruct (identifier p) as [[[lx kd] rs]|] eqn:Ei;
    destruct (yields_tape _ _ b _ _ _ _ _ _ (sim_ScanIdOrKeyword u) Hb Ht)
      as (st1 & E & Hv);
    rewrite Hs in E; injection E as -> <-; [|done].
  apply identifier_shape in Ei as (-> & Hall & Hrest & -> & c & s & -> & Hc).
  exists c, s, rs. cbn [lexeme token_type]. split_and!; try done.
  - by apply Forall_cons_1 in Hall as [_ ?].
  - by injection Hv.
Qed.

End Refinement.

(** ** The theorems at work *)

Lemma ScanIdOrKeyword_identifier_witness :
  yields (ScanIdOrKeyword uninit_zero)
    (MkLexer [] (InputBuffer.of_stream (chars "WHILE(" ++ [newline])) 4
       (MkToken EMPTYSTRING ERROR 1))
    (MkToken (chars "WHILE") WHILE 4)
    (MkLexer [] (MkTape (chars "(" ++ [newline]) false) 4 (MkToken (chars "WHILE") WHILE 4)).
Proof.
  apply (ScanIdOrKeyword_identifier uninit_zero
           (InputBuffer.of_stream (chars "WHILE(" ++ [newline]))
           (chars "WHILE(" ++ [newline]));
    [reflexivity | by_decide | reflexivity].
Defined.

Lemma ScanIdOrKeyword_error_witness :
  yields (ScanIdOrKeyword uninit_zero)
    (MkLexer [] (InputBuffer.of_stream (chars "1a" ++ [newline])) 4
       (MkToken (chars "x") ID 2))
    (MkToken EMPTYSTRING ERROR 2)
    (MkLexer [] (MkTape (chars "1a" ++ [newline]) false) 4 (MkToken EMPTYSTRING ERROR 2)).
Proof.
  apply (ScanIdOrKeyword_error uninit_zero
           (InputBuffer.of_stream (chars "1a" ++ [newline])) (chars "1a" ++ [newline])
           [] 4 (MkToken (chars "x") ID 2));
    [reflexivity | by_decide | reflexivity].
Defined.

Lemma ScanIdOrKeyword_maximal_witness :
  exists c s rest,
    chars "x1" = c :: s /\ isalpha c = true /\ Forall (fun x => isalnum x = true) s
    /\ chars "x1+" ++ [newline] = chars "x1" ++ rest /\ starts_with_not isalnum rest
    /\ tape (InputBuffer.Mk (chars "+") [newline] false) = MkTape rest false
    /\ ID = (if IsKeyword (chars "x1") then FindKeywordIndex (chars "x1") else ID).
Proof.
  apply (ScanIdOrKeyword_maximal uninit_zero
           (InputBuffer.of_stream (chars "x1+" ++ [newline])) (chars "x1+" ++ [newline])
           [] 1 (MkToken EMPTYSTRING ERROR 1) (MkToken (chars "x1") ID 1)
           (MkLexer [] (InputBuffer.Mk (chars "+") [newline] false) 1
              (MkToken (chars "x1") ID 1)));
    [reflexivity | by_decide | vm_compute; reflexivity | discriminate].
Defined.

Lemma FindKeywordIndex_reserved_witness :
  nth (TokenType_to_nat (FindKeywordIndex (chars "THEN"))) reserved EMPTYSTRING = chars "THEN".
Proof. apply (FindKeywordIndex_reserved (chars "THEN")). reflexivity. Defined.

Lemma keyword_upper_witness :
  Forall (fun c => isalpha c && (toupper (char_int c) =? char_int c)) (chars "PRINT").
Proof. apply (keyword_upper (chars "PRINT")). reflexivity. Defined.
