(* ===== verification/Driver.v ===== *)
(** * GetToken and the token stack

    [GetToken] and [UngetToken] as a stack of returned tokens, and
    [GetToken] on a stream of terminated lines against the function
    [next_token]: white space is skipped, the character that follows
    selects the token ([token_at]), and the end of the stream gives
    [END_OF_FILE] on the line reached. *)

From Stdlib Require Import Ascii String ZArith Lia List Bool.
From stdpp Require Import base tactics list strings.
From S2P Require Import Prelude Chars Cursor Token Lexer Sim Run Lines Numbers Skip Idents.
Import ListNotations.
Local Open Scope Z_scope.
Local Open Scope comp_scope.

(** The two-character operators: the kind and the characters left after
    [c] (one of [<], [>]) followed by [r]. *)
Definition relop (c : ascii) (r : cstring) : TokenType * cstring :=
  match r with
  | d :: r' =>
      if (c =? "<")%char then
        if (d =? "=")%char then (LTEQ, r')
        else if (d =? ">")%char then (NOTEQUAL, r')
        else (LESS, r)
      else
        if (d =? "=")%char then (GTEQ, r') else (GREATER, r)
  | [] => (if (c =? "<")%char then LESS else GREATER, [])
  end.

(** The token at the head of [p], which does not start with white space:
    lexeme, kind and the characters left. *)
Definition token_at (p : cstring) : cstring * TokenType * cstring :=
  match p with
  | [] => (EMPTYSTRING, END_OF_FILE, [])
  | c :: r =>
      match switch_kind c with
      | Some k => (EMPTYSTRING, k, r)
      | None =>
          if (c =? "<")%char || (c =? ">")%char then
            (EMPTYSTRING, fst (relop c r), snd (relop c r))
          else if isdigit c then default (EMPTYSTRING, ERROR, p) (number p)
          else if isalpha c then default (EMPTYSTRING, ERROR, p) (identifier p)
          else (EMPTYSTRING, ERROR, r)
      end
  end.

(** A value of the local [c] of [GetToken] that selects no token: with it
    a fetch that fails at the end of the stream leads to [END_OF_FILE]. *)
Definition benign (c : ascii) : bool :=
  match switch_kind c with
  | Some _ => false
  | None => negb ((c =? "<")%char || (c =? ">")%char || isdigit c || isalpha c)
  end.

(** [GetToken] on the pending characters [p] from line [l]: the token,
    the tape left and the line reached.  [j] is the initial value of the
    local [c] of [SkipSpace]. *)
Definition next_token (j : ascii) (p : cstring) (l : Z) : Token * Tape * Z :=
  let s := skip_result j p l in
  match pending (snd (fst s)) with
  | [] => (MkToken EMPTYSTRING END_OF_FILE (snd s), MkTape [] true, snd s)
  | c :: r =>
      let x := token_at (c :: r) in
      (MkToken (fst (fst x)) (snd (fst x)) (snd s), MkTape (snd x) false, snd s)
  end.

(** ** The token stack *)

Section Stack.
Context {B : Type} `{!Cursor B}.
Variable u : Uninit.
Implicit Types (st : LexicalAnalyzer B) (tok : Token).

Lemma UngetToken_run tok st :
  UngetToken tok st = Some (token_type tok, set_tokens (tok :: tokens st) st).
Proof. reflexivity. Qed.

(** With a token on the stack, [GetToken] pops it and reads no input. *)
Lemma GetToken_pop tok ts (b : B) l tm :
  GetToken u (MkLexer (tok :: ts) b l tm) = Some (tok, MkLexer ts b l tok).
Proof. reflexivity. Qed.

(** C8. [GetToken] after [UngetToken] returns the token pushed, equal
    in every field, reads no input and leaves the stack, the cursor and
    the line counter as they were before the push. *)
Theorem UngetToken_GetToken tok st :
  (UngetToken tok ;; GetToken u) st = Some (tok, set_tmp tok st).
Proof. by destruct st. Qed.

(** C24. The token stack is last in, first out: with the tokens [toks]
    on top of the stack, as many calls of [GetToken] return them from the
    top down and read no input. *)
Theorem GetTokens_pop toks ts (b : B) l tm :
  GetTokens u (length toks) (MkLexer (toks ++ ts) b l tm) =
  Some (toks, MkLexer ts b l (default tm (last toks))).
Proof.
  revert tm. induction toks as [|tok toks IH]; intros tm; [done|].
  cbn [GetTokens length app]. rewrite (bind_Some _ _ _ _ _ (GetToken_pop tok _ b l tm)).
  rewrite (bind_Some _ _ _ _ _ (IH tok)). by rewrite default_last_cons.
Qed.

End Stack.

(** ** The dispatch *)

Lemma switch_kind_not_space c k : switch_kind c = Some k -> isspace c = false.
Proof.
  unfold switch_kind. intros H.
  repeat match type of H with
         | (if (?c =? ?d)%char then _ else _) = _ =>
             destruct (Ascii.eqb_spec c d) as [->|]; [reflexivity|]
         end.
  discriminate.
Qed.

Lemma switch_kind_not_end c k : switch_kind c = Some k -> k <> END_OF_FILE.
Proof.
  unfold switch_kind. intros H.
  repeat match type of H with
         | (if ?b then _ else _) = _ => destruct b; [by injection H as <-|]
         end.
  discriminate.
Qed.

Lemma relop_length c r : (length (snd (relop c r)) <= length r)%nat.
Proof. unfold relop. repeat case_match; simpl; lia. Qed.

Lemma identifier_alpha c r : isalpha c = true -> is_Some (identifier (c :: r)).
Proof. intros H. unfold identifier. by rewrite H. Qed.

Lemma identifier_length p lex kind rest :
  identifier p = Some (lex, kind, rest) -> (length rest < length p)%nat.
Proof.
  intros (-> & _ & _ & _ & c & s & -> & _)%identifier_shape.
  rewrite length_app. simpl. lia.
Qed.

(** Every token takes at least one character. *)
Lemma token_at_length c r : (length (snd (token_at (c :: r))) < length (c :: r))%nat.
Proof.
  unfold token_at. pose proof (relop_length c r).
  repeat case_match; cbn [fst snd default length] in *; try lia.
  - destruct (number_digit c r) as [[[lex kind] rest] E]; [done|].
    rewrite E. apply (number_length _ _ _ _ E).
  - destruct (identifier_alpha c r) as [[[lex kind] rest] E]; [done|].
    rewrite E. apply (identifier_length _ _ _ _ E).
Qed.

(** ** GetToken on a stream of terminated lines *)

Lemma benign_cases c :
  benign c = true ->
  switch_kind c = None /\ (c =? "<")%char = false /\ (c =? ">")%char = false
  /\ isdigit c = false /\ isalpha c = false.
Proof.
  unfold benign. destruct (switch_kind c); [done|].
  intros H%negb_true_iff. by repeat apply orb_false_iff in H as [H ?].
Qed.

(** What is left after the white space of a terminated stream: nothing,
    or a character that is not white space on a terminated line. *)
Lemma span_isspace_terminated p ws c r :
  terminated p -> span isspace p = (ws, c :: r) ->
  isspace c = false /\ line_pending r /\ terminated r.
Proof.
  intros Hp E. pose proof (span_rest isspace p) as Hc.
  pose proof (terminated_span isspace p Hp) as Ht. rewrite E in Hc, Ht. simpl in Hc, Ht.
  split_and!; [done| |by eapply terminated_cons].
  apply (terminated_line_pending c); [done|].
  destruct (Ascii.eqb_spec c newline) as [->|]; [|done]. by rewrite isspace_newline in Hc.
Qed.

(** [next_token] in front of a token, and at the end of the stream. *)
Lemma next_token_spaces j ws c r l :
  Forall (fun x => isspace x = true) ws -> isspace c = false ->
  next_token j (ws ++ c :: r) l =
  (MkToken (fst (fst (token_at (c :: r)))) (snd (fst (token_at (c :: r)))) (l + newlines ws),
   MkTape (snd (token_at (c :: r))) false, l + newlines ws).
Proof. intros Hws Hc. unfold next_token. by rewrite (skip_result_spaces _ _ _ _ _ Hws Hc). Qed.

Lemma next_token_end j ws l :
  Forall (fun x => isspace x = true) ws ->
  next_token j ws l =
  (MkToken EMPTYSTRING END_OF_FILE (l + newlines ws + nl (default j (last ws))),
   MkTape [] true, l + newlines ws + nl (default j (last ws))).
Proof. intros Hws. unfold next_token. by rewrite (skip_result_end _ _ _ Hws). Qed.

Section Dispatch.
Variable u : Uninit.

Lemma GetToken_tape p l tm :
  terminated p -> benign (uc_GetToken u) = true ->
  GetToken u (MkLexer [] (MkTape p false) l tm) =
  Some (fst (fst (next_token (uc_SkipSpace u) p l)),
        MkLexer [] (snd (fst (next_token (uc_SkipSpace u) p l)))
          (snd (next_token (uc_SkipSpace u) p l))
          (fst (fst (next_token (uc_SkipSpace u) p l)))).
Proof.
  intros Hp (Hj1 & Hj2 & Hj3 & Hj4 & Hj5)%benign_cases. unfold GetToken. lex_run.
  rewrite (bind_Some_pair _ _ _ _ (SkipSpace_tape u p [] l tm)).
  unfold next_token, skip_result.
  destruct (span isspace p) as [ws [|c r]] eqn:E; lex_run.
  - rewrite Hj1, Hj2, Hj3, Hj4, Hj5. by lex_run.
  - destruct (span_isspace_terminated _ _ _ _ Hp E) as (Hc & Hr & _).
    destruct (line_pending_nonempty _ Hr) as (d & r' & ->).
    unfold token_at, relop. destruct (switch_kind c); lex_run; [done|].
    destruct (c =? "<")%char; lex_run.
    { repeat (case_match; lex_run); done. }
    destruct (c =? ">")%char; lex_run.
    { repeat (case_match; lex_run); done. }
    destruct (isdigit c) eqn:Ed; lex_run.
    { rewrite ScanNumber_number_tape by (by apply elem_of_cons; right).
      by destruct (number_digit c (d :: r') Ed) as [[[lex kind] rest] ->]. }
    destruct (isalpha c) eqn:Ea; lex_run; [|done].
    rewrite ScanIdOrKeyword_tape by (by apply elem_of_cons; right).
    by destruct (identifier_alpha c (d :: r') Ea) as [[[lex kind] rest] ->].
Qed.

(** A character that is a token of its own, wherever the stream ends. *)
Lemma GetToken_tape_operator ws c r k l tm :
  Forall (fun x => isspace x = true) ws -> switch_kind c = Some k ->
  GetToken u (MkLexer [] (MkTape (ws ++ c :: r) false) l tm) =
  Some (MkToken EMPTYSTRING k (l + newlines ws),
        MkLexer [] (MkTape r false) (l + newlines ws)
          (MkToken EMPTYSTRING k (l + newlines ws))).
Proof.
  intros Hws Hk. unfold GetToken. lex_run.
  rewrite (bind_Some_pair _ _ _ _ (SkipSpace_tape u _ [] l tm)).
  rewrite (skip_result_spaces _ _ _ _ _ Hws (switch_kind_not_space _ _ Hk)).
  lex_run. rewrite Hk. by lex_run.
Qed.

(** The operators of one or two characters, followed by a character. *)
Lemma GetToken_tape_relop ws c d r l tm :
  Forall (fun x => isspace x = true) ws -> (c =? "<")%char || (c =? ">")%char = true ->
  GetToken u (MkLexer [] (MkTape (ws ++ c :: d :: r) false) l tm) =
  Some (MkToken EMPTYSTRING (fst (relop c (d :: r))) (l + newlines ws),
        MkLexer [] (MkTape (snd (relop c (d :: r))) false) (l + newlines ws)
          (MkToken EMPTYSTRING (fst (relop c (d :: r))) (l + newlines ws))).
Proof.
  intros Hws Hc. unfold GetToken. lex_run.
  rewrite (bind_Some_pair _ _ _ _ (SkipSpace_tape u _ [] l tm)).
  assert (Hs : isspace c = false).
  { by apply orb_true_iff in Hc as [->%Ascii.eqb_eq| ->%Ascii.eqb_eq]. }
  rewrite (skip_result_spaces _ _ _ _ _ Hws Hs). lex_run. unfold relop.
  apply orb_true_iff in Hc as [->%Ascii.eqb_eq| ->%Ascii.eqb_eq];
    cbn [switch_kind Ascii.eqb Bool.eqb]; lex_run;
    repeat (case_match; lex_run); done.
Qed.

(** White space up to the end of the stream, terminated or not. *)
Lemma GetToken_tape_spaces ws l tm :
  Forall (fun x => isspace x = true) ws -> benign (uc_GetToken u) = true ->
  GetToken u (MkLexer [] (MkTape ws false) l tm) =
  Some (fst (fst (next_token (uc_SkipSpace u) ws l)),
        MkLexer [] (MkTape [] true) (snd (next_token (uc_SkipSpace u) ws l))
          (fst (fst (next_token (uc_SkipSpace u) ws l)))).
Proof.
  intros Hws (Hj1 & Hj2 & Hj3 & Hj4 & Hj5)%benign_cases. unfold GetToken. lex_run.
  rewrite (bind_Some_pair _ _ _ _ (SkipSpace_tape u _ [] l tm)).
  rewrite (next_token_end _ _ _ Hws), (skip_result_end _ _ _ Hws). lex_run.
  rewrite Hj1, Hj2, Hj3, Hj4, Hj5. by lex_run.
Qed.

(** At the end of the stream, a local [c] that holds a character of the
    [switch] makes [GetToken] return the token of that character. *)
Lemma GetToken_tape_junk k e l tm :
  switch_kind (uc_GetToken u) = Some k ->
  exists l', GetToken u (MkLexer [] (MkTape [] e) l tm) =
             Some (MkToken EMPTYSTRING k l',
                   MkLexer [] (MkTape [] true) l' (MkToken EMPTYSTRING k l')).
Proof.
  intros Hk. unfold GetToken, SkipSpace. lex_run.
  erewrite bind_Some by (apply skip_loop_run; simpl; lia). cbn [skip_run pending hit_eof].
  destruct e; lex_run; rewrite Hk; lex_run; by eexists.
Qed.

(** Once the end of the stream has been hit, [GetToken] stays there. *)
Lemma GetToken_tape_end l tm :
  benign (uc_GetToken u) = true ->
  GetToken u (MkLexer [] (MkTape [] true) l tm) =
  Some (MkToken EMPTYSTRING END_OF_FILE (l + nl (uc_SkipSpace u)),
        MkLexer [] (MkTape [] true) (l + nl (uc_SkipSpace u))
          (MkToken EMPTYSTRING END_OF_FILE (l + nl (uc_SkipSpace u)))).
Proof.
  intros (Hj1 & Hj2 & Hj3 & Hj4 & Hj5)%benign_cases. unfold GetToken, SkipSpace. lex_run.
  erewrite bind_Some by (apply skip_loop_run; simpl; lia). cbn [skip_run pending hit_eof].
  lex_run. rewrite Hj1, Hj2, Hj3, Hj4, Hj5. by lex_run.
Qed.

End Dispatch.

(** ** GetToken over any cursor *)

Section Refinement.
Context {B : Type} `{!Cursor B}.
Variable u : Uninit.
Hypothesis benign_GetToken : benign (uc_GetToken u) = true.
Implicit Types (b : B) (p : cstring) (l : Z) (tm : Token).

(** C2. On a stream of terminated lines whose end has not been hit, and
    with no token on the stack, [GetToken] returns the token that
    [next_token] gives, stores it in [tmp], and leaves the cursor and the
    line counter where [next_token] says. *)
Theorem GetToken_next_token b p l tm :
  tape b = MkTape p false -> terminated p ->
  yields (GetToken u) (MkLexer [] b l tm)
    (fst (fst (next_token (uc_SkipSpace u) p l)))
    (MkLexer [] (snd (fst (next_token (uc_SkipSpace u) p l)))
       (snd (next_token (uc_SkipSpace u) p l))
       (fst (fst (next_token (uc_SkipSpace u) p l)))).
Proof.
  intros Hb Hp. eapply yields_tape; [apply sim_GetToken|exact Hb|].
  by apply GetToken_tape.
Qed.

(** C25. After white space [ws], a character of the [switch] that stands
    for a token of its own gives that token, with the empty lexeme, on
    the line reached by counting the newlines of [ws]; the cursor is left
    behind the character. *)
Theorem GetToken_operator b ws c r k l tm :
  tape b = MkTape (ws ++ c :: r) false ->
  Forall (fun x => isspace x = true) ws -> switch_kind c = Some k ->
  yields (GetToken u) (MkLexer [] b l tm) (MkToken EMPTYSTRING k (l + newlines ws))
    (MkLexer [] (MkTape r false) (l + newlines ws) (MkToken EMPTYSTRING k (l + newlines ws))).
Proof.
  intros Hb Hws Hk. eapply yields_tape; [apply sim_GetToken|exact Hb|].
  by apply GetToken_tape_operator.
Qed.

(** C21. After white space, [<] followed by [=] is [LTEQ], followed by
    [>] is [NOTEQUAL], and followed by another character is [LESS] with
    that character still to be scanned; [>] followed by [=] is [GTEQ] and
    followed by another character is [GREATER] with that character still
    to be scanned.  The lexeme is empty and the line is the one reached
    by counting the newlines of the white space. *)
Theorem GetToken_relop b ws c d r l tm :
  tape b = MkTape (ws ++ c :: d :: r) false ->
  Forall (fun x => isspace x = true) ws -> (c =? "<")%char || (c =? ">")%char = true ->
  yields (GetToken u) (MkLexer [] b l tm)
    (MkToken EMPTYSTRING (fst (relop c (d :: r))) (l + newlines ws))
    (MkLexer [] (MkTape (snd (relop c (d :: r))) false) (l + newlines ws)
       (MkToken EMPTYSTRING (fst (relop c (d :: r))) (l + newlines ws))).
Proof.
  intros Hb Hws Hc. eapply yields_tape; [apply sim_GetToken|exact Hb|].
  by apply GetToken_tape_relop.
Qed.


End Refinement.

(** ** The theorems at work *)

Lemma GetToken_next_token_witness :
  yields (GetToken uninit_zero)
    (MkLexer [] (InputBuffer.of_stream ([newline] ++ chars " <=1" ++ [newline])) 1
       (MkToken EMPTYSTRING ERROR 1))
    (fst (fst (next_token "000" ([newline] ++ chars " <=1" ++ [newline]) 1)))
    (MkLexer []
       (snd (fst (next_token "000" ([newline] ++ chars " <=1" ++ [newline]) 1)))
       (snd (next_token "000" ([newline] ++ chars " <=1" ++ [newline]) 1))
       (fst (fst (next_token "000" ([newline] ++ chars " <=1" ++ [newline]) 1)))).
Proof.
  apply (GetToken_next_token uninit_zero eq_refl
           (InputBuffer.of_stream ([newline] ++ chars " <=1" ++ [newline])));
    reflexivity.
Defined.

Lemma GetToken_operator_witness :
  yields (GetToken uninit_zero)
    (MkLexer [] (InputBuffer.of_stream ([newline] ++ chars ";x")) 1
       (MkToken EMPTYSTRING ERROR 1))
    (MkToken EMPTYSTRING SEMICOLON (1 + newlines [newline]))
    (MkLexer [] (MkTape (chars "x") false) (1 + newlines [newline])
       (MkToken EMPTYSTRING SEMICOLON (1 + newlines [newline]))).
Proof.
  apply (GetToken_operator uninit_zero (InputBuffer.of_stream ([newline] ++ chars ";x"))
           [newline] ";" (chars "x"));
    [reflexivity | by repeat constructor | reflexivity].
Defined.


Lemma GetToken_relop_witness :
  yields (GetToken uninit_zero)
    (MkLexer [] (InputBuffer.of_stream (chars " <>1")) 1 (MkToken EMPTYSTRING ERROR 1))
    (MkToken EMPTYSTRING (fst (relop "<" (chars ">1"))) (1 + newlines (chars " ")))
    (MkLexer [] (MkTape (snd (relop "<" (chars ">1"))) false) (1 + newlines (chars " "))
       (MkToken EMPTYSTRING (fst (relop "<" (chars ">1"))) (1 + newlines (chars " ")))).
Proof.
  apply (GetToken_relop uninit_zero (InputBuffer.of_stream (chars " <>1"))
           (chars " ") "<" ">" (chars "1"));
    [reflexivity | by repeat constructor | reflexivity].
Defined.
