(* ===== verification/Main.v ===== *)
(** * The program

    [main] on a standard input of terminated lines writes one line for
    each token of [tokenize], the last of them [END_OF_FILE], and stops:
    as many turns of its loop as the input has characters are enough. *)

From Stdlib Require Import Ascii String ZArith Lia List Bool.
From stdpp Require Import base tactics list strings.
From S2P Require Import Prelude Chars Cursor Token Lexer Sim Run Lines.
From S2P Require Import Numbers Skip Idents Driver.
Import ListNotations.
Local Open Scope Z_scope.
Local Open Scope comp_scope.

(** The tokens of the pending characters [p] from line [l], up to and
    with the first [END_OF_FILE]; [n] bounds their number. *)
Fixpoint tokenize_from (n : nat) (j : ascii) (p : cstring) (l : Z) : list Token :=
  match n with
  | O => []
  | S n' =>
      let x := next_token j p l in
      fst (fst x) ::
        (if bool_decide (token_type (fst (fst x)) = END_OF_FILE) then []
         else tokenize_from n' j (pending (snd (fst x))) (snd x))
  end.

(** The tokens of a whole input. *)
Definition tokenize (j : ascii) (p : cstring) : list Token :=
  tokenize_from (S (length p)) j p 1.

(** ** One token *)

Lemma first_literal_kind nts p lex kind rest :
  first_literal nts p = Some (lex, kind, rest) -> kind ∈ map tokenType nts.
Proof.
  induction nts as [|nt nts IH]; [done|]. cbn [first_literal map].
  destruct (literal _ _ p) as [[lx rs]|]; rewrite elem_of_cons; [|by auto].
  intros [= _ <- _]. by left.
Qed.

Lemma number_kind p lex kind rest :
  number p = Some (lex, kind, rest) -> kind ∈ [REALNUM; BASE08NUM; BASE16NUM; NUM].
Proof.
  unfold number. destruct (first_literal numberTypes p) as [r|] eqn:E.
  - intros [= ->]. apply first_literal_kind in E.
    change (kind ∈ map tokenType numberTypes ++ [NUM]). apply elem_of_app. by left.
  - destruct (plain_integer p) as [[lx rs]|]; [|done]. intros [= _ <- _].
    by repeat constructor.
Qed.

Lemma number_suffix p lex kind rest :
  number p = Some (lex, kind, rest) -> exists s, p = s ++ rest.
Proof.
  unfold number. intros H.
  assert (Hl : forall nts, first_literal nts p = Some (lex, kind, rest) ->
               exists s, p = s ++ rest).
  { induction nts as [|nt nts IH]; [done|]. cbn [first_literal].
    destruct (literal _ _ p) as [[lx rs]|] eqn:E; [|done]. intros [= -> _ ->].
    destruct (literal_split _ _ _ _ _ E) as [->|(y & -> & _)]; [by eexists|].
    exists (lex ++ [y]). by rewrite <- app_assoc. }
  destruct (first_literal numberTypes p) as [r|] eqn:E1; [injection H as ->; eauto|].
  destruct (plain_integer p) as [[lx rs]|] eqn:E2; [|done]. injection H as -> _ ->.
  apply plain_integer_split in E2. eauto.
Qed.

Lemma number_not_end p lex kind rest :
  number p = Some (lex, kind, rest) -> kind <> END_OF_FILE.
Proof.
  intros H%number_kind ->.
  repeat (apply elem_of_cons in H as [H|H]; [discriminate|]). by apply elem_of_nil in H.
Qed.

Lemma word_kind_not_end s : word_kind s <> END_OF_FILE.
Proof. destruct (word_kind_cases s) as [[_ H]|[_ ->]]; [|done]. by intros E; rewrite E in H. Qed.

(** What a token leaves is a suffix of the input. *)
Lemma token_at_suffix c r : exists s, c :: r = s ++ snd (token_at (c :: r)).
Proof.
  unfold token_at, relop.
  repeat case_match; cbn [fst snd default]; simplify_eq;
    try (by exists [c]); try (by exists []); try (by eexists [c; _]).
  - destruct (number _) as [[[lex kind] rest]|] eqn:E; [|by exists []].
    eapply number_suffix, E.
  - destruct (identifier _) as [[[lex kind] rest]|] eqn:E; [|by exists []].
    apply identifier_shape in E as (-> & _). by eexists.
Qed.

(** A token that starts with a character is not [END_OF_FILE]. *)
Lemma token_at_not_end c r : snd (fst (token_at (c :: r))) <> END_OF_FILE.
Proof.
  unfold token_at, relop.
  repeat case_match; cbn [fst snd default]; simplify_eq; try done.
  - by eapply switch_kind_not_end.
  - destruct (number _) as [[[lex kind] rest]|] eqn:E; [|done]. cbn [fst snd default].
    by apply number_not_end in E.
  - destruct (identifier _) as [[[lex kind] rest]|] eqn:E; [|done]. cbn [fst snd default].
    apply identifier_shape in E as (_ & _ & _ & -> & _). apply word_kind_not_end.
Qed.

(** [next_token] either ends the stream or leaves a shorter stream of
    terminated lines. *)
Lemma next_token_cases j p l :
  terminated p ->
  (token_type (fst (fst (next_token j p l))) = END_OF_FILE
   /\ snd (fst (next_token j p l)) = MkTape [] true) \/
  (token_type (fst (fst (next_token j p l))) <> END_OF_FILE
   /\ exists rest, snd (fst (next_token j p l)) = MkTape rest false
      /\ terminated rest /\ (length rest < length p)%nat).
Proof.
  intros Hp. unfold next_token, skip_result.
  destruct (span isspace p) as [ws [|c r]] eqn:E; cbn [fst snd pending token_type];
    [by left | right].
  split; [apply token_at_not_end|]. eexists. split; [done|].
  pose proof (terminated_span isspace p Hp) as Ht. rewrite E in Ht. cbn [snd] in Ht.
  pose proof (span_app isspace p) as Hs. rewrite E in Hs. cbn [fst snd] in Hs.
  destruct (token_at_suffix c r) as [s Hsuf]. split.
  - apply (terminated_app s). by rewrite <- Hsuf.
  - pose proof (token_at_length c r) as Hlen. rewrite <- Hs, length_app. lia.
Qed.

(** ** The stream of tokens *)

(** More fuel than characters gives the same tokens. *)
Lemma tokenize_from_fuel n m j p l :
  terminated p -> (length p < n)%nat -> (length p < m)%nat ->
  tokenize_from n j p l = tokenize_from m j p l.
Proof.
  revert m p l. induction n as [|n IH]; intros [|m] p l Hp Hn Hm; try lia.
  cbn [tokenize_from].
  destruct (next_token_cases j p l Hp) as [[-> _]|(Hk & rest & -> & Hr & Hl)]; [done|].
  rewrite (bool_decide_eq_false_2 _ Hk). f_equal. cbn [pending]. apply IH; [done|lia..].
Qed.

(** The stream ends with [END_OF_FILE], which occurs nowhere before. *)
Lemma tokenize_from_end n j p l :
  terminated p -> (length p < n)%nat ->
  exists toks tok, tokenize_from n j p l = toks ++ [tok]
    /\ token_type tok = END_OF_FILE
    /\ Forall (fun t => token_type t <> END_OF_FILE) toks.
Proof.
  revert p l. induction n as [|n IH]; intros p l Hp Hn; [lia|]. cbn [tokenize_from].
  destruct (next_token_cases j p l Hp) as [[Hk _]|(Hk & rest & -> & Hr & Hl)].
  - rewrite Hk. by exists [], (next_token j p l).1.1.
  - rewrite (bool_decide_eq_false_2 _ Hk). cbn [pending].
    destruct (IH rest (next_token j p l).2 Hr ltac:(lia)) as (toks & tok & -> & ? & ?).
    exists ((next_token j p l).1.1 :: toks), tok. by repeat constructor.
Qed.

Lemma main_cond_true {B} tok out (st : LexicalAnalyzer B) :
  token_type tok <> END_OF_FILE -> main_cond (tok, out) st = Some (true, st).
Proof. intros H. unfold main_cond, ret. cbn [fst]. by rewrite (bool_decide_eq_false_2 _ H). Qed.

Lemma main_cond_false {B} tok out (st : LexicalAnalyzer B) :
  token_type tok = END_OF_FILE -> main_cond (tok, out) st = Some (false, st).
Proof. intros H. unfold main_cond, ret. cbn [fst]. by rewrite (bool_decide_eq_true_2 _ H). Qed.

Section Program.
Variable u : Uninit.
Hypothesis benign_GetToken : benign (uc_GetToken u) = true.

(** The loop of [main], entered with the token read last. *)
Lemma main_loop_tape n p l tm tok out :
  terminated p -> (length p < n)%nat -> token_type tok <> END_OF_FILE ->
  exists r st,
    while n main_cond (main_body u) (tok, out) (MkLexer [] (MkTape p false) l tm)
    = Some ((r, out ++ map Print (tokenize_from n (uc_SkipSpace u) p l)), st).
Proof.
  revert p l tm tok out. induction n as [|n IH]; intros p l tm tok out Hp Hn Hk; [lia|].
  erewrite while_true;
    [|by apply main_cond_true
     |unfold main_body;
      by rewrite (bind_Some_pair _ _ _ _ (GetToken_tape u p l tm Hp benign_GetToken))].
  cbn [tokenize_from fst snd map].
  destruct (next_token_cases (uc_SkipSpace u) p l Hp)
    as [[Hk' _]|(Hk' & rest & Hrest & Hr & Hl)].
  - erewrite while_false by (by apply main_cond_false). rewrite Hk'. by eexists _, _.
  - rewrite (bool_decide_eq_false_2 _ Hk'), Hrest. cbn [pending].
    edestruct (IH rest) as (r & st & ->); [done|lia|exact Hk'|].
    rewrite <- app_assoc. by eexists _, _.
Qed.

(** [main_run] on the reference tape. *)
Lemma main_run_tape n p l tm :
  terminated p -> (length p <= n)%nat ->
  exists st,
    main_run u n (MkLexer [] (MkTape p false) l tm)
    = Some (map Print (tokenize_from (S n) (uc_SkipSpace u) p l), st).
Proof.
  intros Hp Hn. unfold main_run.
  rewrite (bind_Some_pair _ _ _ _ (GetToken_tape u p l tm Hp benign_GetToken)).
  cbn [tokenize_from fst snd map].
  destruct (next_token_cases (uc_SkipSpace u) p l Hp)
    as [[Hk' _]|(Hk' & rest & Hrest & Hr & Hl)].
  - erewrite bind_Some by (by apply while_false, main_cond_false).
    rewrite Hk'. by eexists.
  - rewrite (bool_decide_eq_false_2 _ Hk'), Hrest. cbn [pending].
    edestruct (main_loop_tape n rest) as (r & st & E); [done|lia|exact Hk'|].
    erewrite bind_Some by exact E. by eexists.
Qed.

End Program.

(** ** The program on its standard input *)

(** [main] is [main_run] on the tape of the standard input. *)
Lemma main_tape u n stdin :
  main u n stdin =
  fst <$> main_run u n (MkLexer [] (MkTape stdin false) 1 (MkToken EMPTYSTRING ERROR 1)).
Proof.
  unfold main.
  pose proof (sim_main_run u n (new_LexicalAnalyzer (InputBuffer.of_stream stdin))) as Hs.
  change (view (new_LexicalAnalyzer (InputBuffer.of_stream stdin)))
    with (MkLexer [] (MkTape stdin false) 1 (MkToken EMPTYSTRING ERROR 1)) in Hs.
  rewrite <- Hs.
  by destruct (main_run u n (new_LexicalAnalyzer (InputBuffer.of_stream stdin)))
    as [[out st]|].
Qed.

Section Main.
Variable u : Uninit.
Hypothesis benign_GetToken : benign (uc_GetToken u) = true.

(** [main] over the buffer of the program. *)
Lemma main_tokenize_from n stdin :
  terminated stdin -> (length stdin <= n)%nat ->
  main u n stdin = Some (map Print (tokenize_from (S n) (uc_SkipSpace u) stdin 1)).
Proof.
  intros Hp Hn. rewrite main_tape.
  by destruct (main_run_tape u benign_GetToken n stdin 1 (MkToken EMPTYSTRING ERROR 1) Hp Hn)
    as [st ->].
Qed.

(** C1. On a standard input that is empty or ends with a newline, the
    program stops after at most as many turns of its loop as the input
    has characters, and has written the tokens of [tokenize], one line
    for each, in their order. *)
Theorem main_tokenize n stdin :
  terminated stdin -> (length stdin <= n)%nat ->
  main u n stdin = Some (map Print (tokenize (uc_SkipSpace u) stdin)).
Proof.
  intros Hp Hn. rewrite (main_tokenize_from n stdin Hp Hn). do 2 f_equal.
  apply tokenize_from_fuel; [done|lia..].
Qed.


End Main.

(** ** White space only *)

Section WhiteSpace.
Variable u : Uninit.
Hypothesis benign_GetToken : benign (uc_GetToken u) = true.


End WhiteSpace.

(** ** A local that was never assigned *)

Section Junk.
Variable u : Uninit.
Variable k : TokenType.
Hypothesis junk : switch_kind (uc_GetToken u) = Some k.

(** At the end of the stream the loop of [main] never ends. *)
Lemma main_loop_junk n tok out l tm :
  token_type tok <> END_OF_FILE ->
  while n main_cond (main_body u) (tok, out) (MkLexer [] (MkTape [] true) l tm) = None.
Proof.
  revert tok out l tm. induction n as [|n IH]; intros tok out l tm Hk.
  - by eapply while_out_of_fuel, main_cond_true.
  - destruct (GetToken_tape_junk u k true l tm junk) as [l' E].
    erewrite while_true;
      [|by apply main_cond_true|unfold main_body; by rewrite (bind_Some _ _ _ _ _ E)].
    apply IH. cbn [fst token_type]. by eapply switch_kind_not_end.
Qed.

(** C13. If the local [c] of [GetToken], which is never assigned when the
    fetch fails at the end of the input, holds a character of the
    [switch], the program on the empty input does not stop: whatever the
    number of turns its loop is allowed, it has not returned. *)
Theorem main_never_stops n : main u n [] = None.
Proof.
  rewrite main_tape. unfold main_run.
  destruct (GetToken_tape_junk u k false 1 (MkToken EMPTYSTRING ERROR 1) junk) as [l' E].
  rewrite (bind_Some _ _ _ _ _ E).
  erewrite bind_None; [done|].
  apply main_loop_junk. cbn [fst token_type]. by eapply switch_kind_not_end.
Qed.

End Junk.

(** ** The theorems at work *)

Lemma main_tokenize_witness :
  main uninit_zero 10 (chars "x1 := 0.5" ++ [newline]) =
  Some (map Print (tokenize (uc_SkipSpace uninit_zero) (chars "x1 := 0.5" ++ [newline]))).
Proof.
  apply (main_tokenize uninit_zero eq_refl 10 (chars "x1 := 0.5" ++ [newline]));
    [reflexivity | vm_compute; lia].
Defined.



Lemma main_never_stops_witness :
  main (MkUninit "000" "000" "000" "000" "000" "+") 1000 [] = None.
Proof.
  apply (main_never_stops (MkUninit "000" "000" "000" "000" "000" "+") PLUS eq_refl 1000).
Defined.
