(* ===== verification/Wellformed.v ===== *)
(** * Well-formed tokens

    The lexemes of each kind of token as a grammar ([lexeme_of]), stated
    on the lexeme alone, and the theorem that every token the analyser
    returns on a stream of terminated lines is well formed: numerals have
    no leading zero, a real number has digits on both sides of its point
    unless it starts with ["0."], an identifier is no keyword, a keyword
    is spelled as its kind is named, and every other token has the
    empty lexeme. *)

From Stdlib Require Import Ascii String ZArith Lia List Bool.
From stdpp Require Import base tactics list strings.
From S2P Require Import Prelude Chars Cursor Token Lexer Sim Run Lines.
From S2P Require Import Numbers Skip Idents Driver Main.
Import ListNotations.
Local Open Scope Z_scope.

(** Strings of digits of a base. *)
Definition digits (bs : Z) (s : cstring) : Prop :=
  Forall (fun c => isDigitInBase c bs = true) s.

(** A numeral of a base: a single zero, or a positive digit and digits. *)
Inductive numeral (bs : Z) : cstring -> Prop :=
  | numeral_zero : numeral bs (chars "0")
  | numeral_positive d ds :
      isPositiveDigitInBase d bs = true -> digits bs ds -> numeral bs (d :: ds).

(** The kinds whose tokens carry no lexeme. *)
Definition is_symbol_kind (k : TokenType) : bool :=
  match k with
  | NUM | ID | REALNUM | BASE08NUM | BASE16NUM => false
  | _ => negb (is_keyword_kind k)
  end.

(** The lexemes of a kind. *)
Inductive lexeme_of : TokenType -> cstring -> Prop :=
  | lexeme_NUM n : numeral 10 n -> lexeme_of NUM n
  | lexeme_BASE08NUM n : numeral 8 n -> lexeme_of BASE08NUM (n ++ BASE08STRING)
  | lexeme_BASE16NUM n : numeral 16 n -> lexeme_of BASE16NUM (n ++ BASE16STRING)
  | lexeme_REALNUM n f :
      numeral 10 n -> digits 10 f -> n = chars "0" \/ f <> [] ->
      lexeme_of REALNUM (n ++ DOTSTRING ++ f)
  | lexeme_ID c s :
      isalpha c = true -> Forall (fun x => isalnum x = true) s ->
      IsKeyword (c :: s) = false -> lexeme_of ID (c :: s)
  | lexeme_keyword k :
      is_keyword_kind k = true ->
      lexeme_of k (nth (TokenType_to_nat k) reserved EMPTYSTRING)
  | lexeme_symbol k : is_symbol_kind k = true -> lexeme_of k EMPTYSTRING.

(** A well-formed token. *)
Definition well_formed (t : Token) : Prop := lexeme_of (token_type t) (lexeme t).

(** ** Numerals *)

Lemma is_zero_eq c : is_zero c = true -> c = "0"%char.
Proof. apply Ascii.eqb_eq. Qed.

Lemma digits_zeros bs zs : 0 < bs -> Forall (fun c => is_zero c = true) zs -> digits bs zs.
Proof.
  intros Hb H. eapply Forall_impl; [exact H|].
  intros c ->%is_zero_eq. by apply isDigitInBase_zero.
Qed.

Lemma digits_span bs s : digits bs (fst (span (fun c => isDigitInBase c bs) s)).
Proof. apply (span_Forall (fun c => isDigitInBase c bs)). Qed.

Lemma digits_app bs s t : digits bs s -> digits bs t -> digits bs (s ++ t).
Proof. apply Forall_app_2. Qed.

(** The digits that [literal] takes in front of the marker. *)
Lemma literal_numeral vs bs p lex rest :
  literal vs bs p = Some (lex, rest) -> vs <> DOTSTRING ->
  exists n, lex = n ++ vs /\ numeral bs n.
Proof.
  unfold literal. intros H Hvs.
  assert (Hn : negb (string_eqb vs DOTSTRING) = true)
    by by apply negb_true_iff, string_eqb_neq.
  rewrite Hn in H.
  repeat match type of H with
         | match ?x with _ => _ end = _ => destruct x eqn:?
         | (if ?b then _ else _) = _ => destruct b eqn:?
         end; simplify_eq.
  - exists (chars "0"). split; [|constructor].
    by match goal with E : is_zero _ = true |- _ => apply is_zero_eq in E as -> end.
  - eexists (_ :: _). split; [reflexivity|]. constructor; [done|apply digits_span].
Qed.

(** The real numbers of [literal]. *)
Lemma literal_real p lex rest :
  literal DOTSTRING 10 p = Some (lex, rest) ->
  exists n f, lex = n ++ DOTSTRING ++ f /\ numeral 10 n /\ digits 10 f
              /\ (n = chars "0" \/ f <> []).
Proof.
  unfold literal. change (negb (string_eqb DOTSTRING DOTSTRING)) with false. intros H.
  repeat match type of H with
         | match ?x with _ => _ end = _ => destruct x eqn:?
         | (if ?b then _ else _) = _ => destruct b eqn:?
         end; simplify_eq;
    repeat match goal with
           | E : is_zero _ = true |- _ => apply is_zero_eq in E as ->
           end.
  1-3: exists (chars "0"); eexists; split; [reflexivity|];
    split_and!; [constructor| |by left];
    repeat apply digits_app;
    first [apply digits_span | apply digits_zeros; [lia | apply (span_Forall is_zero)]].
  eexists (_ :: _), _. split; [by rewrite app_comm_cons|].
  split_and!; [constructor; [done|apply digits_span]|apply digits_span|right].
  intros E. match goal with H : empty _ = false |- _ => by rewrite E in H end.
Qed.

Lemma plain_integer_numeral p lex rest :
  plain_integer p = Some (lex, rest) -> numeral 10 lex.
Proof.
  unfold plain_integer. intros H. repeat case_match; simplify_eq.
  - match goal with E : is_zero _ = true |- _ => apply is_zero_eq in E as -> end.
    constructor.
  - constructor.
    + rewrite isPositiveDigitInBase_spec, isDigitInBase_10.
      apply andb_true_iff. split; [done|]. by apply negb_true_iff.
    + eapply Forall_impl; [apply (span_Forall isdigit)|].
      intros c Hc. simpl in Hc. by rewrite isDigitInBase_10.
Qed.

(** ** Tokens *)

Lemma number_well_formed p lex kind rest :
  number p = Some (lex, kind, rest) -> lexeme_of kind lex.
Proof.
  unfold number, numberTypes. cbn [first_literal validate_string base tokenType].
  destruct (literal DOTSTRING 10 p) as [[lx rs]|] eqn:E1.
  { intros [= <- <- <-]. apply literal_real in E1 as (n & f & -> & ? & ? & ?).
    by constructor. }
  destruct (literal BASE08STRING 8 p) as [[lx rs]|] eqn:E2.
  { intros [= <- <- <-]. apply literal_numeral in E2 as (n & -> & ?); [|done].
    by constructor. }
  destruct (literal BASE16STRING 16 p) as [[lx rs]|] eqn:E3.
  { intros [= <- <- <-]. apply literal_numeral in E3 as (n & -> & ?); [|done].
    by constructor. }
  destruct (plain_integer p) as [[lx rs]|] eqn:E4; [|done].
  intros [= <- <- <-]. constructor. by eapply plain_integer_numeral.
Qed.

Lemma identifier_well_formed p lex kind rest :
  identifier p = Some (lex, kind, rest) -> lexeme_of kind lex.
Proof.
  intros (_ & Hall & _ & -> & c & s & -> & Hc)%identifier_shape.
  unfold word_kind. destruct (IsKeyword (c :: s)) eqn:E.
  - assert (Hn : nth (TokenType_to_nat (FindKeywordIndex (c :: s))) reserved EMPTYSTRING
                 = c :: s).
    { apply FindKeywordIndex_loop_reserved; [|done].
      intros j k Hj. by do 5 (destruct j as [|j]; [by injection Hj as <-|]). }
    rewrite <- Hn at 2. apply lexeme_keyword. by rewrite FindKeywordIndex_keyword_kind.
  - constructor; [done| |done]. by apply Forall_cons_1 in Hall as [_ ?].
Qed.

Lemma switch_kind_symbol c k : switch_kind c = Some k -> is_symbol_kind k = true.
Proof.
  unfold switch_kind. intros H.
  repeat match type of H with
         | (if ?b then _ else _) = _ => destruct b; [by injection H as <-|]
         end.
  discriminate.
Qed.

Lemma token_at_well_formed p :
  lexeme_of (snd (fst (token_at p))) (fst (fst (token_at p))).
Proof.
  destruct p as [|c r]; [by constructor|]. unfold token_at, relop.
  repeat case_match; cbn [fst snd default]; simplify_eq;
    try (by constructor); try (constructor; by eapply switch_kind_symbol).
  - destruct (number _) as [[[lex kind] rest]|] eqn:E; [|by constructor].
    by eapply number_well_formed.
  - destruct (identifier _) as [[[lex kind] rest]|] eqn:E; [|by constructor].
    by eapply identifier_well_formed.
Qed.

Lemma next_token_well_formed j p l : well_formed (fst (fst (next_token j p l))).
Proof.
  unfold next_token, well_formed.
  destruct (pending _) as [|c r]; cbn [fst snd lexeme token_type]; [by constructor|].
  apply token_at_well_formed.
Qed.

Lemma tokenize_from_well_formed n j p l : Forall well_formed (tokenize_from n j p l).
Proof.
  revert p l. induction n as [|n IH]; intros p l; cbn [tokenize_from]; [constructor|].
  constructor; [apply next_token_well_formed|]. case_bool_decide; [constructor|apply IH].
Qed.

(** Reading a well-formed token: what the grammar says of each kind. *)
Lemma lexeme_of_inv k s :
  lexeme_of k s ->
  match k with
  | NUM => numeral 10 s
  | BASE08NUM => exists n, s = n ++ BASE08STRING /\ numeral 8 n
  | BASE16NUM => exists n, s = n ++ BASE16STRING /\ numeral 16 n
  | REALNUM =>
      exists n f, s = n ++ DOTSTRING ++ f /\ numeral 10 n /\ digits 10 f
                  /\ (n = chars "0" \/ f <> [])
  | ID =>
      exists c r, s = c :: r /\ isalpha c = true /\ Forall (fun x => isalnum x = true) r
                  /\ IsKeyword s = false
  | _ => if is_keyword_kind k then s = nth (TokenType_to_nat k) reserved EMPTYSTRING
         else s = EMPTYSTRING
  end.
Proof.
  destruct 1 as [n|n|n|n f|c r| k Hk | k Hk]; eauto 10.
  - by destruct k.
  - by destruct k.
Qed.

(** ** The tokens of the analyser *)

Section Tokens.
Context {B : Type} `{!Cursor B}.
Variable u : Uninit.
Hypothesis benign_GetToken : benign (uc_GetToken u) = true.

(** C11. Every token that [GetToken] scans on a stream of terminated
    lines is well formed: its lexeme belongs to the grammar of its kind
    (a numeral without leading zero, with the marker of its base; a real
    number with digits on both sides of the point, or after ["0."] any
    digits; an identifier that is no keyword; a keyword spelled as its
    kind is named; the empty lexeme for every other kind). *)
Theorem GetToken_well_formed (b : B) p l tm tok st' :
  tape b = MkTape p false -> terminated p ->
  GetToken u (MkLexer [] b l tm) = Some (tok, st') -> well_formed tok.
Proof.
  intros Hb Hp Hg.
  destruct (yields_tape _ _ b _ _ _ _ _ _ (sim_GetToken u) Hb
              (GetToken_tape u p l tm Hp benign_GetToken)) as (st1 & E & _).
  rewrite Hg in E. injection E as -> _. apply next_token_well_formed.
Qed.

End Tokens.

(** C14. On a standard input that is empty or ends with a newline, every
    line the program writes is the print of a well-formed token. *)
Theorem main_writes_well_formed_tokens u n stdin :
  benign (uc_GetToken u) = true -> terminated stdin -> (length stdin <= n)%nat ->
  exists toks, main u n stdin = Some (map Print toks) /\ Forall well_formed toks.
Proof.
  intros Hj Hp Hn. eexists. split; [by apply main_tokenize_from|].
  apply tokenize_from_well_formed.
Qed.

(** ** The theorems at work *)

Lemma GetToken_well_formed_witness : well_formed (MkToken (chars "1Fx16") BASE16NUM 1).
Proof.
  apply (GetToken_well_formed uninit_zero eq_refl
           (InputBuffer.of_stream (chars " 1Fx16;" ++ [newline]))
           (chars " 1Fx16;" ++ [newline]) 1 (MkToken EMPTYSTRING ERROR 1)
           (MkToken (chars "1Fx16") BASE16NUM 1)
           (MkLexer [] (InputBuffer.Mk [] (chars ";" ++ [newline]) false) 1
              (MkToken (chars "1Fx16") BASE16NUM 1)));
    [reflexivity | reflexivity | vm_compute; reflexivity].
Defined.

Lemma main_writes_well_formed_tokens_witness :
  exists toks,
    main uninit_zero 8 (chars "IF x<>0" ++ [newline]) = Some (map Print toks)
    /\ Forall well_formed toks.
Proof.
  apply (main_writes_well_formed_tokens uninit_zero 8 (chars "IF x<>0" ++ [newline]));
    [reflexivity | reflexivity | vm_compute; lia].
Defined.
