(* ===== verification/Counting.v ===== *)
(** * Line numbers

    The lines of the tokens of [tokenize]: they never decrease along the
    stream, and they stay between the first line and the number of
    newlines of the input plus two, so that the [int] of the source does
    not overflow on an input of fewer than 2^31 - 3 characters. *)

From Stdlib Require Import Ascii String ZArith Lia List Bool Sorted.
From stdpp Require Import base tactics list strings.
From S2P Require Import Prelude Chars Cursor Token Lexer Sim Run Lines.
From S2P Require Import Numbers Skip Idents Driver Main.
Import ListNotations.
Local Open Scope Z_scope.

(** The largest value of an [int]. *)
Definition INT_MAX : Z := 2 ^ 31 - 1.

(** ** Newlines *)

Lemma newlines_length s : newlines s <= Z.of_nat (length s).
Proof.
  induction s as [|c s IH]; [done|]. cbn [newlines length].
  pose proof (nl_range c). lia.
Qed.

Lemma newlines_suffix s r : newlines r <= newlines (s ++ r).
Proof. rewrite newlines_app. pose proof (newlines_nonneg s). lia. Qed.

(** ** One token *)

(** The line of the next token, the line reached and the newlines left. *)
Lemma next_token_line j p l :
  Token.line_no (fst (fst (next_token j p l))) = snd (next_token j p l)
  /\ l <= snd (next_token j p l) <= l + newlines p + 1
  /\ (token_type (fst (fst (next_token j p l))) <> END_OF_FILE ->
      snd (next_token j p l) + newlines (pending (snd (fst (next_token j p l))))
      <= l + newlines p).
Proof.
  unfold next_token, skip_result.
  pose proof (span_app isspace p) as Hp.
  destruct (span isspace p) as [ws [|c r]];
    cbn [fst snd pending Token.line_no token_type newlines] in *;
    subst p; rewrite ?app_nil_r; pose proof (newlines_nonneg ws).
  - pose proof (nl_range (default j (last ws))). split_and!; [done|lia..|done].
  - destruct (token_at_suffix c r) as [s Hs]. rewrite newlines_app.
    pose proof (newlines_suffix s (snd (token_at (c :: r)))) as Hr.
    rewrite <- Hs in Hr. pose proof (newlines_nonneg (c :: r)). lia.
Qed.

(** ** The stream *)

Lemma tokenize_from_lines n j p l :
  Forall (fun t => l <= Token.line_no t <= l + newlines p + 1) (tokenize_from n j p l).
Proof.
  revert p l. induction n as [|n IH]; intros p l; cbn [tokenize_from]; [constructor|].
  destruct (next_token_line j p l) as (Ht & Hl & Hn).
  constructor; [lia|]. case_bool_decide as Hk; [constructor|]. specialize (Hn Hk).
  eapply Forall_impl; [apply IH|]. intros t Hlt. cbn beta in Hlt. lia.
Qed.

Lemma tokenize_from_sorted n j p l :
  StronglySorted Z.le (map Token.line_no (tokenize_from n j p l)).
Proof.
  revert p l. induction n as [|n IH]; intros p l; cbn [tokenize_from map]; [constructor|].
  destruct (next_token_line j p l) as (Ht & Hl & Hn).
  constructor; [case_bool_decide; [constructor|apply IH]|].
  case_bool_decide; [constructor|]. apply Forall_map.
  eapply Forall_impl; [apply tokenize_from_lines|]. intros t Hlt. cbn beta in *. lia.
Qed.

(** ** The program *)

Section Program.
Variable u : Uninit.
Hypothesis benign_GetToken : benign (uc_GetToken u) = true.

(** C15. On a standard input that is empty or ends with a newline, the
    lines of the tokens the program writes never decrease, start at 1 or
    later and are at most the number of characters of the input plus 2:
    on an input of fewer than 2^31 - 3 characters no line number exceeds
    the largest [int]. *)
Theorem main_line_numbers n stdin :
  terminated stdin -> (length stdin <= n)%nat ->
  exists toks,
    main u n stdin = Some (map Print toks)
    /\ StronglySorted Z.le (map Token.line_no toks)
    /\ Forall (fun t => 1 <= Token.line_no t <= Z.of_nat (length stdin) + 2) toks
    /\ (Z.of_nat (length stdin) + 2 <= INT_MAX ->
        Forall (fun t => Token.line_no t <= INT_MAX) toks).
Proof.
  intros Hp Hn. eexists. split; [by apply main_tokenize_from|].
  pose proof (tokenize_from_lines (S n) (uc_SkipSpace u) stdin 1) as Hl.
  pose proof (newlines_length stdin).
  split_and!; [apply tokenize_from_sorted| |intros Hmax];
    (eapply Forall_impl; [exact Hl|]); intros t Ht; cbn beta in *; lia.
Qed.

End Program.

(** ** The theorem at work *)

Lemma main_line_numbers_witness :
  exists toks,
    main uninit_zero 6 (chars "a" ++ [newline] ++ chars "b+1" ++ [newline])
    = Some (map Print toks)
    /\ StronglySorted Z.le (map Token.line_no toks)
    /\ Forall (fun t => 1 <= Token.line_no t
                        <= Z.of_nat (length (chars "a" ++ [newline] ++ chars "b+1"
                                             ++ [newline])) + 2) toks
    /\ (Z.of_nat (length (chars "a" ++ [newline] ++ chars "b+1" ++ [newline])) + 2
        <= INT_MAX ->
        Forall (fun t => Token.line_no t <= INT_MAX) toks).
Proof.
  apply (main_line_numbers uninit_zero eq_refl 6
           (chars "a" ++ [newline] ++ chars "b+1" ++ [newline]));
    [reflexivity | vm_compute; lia].
Defined.
