(* ===== verification/Unterminated.v ===== *)
(** * Numbers that the end of the input cuts short

    The theorems of [Numbers] are about a line that ends with a newline.
    Here the input ends with the digits of a number and no newline.  The
    first format [ScanNumber] tries reads the digits up to the end of the
    stream and pushes them back; from then on the stream reports its end
    as soon as the last pending character has been fetched, so that the
    loop of every later attempt stops before it appends that character,
    and the character is not pushed back.  Each of the two attempts that
    follow and the plain integer lose one digit: the number the program
    writes lacks its last three digits (as many as there are after the
    first). *)

From Stdlib Require Import Ascii String ZArith Lia List Bool.
From stdpp Require Import base tactics list strings.
From S2P Require Import Prelude Chars Cursor Token Lexer Sim Run Lines.
From S2P Require Import Numbers Skip Idents Driver Main.
Import ListNotations.
Local Open Scope Z_scope.
Local Open Scope comp_scope.

(** The lexeme [ScanNumber] returns for the digits [d :: ds] at the end of
    an input with no newline. *)
Definition cut_short (d : ascii) (ds : cstring) : cstring :=
  d :: take (length ds - 3) ds.

(** The digits of every format of [numberTypes]. *)
Definition octal (c : ascii) : bool := isDigitInBase c 8.

(** ** The scan loop once the end of the stream has been hit *)

Lemma scan_run_end P c scanned p :
  Forall (fun x => P x = true) (c :: p) ->
  scan_run P c scanned p true
  = (default c (last p), scanned ++ take (length p) (c :: p), MkTape [] true).
Proof.
  revert c scanned. induction p as [|x r IH]; intros c scanned Hall; cbn [scan_run].
  - by rewrite app_nil_r.
  - rewrite (Forall_inv Hall), IH by (by eapply Forall_inv_tail).
    by rewrite default_last_cons, <- app_assoc.
Qed.

Lemma fetch_scan_end P c0 scanned q :
  Forall (fun x => P x = true) q ->
  fetch_scan P c0 scanned (MkTape q true)
  = (default c0 (last q), scanned ++ take (length q - 1) q, MkTape [] true).
Proof.
  intros Hall. unfold fetch_scan. destruct q as [|x r]; lex_reduce.
  - cbn [scan_run]. by rewrite app_nil_r.
  - rewrite scan_run_end by done. cbn [length]. rewrite Nat.sub_1_r, Nat.pred_succ.
    by rewrite default_last_cons.
Qed.

Lemma fetch_scan_all P c0 scanned q :
  Forall (fun x => P x = true) q ->
  fetch_scan P c0 scanned (MkTape q false)
  = (default c0 (last q), scanned ++ q, MkTape [] true).
Proof. intros Hall. by rewrite fetch_scan_noeof, (span_all P q Hall). Qed.

Lemma verify_run_end x s c : verify_run (x :: s) c [] (MkTape [] true) = (false, MkTape [] true).
Proof. reflexivity. Qed.

(** What is left of [q] after [k] attempts. *)
Lemma take_length_pred k (q : cstring) :
  take (length (take (length q - k) q) - 1) (take (length q - k) q)
  = take (length q - S k) q.
Proof. rewrite length_take, take_take. f_equal. lia. Qed.

Lemma Forall_take_sub {A} (P : A -> Prop) k (q : list A) :
  Forall P q -> Forall P (take (length q - k) q).
Proof. apply Forall_take. Qed.

(** ** Octal digits are digits of every format *)

Lemma octal_digit_in c bs : 8 <= bs -> octal c = true -> isDigitInBase c bs = true.
Proof.
  unfold octal, isDigitInBase. intros Hbs. change (8 <=? 10) with true. cbv iota zeta.
  intros H. apply andb_true_iff in H as [H1 H2]. rewrite H1.
  apply Z.ltb_lt in H2. destruct (bs <=? 10) eqn:E.
  - apply andb_true_iff; split; [done|]. apply Z.ltb_lt. lia.
  - replace (char_int c <=? 57) with true; [done|]. symmetry. apply Z.leb_le. lia.
Qed.

Lemma octal_isdigit c : octal c = true -> isdigit c = true.
Proof. intros H. rewrite <- isDigitInBase_10. by apply octal_digit_in. Qed.

Lemma octal_positive c bs :
  8 <= bs -> isPositiveDigitInBase c 8 = true -> isPositiveDigitInBase c bs = true.
Proof.
  rewrite !isPositiveDigitInBase_spec. intros Hbs [H1 H2]%andb_true_iff.
  by rewrite (octal_digit_in c bs Hbs H1), H2.
Qed.

Lemma octal_Forall bs (q : cstring) :
  8 <= bs -> Forall (fun x => octal x = true) q ->
  Forall (fun x => isDigitInBase x bs = true) q.
Proof.
  intros Hbs Hq. eapply Forall_impl; [exact Hq|]. intros c. by apply octal_digit_in.
Qed.

(** ** One attempt, and the plain integer *)

Section Attempts.
Variable u : Uninit.
Implicit Types (d : ascii) (q : cstring) (ts : list Token) (l : Z) (tm : Token).

(** The first attempt reads the digits to the end of the stream, finds no
    marker and pushes them back: the end has now been hit. *)
Lemma matchToBase_first vs bs d q ts l tm :
  vs <> [] -> isPositiveDigitInBase d bs = true ->
  Forall (fun x => isDigitInBase x bs = true) q ->
  matchToBase u vs bs (MkLexer ts (MkTape (d :: q) false) l tm)
  = Some (EMPTYSTRING, MkLexer ts (MkTape (d :: q) true) l tm).
Proof.
  intros Hvs Hd Hq. destruct vs as [|v vs]; [done|]. unfold matchToBase. lex_run.
  rewrite (isPositiveDigitInBase_nonzero _ _ Hd), Hd. lex_run.
  rewrite (fetch_scan_all _ _ _ _ Hq). lex_run. rewrite verify_run_end. lex_run.
  norm_app. by rewrite app_nil_r.
Qed.

(** A later attempt loses the last pending digit. *)
Lemma matchToBase_end vs bs d q ts l tm :
  vs <> [] -> isPositiveDigitInBase d bs = true ->
  Forall (fun x => isDigitInBase x bs = true) q ->
  matchToBase u vs bs (MkLexer ts (MkTape (d :: q) true) l tm)
  = Some (EMPTYSTRING, MkLexer ts (MkTape (d :: take (length q - 1) q) true) l tm).
Proof.
  intros Hvs Hd Hq. destruct vs as [|v vs]; [done|]. unfold matchToBase. lex_run.
  rewrite (isPositiveDigitInBase_nonzero _ _ Hd), Hd. lex_run.
  rewrite (fetch_scan_end _ _ _ _ Hq). lex_run. rewrite verify_run_end. lex_run.
  norm_app. by rewrite app_nil_r.
Qed.

(** So does the plain integer. *)
Lemma checkAndReturnNum_end d q ts l tm :
  isdigit d = true -> is_zero d = false -> Forall (fun x => isdigit x = true) q ->
  checkAndReturnNum u (MkLexer ts (MkTape (d :: q) true) l tm)
  = Some (d :: take (length q - 1) q, MkLexer ts (MkTape [] true) l tm).
Proof.
  intros Hd Hz Hq. unfold checkAndReturnNum. lex_run. rewrite Hd. lex_run.
  unfold is_zero in Hz. rewrite Hz. lex_run.
  rewrite (fetch_scan_end _ _ _ _ Hq). by lex_run.
Qed.

(** A format that does not match hands the state it leaves to the next. *)
Lemma ScanNumber_from_next nt nts (st st' : LexicalAnalyzer Tape) :
  matchToBase u (validate_string nt) (base nt) st = Some (EMPTYSTRING, st') ->
  ScanNumber_from u (nt :: nts) st = ScanNumber_from u nts st'.
Proof. intros E. cbn [ScanNumber_from]. by rewrite (bind_Some _ _ _ _ _ E). Qed.

(** The three formats of [numberTypes]: none matches, and two digits are
    lost. *)
Lemma ScanNumber_from_cut_short d ds ts l tm :
  isPositiveDigitInBase d 8 = true -> Forall (fun x => octal x = true) ds ->
  ScanNumber_from u numberTypes (MkLexer ts (MkTape (d :: ds) false) l tm)
  = Some (None, MkLexer ts (MkTape (d :: take (length ds - 2) ds) true) l tm).
Proof.
  intros Hd Hds. unfold numberTypes.
  erewrite ScanNumber_from_next;
    [|apply matchToBase_first; [done|by apply octal_positive|by apply octal_Forall]].
  erewrite ScanNumber_from_next by (by apply matchToBase_end).
  erewrite ScanNumber_from_next.
  2:{ apply matchToBase_end; [done|by apply octal_positive|].
      apply octal_Forall; [done|]. by apply (Forall_take_sub _ 1). }
  by rewrite (take_length_pred 1).
Qed.

(** [ScanNumber] on the reference tape. *)
Lemma ScanNumber_cut_short_tape d ds ts l tm :
  isPositiveDigitInBase d 8 = true -> Forall (fun x => octal x = true) ds ->
  ScanNumber u (MkLexer ts (MkTape (d :: ds) false) l tm)
  = Some (MkToken (cut_short d ds) NUM l,
          MkLexer ts (MkTape [] true) l (MkToken (cut_short d ds) NUM l)).
Proof.
  intros Hd Hds. unfold ScanNumber. lex_run.
  change (take NUMTYPE_COUNT numberTypes) with numberTypes.
  erewrite bind_Some by (by apply ScanNumber_from_cut_short). cbv beta iota.
  erewrite bind_Some.
  2:{ apply checkAndReturnNum_end.
      - by apply octal_isdigit, isPositiveDigitInBase_digit.
      - by eapply isPositiveDigitInBase_nonzero.
      - apply (Forall_take_sub _ 2).
        eapply Forall_impl; [exact Hds|]. intros c. apply octal_isdigit. }
  rewrite (take_length_pred 2). by lex_run.
Qed.

End Attempts.

(** ** The dispatcher *)

Lemma isdigit_dispatch c :
  isdigit c = true ->
  switch_kind c = None /\ (c =? "<")%char = false /\ (c =? ">")%char = false
  /\ isspace c = false.
Proof.
  intros H. split_and!.
  - unfold switch_kind.
    repeat match goal with
           | |- (if (?c =? ?d)%char then _ else _) = _ =>
               destruct (Ascii.eqb_spec c d) as [->|]; [discriminate H|]
           end.
    reflexivity.
  - by destruct (Ascii.eqb_spec c "<") as [->|].
  - by destruct (Ascii.eqb_spec c ">") as [->|].
  - unfold isdigit, isspace in *. cbv zeta in *.
    destruct (_ || _) eqn:E; [|done]. bool_lia.
Qed.

Section Dispatch.
Variable u : Uninit.
Implicit Types (ws ds : cstring) (l : Z) (tm : Token).

(** [GetToken] on white space and the digits that end the input. *)
Lemma GetToken_cut_short_tape ws d ds l tm :
  Forall (fun x => isspace x = true) ws ->
  isPositiveDigitInBase d 8 = true -> Forall (fun x => octal x = true) ds ->
  GetToken u (MkLexer [] (MkTape (ws ++ d :: ds) false) l tm) =
  Some (MkToken (cut_short d ds) NUM (l + newlines ws),
        MkLexer [] (MkTape [] true) (l + newlines ws)
          (MkToken (cut_short d ds) NUM (l + newlines ws))).
Proof.
  intros Hws Hd Hds.
  pose proof (octal_isdigit _ (isPositiveDigitInBase_digit _ _ Hd)) as Hdig.
  destruct (isdigit_dispatch d Hdig) as (Hk & Hlt & Hgt & Hsp).
  unfold GetToken. lex_run.
  rewrite (bind_Some_pair _ _ _ _ (SkipSpace_tape u _ [] l tm)).
  rewrite (skip_result_spaces _ _ _ _ _ Hws Hsp). lex_run.
  rewrite Hk, Hlt, Hgt, Hdig. lex_run. by apply ScanNumber_cut_short_tape.
Qed.

(** A word that ends the input is read to its last character: the loop of
    [ScanIdOrKeyword] is the only scan, and the end of the stream has not
    been hit when it starts. *)
Lemma ScanIdOrKeyword_end_tape c r ts l tm :
  isalpha c = true -> Forall (fun x => isalnum x = true) r ->
  ScanIdOrKeyword u (MkLexer ts (MkTape (c :: r) false) l tm) =
  Some (MkToken (c :: r) (word_kind (c :: r)) l,
        MkLexer ts (MkTape [] true) l (MkToken (c :: r) (word_kind (c :: r)) l)).
Proof.
  intros Hc Hr. unfold ScanIdOrKeyword. lex_run. rewrite Hc. lex_run.
  erewrite bind_Some by (apply ident_loop_run; simpl; lia). lex_reduce.
  rewrite scan_run_noeof, span_all by (constructor; [by apply isalnum_alpha|done]).
  lex_run. norm_app. unfold word_kind. destruct (IsKeyword _); by lex_run.
Qed.

End Dispatch.

Lemma isalpha_dispatch c :
  isalpha c = true ->
  switch_kind c = None /\ (c =? "<")%char = false /\ (c =? ">")%char = false
  /\ isspace c = false /\ isdigit c = false.
Proof.
  intros H. split_and!.
  - unfold switch_kind.
    repeat match goal with
           | |- (if (?c =? ?d)%char then _ else _) = _ =>
               destruct (Ascii.eqb_spec c d) as [->|]; [discriminate H|]
           end.
    reflexivity.
  - by destruct (Ascii.eqb_spec c "<") as [->|].
  - by destruct (Ascii.eqb_spec c ">") as [->|].
  - destruct (isspace c) eqn:E; [|done].
    apply isspace_not_alnum in E. by rewrite (isalnum_alpha c H) in E.
  - destruct (isdigit c) eqn:E; [|done]. by rewrite (isdigit_not_alpha c E) in H.
Qed.

Section Words.
Variable u : Uninit.
Implicit Types (ws r : cstring) (l : Z) (tm : Token).

(** [GetToken] on white space and the word that ends the input. *)
Lemma GetToken_word_tape ws c r l tm :
  Forall (fun x => isspace x = true) ws ->
  isalpha c = true -> Forall (fun x => isalnum x = true) r ->
  GetToken u (MkLexer [] (MkTape (ws ++ c :: r) false) l tm) =
  Some (MkToken (c :: r) (word_kind (c :: r)) (l + newlines ws),
        MkLexer [] (MkTape [] true) (l + newlines ws)
          (MkToken (c :: r) (word_kind (c :: r)) (l + newlines ws))).
Proof.
  intros Hws Hc Hr. destruct (isalpha_dispatch c Hc) as (Hk & Hlt & Hgt & Hsp & Hdig).
  unfold GetToken. lex_run.
  rewrite (bind_Some_pair _ _ _ _ (SkipSpace_tape u _ [] l tm)).
  rewrite (skip_result_spaces _ _ _ _ _ Hws Hsp). lex_run.
  rewrite Hk, Hlt, Hgt, Hdig, Hc. lex_run. by apply ScanIdOrKeyword_end_tape.
Qed.

End Words.

(** ** The program *)

Section Program.
Variable u : Uninit.
Hypothesis benign_GetToken : benign (uc_GetToken u) = true.

(** The loop of [main] entered at the end of the stream: one turn. *)
Lemma main_last_loop n tok out l :
  token_type tok <> END_OF_FILE ->
  while (S n) main_cond (main_body u) (tok, out) (MkLexer [] (MkTape [] true) l tok)
  = Some ((MkToken EMPTYSTRING END_OF_FILE (l + nl (uc_SkipSpace u)),
           out ++ [Print (MkToken EMPTYSTRING END_OF_FILE (l + nl (uc_SkipSpace u)))]),
          MkLexer [] (MkTape [] true) (l + nl (uc_SkipSpace u))
            (MkToken EMPTYSTRING END_OF_FILE (l + nl (uc_SkipSpace u)))).
Proof.
  intros Hk.
  erewrite while_true;
    [|by apply main_cond_true
     |unfold main_body;
      by rewrite (bind_Some _ _ _ _ _ (GetToken_tape_end u l tok benign_GetToken))].
  by apply while_false, main_cond_false.
Qed.

(** The program on an input whose first token takes the stream to its
    end: it writes that token and the [END_OF_FILE] token. *)
Lemma main_last_token n stdin tok l :
  GetToken u (MkLexer [] (MkTape stdin false) 1 (MkToken EMPTYSTRING ERROR 1))
  = Some (tok, MkLexer [] (MkTape [] true) l tok) ->
  token_type tok <> END_OF_FILE ->
  main u (S n) stdin =
  Some [Print tok; Print (MkToken EMPTYSTRING END_OF_FILE (l + nl (uc_SkipSpace u)))].
Proof.
  intros E Hk. rewrite main_tape. unfold main_run. rewrite (bind_Some _ _ _ _ _ E).
  erewrite bind_Some; [|by apply main_last_loop]. done.
Qed.

End Program.

(** ** Over any cursor *)

Section Refinement.
Context {B : Type} `{!Cursor B}.
Variable u : Uninit.
Implicit Types (b : B) (ds : cstring) (ts : list Token) (l : Z) (tm : Token).

(** C20. When the input ends with the digits of a number and no newline
    (a digit from 1 to 7, then digits from 0 to 7, so that the digits
    belong to every format), [ScanNumber] returns a [NUM] token whose
    lexeme is the first digit and the others but the last three: one
    digit is lost by each of the two formats tried after the end of the
    stream has been hit and one by the plain integer.  The stream is left
    at its end. *)
Theorem ScanNumber_cut_short b d ds ts l tm :
  tape b = MkTape (d :: ds) false ->
  isPositiveDigitInBase d 8 = true -> Forall (fun x => octal x = true) ds ->
  yields (ScanNumber u) (MkLexer ts b l tm) (MkToken (cut_short d ds) NUM l)
    (MkLexer ts (MkTape [] true) l (MkToken (cut_short d ds) NUM l)).
Proof.
  intros Hb Hd Hds. eapply yields_tape; [apply sim_ScanNumber|exact Hb|].
  by apply ScanNumber_cut_short_tape.
Qed.

(** C35. A word that ends the input with no newline is read whole:
    [GetToken] returns the identifier or keyword of all its characters,
    and the stream is left at its end. *)
Theorem GetToken_word_at_end b ws c r l tm :
  tape b = MkTape (ws ++ c :: r) false ->
  Forall (fun x => isspace x = true) ws ->
  isalpha c = true -> Forall (fun x => isalnum x = true) r ->
  yields (GetToken u) (MkLexer [] b l tm)
    (MkToken (c :: r) (word_kind (c :: r)) (l + newlines ws))
    (MkLexer [] (MkTape [] true) (l + newlines ws)
       (MkToken (c :: r) (word_kind (c :: r)) (l + newlines ws))).
Proof.
  intros Hb Hws Hc Hr. eapply yields_tape; [apply sim_GetToken|exact Hb|].
  by apply GetToken_word_tape.
Qed.

End Refinement.

Section Main.
Variable u : Uninit.
Hypothesis benign_GetToken : benign (uc_GetToken u) = true.

(** C19. On an input that is white space and then the digits of a number
    with no newline after them, the program writes the number without its
    last three digits (as many as there are after the first), then the
    [END_OF_FILE] token, and stops. *)
Theorem main_cut_short n ws d ds :
  Forall (fun x => isspace x = true) ws ->
  isPositiveDigitInBase d 8 = true -> Forall (fun x => octal x = true) ds ->
  main u (S n) (ws ++ d :: ds) =
  Some [Print (MkToken (cut_short d ds) NUM (1 + newlines ws));
        Print (MkToken EMPTYSTRING END_OF_FILE (1 + newlines ws + nl (uc_SkipSpace u)))].
Proof.
  intros Hws Hd Hds. apply main_last_token; [done| |done].
  by apply GetToken_cut_short_tape.
Qed.

End Main.

(** ** The theorems at work *)

Lemma ScanNumber_cut_short_witness :
  yields (ScanNumber uninit_zero)
    (MkLexer [] (InputBuffer.of_stream (chars "12345")) 1 (MkToken EMPTYSTRING ERROR 1))
    (MkToken (chars "12") NUM 1)
    (MkLexer [] (MkTape [] true) 1 (MkToken (chars "12") NUM 1)).
Proof.
  apply (ScanNumber_cut_short uninit_zero (InputBuffer.of_stream (chars "12345"))
           "1"%char (chars "2345") [] 1 (MkToken EMPTYSTRING ERROR 1));
    [reflexivity | reflexivity | by repeat constructor].
Defined.

Lemma GetToken_word_at_end_witness :
  yields (GetToken uninit_zero)
    (MkLexer [] (InputBuffer.of_stream (chars " THEN")) 1 (MkToken EMPTYSTRING ERROR 1))
    (MkToken (chars "THEN") THEN 1)
    (MkLexer [] (MkTape [] true) 1 (MkToken (chars "THEN") THEN 1)).
Proof.
  apply (GetToken_word_at_end uninit_zero (InputBuffer.of_stream (chars " THEN"))
           (chars " ") "T"%char (chars "HEN") 1 (MkToken EMPTYSTRING ERROR 1));
    [reflexivity | by repeat constructor | reflexivity | by repeat constructor].
Defined.

Lemma main_cut_short_witness :
  main uninit_zero 1 (chars "12") =
  Some [Print (MkToken (chars "1") NUM 1); Print (MkToken EMPTYSTRING END_OF_FILE 1)].
Proof.
  apply (main_cut_short uninit_zero eq_refl 0 [] "1"%char (chars "2"));
    [by constructor | reflexivity | by repeat constructor].
Defined.
