(* ===== verification/Examples.v ===== *)
(** * The program on sample inputs

    The inputs that the specification names, and the inputs on which the
    program does something else than a reader of the specification
    expects, each run through [main] over the buffer of the program. *)

From Stdlib Require Import Ascii String ZArith Lia List Bool.
From stdpp Require Import base tactics list strings.
From S2P Require Import Prelude Chars Cursor Token Lexer Main.
Import ListNotations.
Local Open Scope Z_scope.

(** A line of input: the text and its newline. *)
Definition line (s : string) : cstring := chars s ++ [newline].

(** The program on [stdin], with every uninitialised local at the null
    character and one turn of the loop for each character. *)
Definition run (stdin : cstring) : option (list cstring) :=
  main uninit_zero (length stdin) stdin.

(** A token with the lexeme written as a string. *)
Definition tok (s : string) (k : TokenType) (l : Z) : Token := MkToken (chars s) k l.

(** Uninitialised locals where the one of [GetToken] holds a plus sign. *)
Definition uninit_plus : Uninit :=
  MkUninit "000" "000" "000" "000" "000" "+".

(** ** The inputs of the specification *)


(** Digits followed by the marker of a base are one token of that
    base; without the marker, or with a digit that the base does not
    have, the digits are a plain integer and the rest is scanned on its
    own. *)
Example run_bases :
  run (line "17x08 1Fx16 0x16 17 x08 18x08") =
  Some (map Print [tok "17x08" BASE08NUM 1; tok "1Fx16" BASE16NUM 1; tok "0x16" BASE16NUM 1;
                   tok "17" NUM 1; tok "x08" ID 1; tok "18" NUM 1; tok "x08" ID 1;
                   tok "" END_OF_FILE 3]).
Proof. vm_compute. reflexivity. Qed.

(** Keywords are recognised by their exact spelling: a word that
    differs from a keyword in case, or that goes on after it, is an
    identifier. *)
Example run_keywords :
  run (line "if IF While WHILE PRINT1 DO THEN PRINT") =
  Some (map Print [tok "if" ID 1; tok "IF" IF_ 1; tok "While" ID 1; tok "WHILE" WHILE 1;
                   tok "PRINT1" ID 1; tok "DO" DO 1; tok "THEN" THEN 1; tok "PRINT" PRINT 1;
                   tok "" END_OF_FILE 3]).
Proof. vm_compute. reflexivity. Qed.

(** After [<] come the three outcomes [<=], [<>] and [<] with the
    next character still to be scanned, and after [>] the two outcomes
    [>=] and [>]. *)
Example run_relops :
  run (line "<= <> <a >= >a ><") =
  Some (map Print [tok "" LTEQ 1; tok "" NOTEQUAL 1; tok "" LESS 1; tok "a" ID 1;
                   tok "" GTEQ 1; tok "" GREATER 1; tok "a" ID 1; tok "" GREATER 1;
                   tok "" LESS 1; tok "" END_OF_FILE 3]).
Proof. vm_compute. reflexivity. Qed.

(** Tokens carry the line of their first character. *)
Example run_lines :
  run (line "a" ++ line "" ++ line "  b 1") =
  Some (map Print [tok "a" ID 1; tok "b" ID 3; tok "1" NUM 3; tok "" END_OF_FILE 5]).
Proof. vm_compute. reflexivity. Qed.

(** ** Where the program departs from the specification *)

(** On white space only, the line of the [END_OF_FILE] token is not
    one more than the number of newlines: the last newline counts twice. *)
Example run_newlines_counted_twice :
  run (line "" ++ line "") = Some (map Print [tok "" END_OF_FILE 4]).
Proof. vm_compute. reflexivity. Qed.

(** ["0.00"] at the end of a line is not a real number: a newline
    met in the zeros after the point undoes the literal, and the text is
    scanned as [0], [.], [0], [0]. *)
Example run_zeros_before_newline :
  run (line "0.00") =
  Some (map Print [tok "0" NUM 1; tok "" DOT 1; tok "0" NUM 1; tok "0" NUM 1;
                   tok "" END_OF_FILE 3]).
Proof. vm_compute. reflexivity. Qed.

(** After ["0."] and its zeros, a character that is not a positive
    digit is lost: the semicolon and the sign below are never scanned. *)
Example run_character_lost_after_zero_point :
  run (line "0.00;0.+1") =
  Some (map Print [tok "0.00" REALNUM 1; tok "0." REALNUM 1; tok "1" NUM 1;
                   tok "" END_OF_FILE 3]).
Proof. vm_compute. reflexivity. Qed.

(** A newline right after ["0."] is lost with its line: the
    identifier on the second line is reported on line 1. *)
Example run_newline_lost_after_zero_point :
  run (line "0." ++ line "a") =
  Some (map Print [tok "0." REALNUM 1; tok "a" ID 1; tok "" END_OF_FILE 3]).
Proof. vm_compute. reflexivity. Qed.

(** When the input does not end with a newline, the last character
    of a number at its end is lost: ["12"] is scanned as [1]. *)
Example run_last_digit_lost :
  run (chars "12") = Some (map Print [tok "1" NUM 1; tok "" END_OF_FILE 1]).
Proof. vm_compute. reflexivity. Qed.

(** The tokens of operators and of characters in error have the empty
    lexeme, not the text matched. *)
Example run_empty_lexemes :
  run (line "a@+") =
  Some (map Print [tok "a" ID 1; tok "" ERROR 1; tok "" PLUS 1; tok "" END_OF_FILE 3]).
Proof. vm_compute. reflexivity. Qed.

(** At the end of the input [GetToken] dispatches on its local [c],
    which was never assigned: if it holds a plus sign, the program on the
    empty input writes [PLUS] tokens and has not stopped after 100 turns
    of its loop. *)
Example run_uninitialised_dispatch :
  main uninit_plus 100 [] = None.
Proof. vm_compute. reflexivity. Qed.
